(** * YouTube-Rewire: the background service worker, embedded in Rocq

    The development follows [src/content.js] from the line
    [// Background service worker (Manifest V3)] on: the persisted store
    ([chrome.storage.local]), the alarm table ([chrome.alarms]), pending
    [setTimeout] callbacks, opened tabs and the messages sent to them are
    fields of one [World] record, and every handler of the source is a
    function from worlds to worlds.

    Conventions of the embedding.
    - A JavaScript number is a rational ([Q]); [Date.now()] is an integer.
      The worker's handlers compute on these numbers exactly.  Where the
      rounding of doubles decides the outcome - [randInt] returning
      [max + 1], in the schedule generator and in [runSession] - the
      operations are those of [Double], each rounded by a function [fl]
      of which [Rounding fl] is assumed.
    - [Math.random()] is the section variable [random], read at the index
      kept in the world; number-to-string conversion of a schedule
      timestamp inside a template literal is the section variable
      [numberToString].
    - The handlers of different events do not overlap: within one,
      [await getStore()] followed by [await setStore(..)] is one
      read-modify-write.  The three listeners of one message do overlap:
      each runs as far as its first [await] before the next is called,
      so for a [sessionResult] message both calls of [appendLog] read the
      store before either writes ([onMessage]).
    - [undefined] and [null] are both [None]; only truthiness is ever
      tested on such fields by the source.
    - The [generateKeywords] message (a network call) is left out. *)

From Stdlib Require Import ZArith QArith Qround List String Ascii Bool Lia Lqa.
From Stdlib Require Import DecimalString.
From Stdlib Require Floats.PrimFloat.
From stdpp Require Import gmap strings.
Import ListNotations.

Local Open Scope string_scope.
Local Open Scope Z_scope.

(** ** JavaScript string primitives used by the worker *)

Module JS.

(** [s.startsWith(p)] *)
Definition startsWith (s p : string) : bool := String.prefix p s.

(** [s.lastIndexOf(c)] for a one-character needle; [-1] when absent. *)
Fixpoint lastIndexOf_from (c : ascii) (s : string) (i acc : Z) : Z :=
  match s with
  | EmptyString => acc
  | String a s' =>
      lastIndexOf_from c s' (i + 1) (if Ascii.eqb a c then i else acc)
  end.

Definition lastIndexOf (s : string) (c : ascii) : Z :=
  lastIndexOf_from c s 0 (-1).

(** [s.slice(b, e)]: a negative index counts from the end of the string. *)
Definition slice (s : string) (b e : Z) : string :=
  let len := Z.of_nat (String.length s) in
  let norm k := if k <? 0 then Z.max (len + k) 0 else Z.min k len in
  substring (Z.to_nat (norm b)) (Z.to_nat (norm e - norm b)) s.

(** [s.slice(b)] *)
Definition sliceFrom (s : string) (b : Z) : string :=
  slice s b (Z.of_nat (String.length s)).

(** Truthiness of a possibly missing string: [undefined], [null] and the
    empty string are falsy. *)
Definition truthyStr (o : option string) : bool :=
  match o with
  | Some s => negb (String.eqb s "")
  | None => false
  end.

Definition truthyBool (o : option bool) : bool :=
  match o with Some b => b | None => false end.

(** An integer inside a template literal. *)
Definition showZ (z : Z) : string := NilZero.string_of_int (Z.to_int z).

(** A possibly missing string inside a template literal. *)
Definition showStr (o : option string) : string :=
  match o with Some s => s | None => "undefined" end.

(** [Math.round(x)]: the nearest integer, ties upwards. *)
Definition round (x : Q) : Z := Qfloor (x + (1 # 2)).

(** [a.slice(0, n)] on an array. *)
Definition take {A} (n : nat) (l : list A) : list A := firstn n l.

(** [a[i]] on an array: [undefined] out of range. *)
Definition index {A} (l : list A) (i : Z) : option A :=
  if i <? 0 then None else nth_error l (Z.to_nat i).

End JS.

(** ** Configuration *)

Record Config := {
  days : Z;
  minSessionsPerDay : Z;
  maxSessionsPerDay : Z;
  minBetweenHours : Q;
  maxBetweenHours : Q;
  maxWatchSeconds : Z;
  defaultKeywords : list string;
  maxLogs : nat
}.

Definition CONFIG : Config := {|
  days := 7;
  minSessionsPerDay := 3;
  maxSessionsPerDay := 5;
  minBetweenHours := 2;
  maxBetweenHours := 6;
  maxWatchSeconds := 15 * 60;
  defaultKeywords := ["popular tech news"; "trending music"; "funny cat videos"];
  maxLogs := 50
|}.

(** ** Data model *)

(** The object a content script reports in a [sessionResult] message.
    [runSession] sets [success], [keyword], [watchSeconds],
    [videosWatched] and [error]; it never sets a run id, and no handler
    reads one: [sentBy] stands for a run id a sender may embed, so that
    results of an earlier run can be told apart in statements. *)
Record SessionResult := {
  success : bool;
  keyword : option string;
  watchSeconds : option Q;
  videosWatched : option Z;
  error : option string;
  sentBy : option string
}.

(** [{}], used by the second listener when [msg.result] is missing. *)
Definition emptyResult : SessionResult := {|
  success := false; keyword := None; watchSeconds := None;
  videosWatched := None; error := None; sentBy := None
|}.

(** The two shapes of object that reach [appendLog]. *)
Inductive LogEntry :=
| Formatted (kind message details : string) (time : Z)
| Raw (result : SessionResult) (ts : Z) (tabId : option Z).

(** [store.currentRun], written by [scheduleAlarmsForRun]. *)
Record CurrentRun := {
  id : string;
  runStartTs : Z;
  schedule : list Q;
  runKeywords : list string;
  createdAt : Z
}.

(** The keys of [chrome.storage.local] the worker reads or writes. *)
Record Store := {
  isRunning : option bool;
  runId : option string;
  daysCompleted : option Z;
  logs : option (list LogEntry);
  keywords : option (list string);
  startTs : option Z;
  immediateMode : option bool;
  currentRun : option CurrentRun
}.

Definition emptyStore : Store := {|
  isRunning := None; runId := None; daysCompleted := None; logs := None;
  keywords := None; startTs := None; immediateMode := None;
  currentRun := None
|}.

(** A notification is kept by the id it is created under; its title and
    message are display text. *)
Definition Notification := string.

(** [params] of a [startSession] message. *)
Record StartSession := {
  paramKeyword : option string;
  paramRunId : option string;
  paramMaxWatchSeconds : Z
}.

(** Closures handed to [setTimeout]. *)
Inductive Callback :=
| CbSendStart (tabId : Z) (params : StartSession)
              (kws : list string) (rid : option string)
| CbTrigger (kws : list string) (rid : option string).

Record Timeout := {
  delay : Q;
  callback : Callback
}.

(** The response callback of a [chrome.tabs.sendMessage] call made by
    [triggerImmediateSession]; it closes over [keywords] and [runId]. *)
Record Awaiting := {
  awaitTab : Z;
  awaitKeywords : list string;
  awaitRunId : option string
}.

Record Tab := {
  tabIdent : Z;
  active : bool
}.

Record World := {
  store : Store;
  alarms : gmap string Q;
  notifications : list Notification;
  timeouts : list Timeout;
  awaiting : list Awaiting;
  tabs : list Tab;
  sent : list (Z * StartSession);
  responses : list string;
  nextTabId : Z;
  now : Z;
  rngIx : nat
}.

Definition emptyWorld (t : Z) : World := {|
  store := emptyStore; alarms := ∅; notifications := []; timeouts := [];
  awaiting := []; tabs := []; sent := []; responses := [];
  nextTabId := 1; now := t;
  rngIx := 0
|}.

(** Field updates on the world. *)
Definition withStore (s : Store) (w : World) : World :=
  {| store := s; alarms := alarms w; notifications := notifications w;
     timeouts := timeouts w; awaiting := awaiting w; tabs := tabs w;
     sent := sent w; responses := responses w;
     nextTabId := nextTabId w; now := now w;
     rngIx := rngIx w |}.

Definition withAlarms (a : gmap string Q) (w : World) : World :=
  {| store := store w; alarms := a; notifications := notifications w;
     timeouts := timeouts w; awaiting := awaiting w; tabs := tabs w;
     sent := sent w; responses := responses w;
     nextTabId := nextTabId w; now := now w;
     rngIx := rngIx w |}.

Definition withRngIx (i : nat) (w : World) : World :=
  {| store := store w; alarms := alarms w; notifications := notifications w;
     timeouts := timeouts w; awaiting := awaiting w; tabs := tabs w;
     sent := sent w; responses := responses w;
     nextTabId := nextTabId w; now := now w;
     rngIx := i |}.

Definition withTimeouts (t : list Timeout) (w : World) : World :=
  {| store := store w; alarms := alarms w; notifications := notifications w;
     timeouts := t; awaiting := awaiting w; tabs := tabs w;
     sent := sent w; responses := responses w;
     nextTabId := nextTabId w; now := now w;
     rngIx := rngIx w |}.

Definition withAwaiting (a : list Awaiting) (w : World) : World :=
  {| store := store w; alarms := alarms w; notifications := notifications w;
     timeouts := timeouts w; awaiting := a; tabs := tabs w;
     sent := sent w; responses := responses w;
     nextTabId := nextTabId w; now := now w;
     rngIx := rngIx w |}.

Definition withTabs (t : list Tab) (n : Z) (w : World) : World :=
  {| store := store w; alarms := alarms w; notifications := notifications w;
     timeouts := timeouts w; awaiting := awaiting w; tabs := t;
     sent := sent w; responses := responses w;
     nextTabId := n; now := now w;
     rngIx := rngIx w |}.

Definition withSent (m : list (Z * StartSession)) (w : World) : World :=
  {| store := store w; alarms := alarms w; notifications := notifications w;
     timeouts := timeouts w; awaiting := awaiting w; tabs := tabs w;
     sent := m; responses := responses w;
     nextTabId := nextTabId w; now := now w;
     rngIx := rngIx w |}.

(** [sendResponse({status})] *)
Definition respond (r : string) (w : World) : World :=
  {| store := store w; alarms := alarms w; notifications := notifications w;
     timeouts := timeouts w; awaiting := awaiting w; tabs := tabs w;
     sent := sent w; responses := responses w ++ [r];
     nextTabId := nextTabId w; now := now w; rngIx := rngIx w |}.

Definition withNow (t : Z) (w : World) : World :=
  {| store := store w; alarms := alarms w; notifications := notifications w;
     timeouts := timeouts w; awaiting := awaiting w; tabs := tabs w;
     sent := sent w; responses := responses w;
     nextTabId := nextTabId w; now := t; rngIx := rngIx w |}.

(** [chrome.notifications.create(id, {title, message})] *)
Definition notify (n : Notification) (w : World) : World :=
  {| store := store w; alarms := alarms w;
     notifications := notifications w ++ [n];
     timeouts := timeouts w; awaiting := awaiting w; tabs := tabs w;
     sent := sent w; responses := responses w;
     nextTabId := nextTabId w; now := now w;
     rngIx := rngIx w |}.

(** [setTimeout(cb, d)] *)
Definition setTimeout (cb : Callback) (d : Q) (w : World) : World :=
  withTimeouts (timeouts w ++ [{| delay := d; callback := cb |}]) w.

(** [chrome.alarms.create(name, {when})]: an alarm of the same name is
    replaced. *)
Definition createAlarm (name : string) (when : Q) (w : World) : World :=
  withAlarms (<[name := when]> (alarms w)) w.

(** [chrome.tabs.create({url, active}, cb)]: the browser picks the id. *)
Definition createTab (act : bool) (w : World) : Z * World :=
  (nextTabId w,
   withTabs (tabs w ++ [{| tabIdent := nextTabId w; active := act |}])
            (nextTabId w + 1) w).

(** [chrome.tabs.remove(tabId)] *)
Definition removeTab (t : Z) (w : World) : World :=
  withTabs (List.filter (fun x => negb (tabIdent x =? t)) (tabs w))
           (nextTabId w) w.

(** [chrome.tabs.sendMessage(tabId, {action: "startSession", params})] *)
Definition sendStart (t : Z) (p : StartSession) (w : World) : World :=
  withSent (sent w ++ [(t, p)]) w.

(** ** Log recorder *)

(** [appendLog(entry)]: [unshift], then cut the array to [maxLogs]. *)
Definition appendLogStore (cfg : Config) (entry : LogEntry) (s : Store) : Store :=
  let logs0 := match logs s with Some l => l | None => [] end in
  let logs1 := entry :: logs0 in
  let logs2 :=
    if (maxLogs cfg <? length logs1)%nat then firstn (maxLogs cfg) logs1
    else logs1 in
  {| isRunning := isRunning s; runId := runId s;
     daysCompleted := daysCompleted s; logs := Some logs2;
     keywords := keywords s; startTs := startTs s;
     immediateMode := immediateMode s; currentRun := currentRun s |}.

Definition appendLog (entry : LogEntry) (w : World) : World :=
  withStore (appendLogStore CONFIG entry (store w)) w.

(** [appendLog] stops at two [await]s: [getStore()] hands it a copy of the
    store, and [setStore({logs})] writes the one key [logs] back.
    [appendLogFrom read entry] is that write for a call whose [getStore()]
    returned [read]: the entry is put on top of the log that was read, and
    the other keys of the store stay what they are at the time of the
    write. *)
Definition appendLogFrom (read : Store) (entry : LogEntry) (w : World) : World :=
  let s := store w in
  withStore
    {| isRunning := isRunning s; runId := runId s;
       daysCompleted := daysCompleted s;
       logs := logs (appendLogStore CONFIG entry read);
       keywords := keywords s; startTs := startTs s;
       immediateMode := immediateMode s; currentRun := currentRun s |}
    w.

(** The log as the popup reads it: [s.logs || []]. *)
Definition logsOf (w : World) : list LogEntry :=
  match logs (store w) with Some l => l | None => [] end.

(** ** The worker *)

Section Worker.

(** [Math.random()], call by call. *)
Variable random : nat -> Q.

(** A number inside a template literal ([`session-${runId}-${ts}`]). *)
Variable numberToString : Q -> string.

(** [chrome.scripting.executeScript] on a tab: [None] when the script is
    injected, [Some e] when the call throws [e] (already a string). *)
Variable injects : Z -> option string.

(** *** Utilities *)

(** [rand] and [randInt] computed exactly.  [Double.rand] and
    [Double.randInt] below round each operation; the two differ where a
    draw next to 1 is rounded up: exactly, [randInt] never returns
    [max + 1]. *)
Definition rand (r min max : Q) : Q := (r * (max - min) + min)%Q.

Definition randInt (r : Q) (min max : Z) : Z :=
  Qfloor (rand r (inject_Z min) (inject_Z (max + 1))).

Definition draw (w : World) : Q * World :=
  (random (rngIx w), withRngIx (S (rngIx w)) w).

Definition hourMs : Q := inject_Z (60 * 60 * 1000).
Definition dayMs : Z := 24 * 60 * 60 * 1000.

(** *** Schedule generator *)

(** The inner [for (let s = 0; s < sessionCount; s++)] loop: [n] sessions
    are still to be pushed, [ts] is the cursor, [ix] the next random
    draw. *)
Fixpoint sessionLoop (cfg : Config) (n : nat) (ts : Q) (ix : nat)
    (acc : list Q) : list Q * nat :=
  match n with
  | O => (acc, ix)
  | S n' =>
      let acc' := (acc ++ [ts])%list in
      let ts' := (ts + rand (random ix) (minBetweenHours cfg * hourMs)
                                        (maxBetweenHours cfg * hourMs))%Q in
      sessionLoop cfg n' ts' (S ix) acc'
  end.

(** The first cursor of day [day]. *)
Definition dayStart (startTs : Z) (day : Z) (r : Q) : Q :=
  (inject_Z (startTs + day * dayMs) + rand r 0 (6 * hourMs))%Q.

(** The outer [for (let day = 0; day < CONFIG.days; day++)] loop. *)
Fixpoint dayLoop (cfg : Config) (startTs : Z) (n : nat) (day : Z) (ix : nat)
    (acc : list Q) : list Q * nat :=
  match n with
  | O => (acc, ix)
  | S n' =>
      let sessionCount :=
        randInt (random ix) (minSessionsPerDay cfg) (maxSessionsPerDay cfg) in
      let ts := dayStart startTs day (random (S ix)) in
      let '(acc', ix') :=
        sessionLoop cfg (Z.to_nat sessionCount) ts (S (S ix)) acc in
      dayLoop cfg startTs n' (day + 1) ix' acc'
  end.

Definition generateScheduleWith (cfg : Config) (startTs : Z) (ix : nat)
    : list Q * nat :=
  dayLoop cfg startTs (Z.to_nat (days cfg)) 0 ix [].

Definition generateSchedule (startTs : Z) (ix : nat) : list Q * nat :=
  generateScheduleWith CONFIG startTs ix.

(** *** Alarms *)

Definition sessionAlarmName (rid : string) (ts : Q) : string :=
  "session-" ++ rid ++ "-" ++ numberToString ts.

Definition storeWithCurrentRun (cr : option CurrentRun) (s : Store) : Store :=
  {| isRunning := isRunning s; runId := runId s;
     daysCompleted := daysCompleted s; logs := logs s;
     keywords := keywords s; startTs := startTs s;
     immediateMode := immediateMode s; currentRun := cr |}.

Definition scheduleAlarmsForRun (rid : string) (start : Z)
    (kws : list string) (w : World) : World :=
  let '(sched, ix) := generateSchedule start (rngIx w) in
  let w1 := withRngIx ix w in
  let w2 :=
    fold_left (fun acc ts => createAlarm (sessionAlarmName rid ts) ts acc)
              sched w1 in
  withStore
    (storeWithCurrentRun
       (Some {| id := rid; runStartTs := start; schedule := sched;
                runKeywords := kws; createdAt := now w2 |})
       (store w2))
    w2.

(** [cancelRunAlarms(runId)] *)
Definition cancelRunAlarms (rid : string) (w : World) : World :=
  withAlarms
    (filter (fun a => JS.startsWith (fst a) ("session-" ++ rid ++ "-") = false)
            (alarms w))
    w.

(** *** Keyword choice *)

(** [keywords[Math.floor(Math.random() * keywords.length)] ||
     CONFIG.defaultKeywords[0]] *)
Definition pickKeyword (kws : list string) (r : Q) : option string :=
  let i := Qfloor (r * inject_Z (Z.of_nat (length kws)))%Q in
  let k := JS.index kws i in
  if JS.truthyStr k then k else JS.index (defaultKeywords CONFIG) 0.

(** [userKeywords && userKeywords.length ? userKeywords.slice(0, 20)
     : CONFIG.defaultKeywords] *)
Definition chooseKeywords (userKeywords : option (list string)) : list string :=
  match userKeywords with
  | Some (k :: ks) => JS.take 20 (k :: ks)
  | _ => defaultKeywords CONFIG
  end.

(** *** Run manager *)

Definition startBoost (userKeywords : option (list string)) (w : World) : World :=
  let existing := store w in
  if JS.truthyBool (isRunning existing) then notify "ytboost-already" w
  else
    let start := now w in
    let rid := "run-" ++ JS.showZ start in
    let kws := chooseKeywords userKeywords in
    let w1 :=
      withStore
        {| isRunning := Some true; runId := Some rid;
           daysCompleted := Some 0;
           logs := Some (match logs existing with Some l => l | None => [] end);
           keywords := Some kws; startTs := Some start;
           immediateMode := immediateMode existing;
           currentRun := currentRun existing |} w in
    let w2 := scheduleAlarmsForRun rid start kws w1 in
    let w3 :=
      createAlarm ("end-" ++ rid)
                  (inject_Z (start + days CONFIG * 24 * 60 * 60 * 1000 + 60 * 1000))
                  w2 in
    notify ("ytboost-start-" ++ rid) w3.

(** [triggerImmediateSession(keywords, runId)]: the tab is opened and the
    content script injected; on success the [startSession] message is
    deferred by two seconds, on failure the error is logged and the call
    retried after thirty seconds. *)
Definition triggerImmediateSession (kws : list string) (rid : option string)
    (w : World) : World :=
  let '(r, w1) := draw w in
  let kw := pickKeyword kws r in
  let '(tabId, w2) := createTab true w1 in
  match injects tabId with
  | None =>
      setTimeout
        (CbSendStart tabId
           {| paramKeyword := kw; paramRunId := rid;
              paramMaxWatchSeconds := maxWatchSeconds CONFIG |}
           kws rid)
        2000 w2
  | Some err =>
      let w3 := removeTab tabId w2 in
      let w4 := appendLog (Formatted "error" "Session failure" err (now w3)) w3 in
      setTimeout (CbTrigger kws rid) 30000 w4
  end.

Definition startImmediateSessions (userKeywords : option (list string))
    (w : World) : World :=
  let kws := chooseKeywords userKeywords in
  let rid := "immediate-" ++ JS.showZ (now w) in
  let s := store w in
  let w1 :=
    withStore
      {| isRunning := Some true; runId := Some rid;
         daysCompleted := daysCompleted s; logs := logs s;
         keywords := Some kws; startTs := Some (now w);
         immediateMode := Some true; currentRun := currentRun s |} w in
  let w2 := notify ("ytboost-immediate-" ++ rid) w1 in
  triggerImmediateSession kws (Some rid) w2.

(** The run id [stopBoost] cancels alarms for:
    [(store.currentRun && store.currentRun.id) || store.runId]. *)
Definition stopRunId (s : Store) : option string :=
  match currentRun s with
  | Some cr => if JS.truthyStr (Some (id cr)) then Some (id cr) else runId s
  | None => runId s
  end.

Definition stopBoost (w : World) : World :=
  let s := store w in
  let rid := stopRunId s in
  let w1 :=
    match rid with
    | Some r => if JS.truthyStr rid then cancelRunAlarms r w else w
    | None => w
    end in
  let w2 :=
    withStore
      {| isRunning := Some false; runId := None;
         daysCompleted := daysCompleted s; logs := logs s;
         keywords := keywords s; startTs := startTs s;
         immediateMode := Some false; currentRun := None |} w1 in
  notify "ytboost-stopped" w2.

(** *** Session dispatcher, scheduled mode *)

(** [triggerSession(alarmName)] *)
Definition triggerSession (alarmName : string) (w : World) : World :=
  let s := store w in
  let kws :=
    match currentRun s with
    | Some run => runKeywords run
    | None => defaultKeywords CONFIG
    end in
  let rid :=
    match currentRun s with
    | Some run => Some (id run)
    | None => None
    end in
  let '(r, w1) := draw w in
  let kw := pickKeyword kws r in
  let '(tabId, w2) := createTab false w1 in
  match injects tabId with
  | None =>
      sendStart tabId
        {| paramKeyword := kw; paramRunId := rid;
           paramMaxWatchSeconds := maxWatchSeconds CONFIG |} w2
  | Some err =>
      let w3 := removeTab tabId w2 in
      appendLog (Formatted "error" "Injection failure" err (now w3)) w3
  end.

(** The run id the alarm listener reads out of [session-<runId>-<ts>]:
    drop the eight characters of [session-], cut at the last dash. *)
Definition alarmRunId (name : string) : string :=
  let raw := JS.sliceFrom name 8 in
  let lastDash := JS.lastIndexOf raw "-"%char in
  JS.slice raw 0 lastDash.

(** [chrome.alarms.onAlarm] listener *)
Definition onAlarm (name : string) (w : World) : World :=
  if JS.startsWith name "session-" then
    let rid := alarmRunId name in
    let s := store w in
    if negb (JS.truthyBool (isRunning s))
       || (JS.truthyStr (runId s)
           && negb (String.eqb (JS.showStr (runId s)) rid))
    then w
    else triggerSession name w
  else if JS.startsWith name "end-" then
    let s := store w in
    let w1 :=
      withStore
        {| isRunning := Some false; runId := None;
           daysCompleted := daysCompleted s; logs := logs s;
           keywords := keywords s; startTs := startTs s;
           immediateMode := immediateMode s; currentRun := None |} w in
    notify "ytboost-finished" w1
  else w.

(** *** Messages *)

Inductive Message :=
| MsgSessionResult (result : option SessionResult)
| MsgStart (kws : option (list string))
| MsgStartImmediate (kws : option (list string))
| MsgStop.

Definition quote : string := String "034"%char EmptyString.

(** Second [onMessage] listener: the control surface. *)
Definition onControl (m : Message) (w : World) : World :=
  match m with
  | MsgStart kws => respond "started" (startBoost kws w)
  | MsgStartImmediate kws => respond "started" (startImmediateSessions kws w)
  | MsgStop => respond "stopped" (stopBoost w)
  | MsgSessionResult _ => w
  end.

(** [sender.tab && sender.tab.id] as a condition: tab id 0 is falsy. *)
Definition truthyTab (t : option Z) : bool :=
  match t with Some n => negb (n =? 0) | None => false end.

(** [daysCompleted] after a result: [s.daysCompleted || 0], replaced by
    [min(daysPassed, CONFIG.days)] when [s.startTs] is truthy. *)
Definition daysCompletedAfter (s : Store) (t : Z) : Z :=
  match startTs s with
  | Some st =>
      if st =? 0 then match daysCompleted s with Some d => d | None => 0 end
      else Z.min ((t - st) / dayMs + 1) (days CONFIG)
  | None => match daysCompleted s with Some d => d | None => 0 end
  end.

(** Third [onMessage] listener: the raw result is logged, the tab closed,
    the next immediate session armed, [daysCompleted] refreshed. *)
Definition onSessionResult (m : Message) (senderTab : option Z) (w : World)
    : World :=
  match m with
  | MsgSessionResult r =>
      let result := match r with Some x => x | None => emptyResult end in
      let w1 := appendLog (Raw result (now w) senderTab) w in
      let w2 :=
        match senderTab with
        | Some t => if truthyTab senderTab then removeTab t w1 else w1
        | None => w1
        end in
      let s := store w2 in
      let w3 :=
        match keywords s with
        | Some kws =>
            if JS.truthyBool (immediateMode s) && JS.truthyBool (isRunning s)
            then
              let '(r, w') := draw w2 in
              setTimeout (CbTrigger kws (runId s))
                         (inject_Z (Qfloor (r * 10000)%Q + 5000)) w'
            else w2
        | None => w2
        end in
      let w4 :=
        withStore
          {| isRunning := isRunning s; runId := runId s;
             daysCompleted := Some (daysCompletedAfter s (now w3));
             logs := logs s; keywords := keywords s; startTs := startTs s;
             immediateMode := immediateMode s; currentRun := currentRun s |}
          w3 in
      notify ("ytboost-session-" ++ JS.showZ (now w4)) w4
  | _ => w
  end.

(** First [onMessage] listener: a formatted entry per result.  A message
    without [result] makes [result.success] throw; nothing is logged.
    [read] is what the [getStore()] of its [appendLog] returns.  The call
    is not awaited, so the listener goes on to [sendResponse] at once. *)
Definition onSessionResultFormattedFrom (read : Store) (m : Message)
    (w : World) : World :=
  match m with
  | MsgSessionResult (Some result) =>
      let w1 :=
        if success result then
          appendLogFrom read
            (Formatted "success"
               ("Session completed: "
                ++ JS.showZ (match videosWatched result with
                             | Some 0 | None => 1
                             | Some n => n
                             end)
                ++ " videos watched")
               ("Keyword: " ++ quote ++ JS.showStr (keyword result) ++ quote
                ++ ", Watch time: "
                ++ JS.showZ (JS.round (match watchSeconds result with
                                       | Some x => x
                                       | None => 0%Q
                                       end))
                ++ "s")
               (now w)) w
        else
          appendLogFrom read
            (Formatted "error" "Session failed"
               (if JS.truthyStr (error result) then JS.showStr (error result)
                else "Unknown error")
               (now w)) w in
      respond "received" w1
  | _ => w
  end.

(** The third listener inside a dispatch, where it is not the first to
    call [appendLog]: [read] is what the [getStore()] of its [appendLog]
    returns; its second [getStore()], after the [await], reads the store
    as it then is. *)
Definition onSessionResultFrom (read : Store) (m : Message)
    (senderTab : option Z) (w : World) : World :=
  match m with
  | MsgSessionResult r =>
      let result := match r with Some x => x | None => emptyResult end in
      let w1 := appendLogFrom read (Raw result (now w) senderTab) w in
      let w2 :=
        match senderTab with
        | Some t => if truthyTab senderTab then removeTab t w1 else w1
        | None => w1
        end in
      let s := store w2 in
      let w3 :=
        match keywords s with
        | Some kws =>
            if JS.truthyBool (immediateMode s) && JS.truthyBool (isRunning s)
            then
              let '(r, w') := draw w2 in
              setTimeout (CbTrigger kws (runId s))
                         (inject_Z (Qfloor (r * 10000)%Q + 5000)) w'
            else w2
        | None => w2
        end in
      let w4 :=
        withStore
          {| isRunning := isRunning s; runId := runId s;
             daysCompleted := Some (daysCompletedAfter s (now w3));
             logs := logs s; keywords := keywords s; startTs := startTs s;
             immediateMode := immediateMode s; currentRun := currentRun s |}
          w3 in
      notify ("ytboost-session-" ++ JS.showZ (now w4)) w4
  | _ => w
  end.

(** All listeners of [chrome.runtime.onMessage], in registration order.
    The browser calls the three listeners one after the other, each as far
    as its first [await].  For a [sessionResult] message the first
    listener's [appendLog] and the third listener's [appendLog] therefore
    both issue their [getStore()] before either reaches its
    [setStore({logs})]: both read the store of the dispatch, and the two
    writes follow in the order of the reads, so the third listener's write
    lands on top of the first listener's. *)
Definition onMessage (m : Message) (senderTab : option Z) (w : World) : World :=
  let read := store w in
  onSessionResultFrom read m senderTab
    (onControl m (onSessionResultFormattedFrom read m w)).

(** *** Timers and responses *)

(** A [setTimeout] callback runs. *)
Definition runCallback (cb : Callback) (w : World) : World :=
  match cb with
  | CbSendStart tabId params kws rid =>
      let w1 := sendStart tabId params w in
      withAwaiting
        (awaiting w1 ++ [{| awaitTab := tabId; awaitKeywords := kws;
                            awaitRunId := rid |}]) w1
  | CbTrigger kws rid => triggerImmediateSession kws rid w
  end.

(** The response callback of [chrome.tabs.sendMessage] runs: the next
    immediate session is armed, 30 s to 2 min ahead. *)
Definition onResponse (a : Awaiting) (w : World) : World :=
  let '(r, w1) := draw w in
  setTimeout (CbTrigger (awaitKeywords a) (awaitRunId a))
             (rand r 30000 120000) w1.

(** [l] without its [i]-th element. *)
Definition dropNth {A} (i : nat) (l : list A) : list A :=
  (firstn i l ++ skipn (S i) l)%list.

(** What the browser delivers to the worker, and the two writes the popup
    ([src/popup.js]) makes to the store on its own: the keywords saved
    before a start, and the cleared log. *)
Inductive Event :=
| EvMessage (m : Message) (senderTab : option Z)
| EvAlarm (name : string)
| EvTimeout (i : nat)
| EvResponse (i : nat)
| EvClock (t : Z)
| EvPopupKeywords (kws : list string)
| EvPopupClearLogs.

Definition step (e : Event) (w : World) : World :=
  match e with
  | EvMessage m senderTab => onMessage m senderTab w
  | EvAlarm name =>
      match alarms w !! name with
      | Some _ => onAlarm name (withAlarms (delete name (alarms w)) w)
      | None => w
      end
  | EvTimeout i =>
      match nth_error (timeouts w) i with
      | Some t => runCallback (callback t) (withTimeouts (dropNth i (timeouts w)) w)
      | None => w
      end
  | EvResponse i =>
      match nth_error (awaiting w) i with
      | Some a => onResponse a (withAwaiting (dropNth i (awaiting w)) w)
      | None => w
      end
  | EvClock t => withNow (Z.max (now w) t) w
  | EvPopupKeywords kws =>
      let s := store w in
      withStore
        {| isRunning := isRunning s; runId := runId s;
           daysCompleted := daysCompleted s; logs := logs s;
           keywords := Some kws; startTs := startTs s;
           immediateMode := immediateMode s; currentRun := currentRun s |} w
  | EvPopupClearLogs =>
      let s := store w in
      withStore
        {| isRunning := isRunning s; runId := runId s;
           daysCompleted := daysCompleted s; logs := Some [];
           keywords := keywords s; startTs := startTs s;
           immediateMode := immediateMode s; currentRun := currentRun s |} w
  end.

Definition run (es : list Event) (w : World) : World :=
  fold_left (fun acc e => step e acc) es w.

End Worker.

(** ** Numbers as doubles *)

(** A JavaScript number is an IEEE 754 double, and each arithmetic
    operation returns the double nearest to its exact result.  [fl] stands
    for that rounding, as a function on the rationals, for results within
    the range of the finite doubles; [Rounding fl] is what the proofs use
    of it, and what rounding to nearest has there: it keeps the order, it
    leaves a double as it is, and the integers up to [2 ^ 53] in magnitude
    are doubles. *)
Definition maxSafe : Z := 2 ^ 53.

Record Rounding (fl : Q -> Q) : Prop := {
  fl_mono : forall x y : Q, (x <= y)%Q -> (fl x <= fl y)%Q;
  fl_fixed : forall x : Q, (fl (fl x) == fl x)%Q;
  fl_int : forall z : Z,
    - maxSafe <= z <= maxSafe -> (fl (inject_Z z) == inject_Z z)%Q
}.

(** The machine's own doubles, for single computations: the number
    [randInt(min, max)] hands to [Math.floor], and the largest draw
    [Math.random()] can return. *)
Module Binary64.

Import PrimFloat.

Definition randIntArg (r min max : float) : float :=
  (r * (max + 1 - min) + min)%float.

Definition lastDraw : float := next_down 1%float.

End Binary64.

(** The generator and its helpers with every operation rounded.  Without
    rounding they are the definitions of the worker above (lemma
    [generateSchedule_exact]). *)
Module Double.

Section Arith.

Variable fl : Q -> Q.

Definition add (x y : Q) : Q := fl (x + y)%Q.
Definition sub (x y : Q) : Q := fl (x - y)%Q.
Definition mul (x y : Q) : Q := fl (x * y)%Q.

(** [Math.random() * (max - min) + min] *)
Definition rand (r min max : Q) : Q := add (mul r (sub max min)) min.

(** [Math.floor(rand(min, max + 1))] *)
Definition randInt (r : Q) (min max : Z) : Z :=
  Qfloor (rand r (inject_Z min) (add (inject_Z max) 1)).

(** The largest value [rand(min, max)] can take: the product rounded up
    to [max - min]. *)
Definition randTop (min max : Q) : Q := add (sub max min) min.

(** [h * 60 * 60 * 1000] *)
Definition hoursMs (h : Q) : Q := mul (mul (mul h 60) 60) 1000.

(** [startTs + day * 24 * 60 * 60 * 1000] *)
Definition dayBase (startTs day : Z) : Q :=
  add (inject_Z startTs)
      (mul (mul (mul (mul (inject_Z day) 24) 60) 60) 1000).

Variable random : nat -> Q.

Fixpoint sessionLoop (cfg : Config) (n : nat) (ts : Q) (ix : nat)
    (acc : list Q) : list Q * nat :=
  match n with
  | O => (acc, ix)
  | S n' =>
      let acc' := (acc ++ [ts])%list in
      let ts' := add ts (rand (random ix) (hoursMs (minBetweenHours cfg))
                                          (hoursMs (maxBetweenHours cfg))) in
      sessionLoop cfg n' ts' (S ix) acc'
  end.

(** The first cursor of day [day]:
    [ts = startTs + day * 24 * 60 * 60 * 1000; ts += rand(0, 6 h)]. *)
Definition dayStart (startTs : Z) (day : Z) (r : Q) : Q :=
  add (dayBase startTs day) (rand r 0 (hoursMs 6)).

Fixpoint dayLoop (cfg : Config) (startTs : Z) (n : nat) (day : Z) (ix : nat)
    (acc : list Q) : list Q * nat :=
  match n with
  | O => (acc, ix)
  | S n' =>
      let sessionCount :=
        randInt (random ix) (minSessionsPerDay cfg) (maxSessionsPerDay cfg) in
      let ts := dayStart startTs day (random (S ix)) in
      let '(acc', ix') :=
        sessionLoop cfg (Z.to_nat sessionCount) ts (S (S ix)) acc in
      dayLoop cfg startTs n' (day + 1) ix' acc'
  end.

Definition generateScheduleWith (cfg : Config) (startTs : Z) (ix : nat)
    : list Q * nat :=
  dayLoop cfg startTs (Z.to_nat (days cfg)) 0 ix [].

Definition generateSchedule (startTs : Z) (ix : nat) : list Q * nat :=
  generateScheduleWith CONFIG startTs ix.

(** The schedule day by day, with the same draws as [dayLoop]. *)
Fixpoint dayBlocks (cfg : Config) (startTs : Z) (n : nat) (day : Z)
    (ix : nat) : list (list Q) :=
  match n with
  | O => []
  | S n' =>
      let sessionCount :=
        randInt (random ix) (minSessionsPerDay cfg) (maxSessionsPerDay cfg) in
      let ts := dayStart startTs day (random (S ix)) in
      let '(blk, ix') :=
        sessionLoop cfg (Z.to_nat sessionCount) ts (S (S ix)) [] in
      blk :: dayBlocks cfg startTs n' (day + 1) ix'
  end.

(** The smallest and the largest gap the inner loop can add, in
    milliseconds as the code computes them. *)
Definition minGapMs (cfg : Config) : Q := hoursMs (minBetweenHours cfg).

Definition maxGapMs (cfg : Config) : Q :=
  randTop (hoursMs (minBetweenHours cfg)) (hoursMs (maxBetweenHours cfg)).

(** Each entry after the first is the one before plus a gap between [lo]
    and [hi], the sum rounded. *)
Definition GapsWithin (lo hi : Q) (blk : list Q) : Prop :=
  forall i x y,
    nth_error blk i = Some x -> nth_error blk (S i) = Some y ->
    exists gap : Q, (lo <= gap /\ gap <= hi)%Q /\ y = add x gap.

End Arith.

End Double.

(** ** Concrete environments *)

(** Digits of the fractional part [f] of a number, at most [fuel] of them. *)
Fixpoint fracDigits (fuel : nat) (f : Q) : string :=
  match fuel with
  | O => ""
  | S k =>
      if Qeq_bool f 0 then ""
      else
        let d := Qfloor (f * 10)%Q in
        JS.showZ d ++ fracDigits k (f * 10 - inject_Z d)%Q
  end.

(** Decimal rendering of a non-negative number: what a template literal
    prints for an integer or for a short decimal fraction. *)
Definition showNumber (q : Q) : string :=
  let n := Qfloor q in
  let f := (q - inject_Z n)%Q in
  if Qeq_bool f 0 then JS.showZ n else JS.showZ n ++ "." ++ fracDigits 20 f.

(** [Math.random()] returning one half at every call. *)
Definition randomHalf : nat -> Q := fun _ => 1 # 2.

(** Script injection that always succeeds. *)
Definition injectsOk : Z -> option string := fun _ => None.

(** Script injection that always throws. *)
Definition injectsFail : Z -> option string := fun _ => Some "Error: no tab".

(** ** Auxiliary notions used in the statements *)

(** A sequence of appends, oldest first. *)
Definition appendAll (es : list LogEntry) (w : World) : World :=
  fold_left (fun acc e => appendLog e acc) es w.

(** A list of numbers never goes down. *)
Definition NonDecreasing (l : list Q) : Prop :=
  forall i j x y,
    (i <= j)%nat -> nth_error l i = Some x -> nth_error l j = Some y ->
    (x <= y)%Q.

(** Every draw of the random source lies in [[0, 1)]. *)
Definition UnitInterval (random : nat -> Q) : Prop :=
  forall i, (0 <= random i /\ random i < 1)%Q.

(** The policy fields [generateSchedule] reads, within their ranges. *)
Definition ValidPolicy (cfg : Config) : Prop :=
  0 <= days cfg /\
  minSessionsPerDay cfg <= maxSessionsPerDay cfg /\
  (minBetweenHours cfg <= maxBetweenHours cfg)%Q.

(** The schedule day by day: the entries the inner loop pushes for each
    iteration of the outer loop, with the same draws as [dayLoop]. *)
Fixpoint dayBlocks (random : nat -> Q) (cfg : Config) (startTs : Z)
    (n : nat) (day : Z) (ix : nat) : list (list Q) :=
  match n with
  | O => []
  | S n' =>
      let sessionCount :=
        randInt (random ix) (minSessionsPerDay cfg) (maxSessionsPerDay cfg) in
      let ts := dayStart startTs day (random (S ix)) in
      let '(blk, ix') :=
        sessionLoop random cfg (Z.to_nat sessionCount) ts (S (S ix)) [] in
      blk :: dayBlocks random cfg startTs n' (day + 1) ix'
  end.

(** The ranges within which the generator only meets integers that are
    doubles, and no number beyond the finite doubles: a start time that
    is not negative, the end of the last day's first window, the session
    count [max + 1] and the largest gap in hours not above [2 ^ 53]. *)
Definition SafeRange (cfg : Config) (startTs : Z) : Prop :=
  0 <= startTs /\
  startTs + days cfg * dayMs + 6 * 3600000 <= maxSafe /\
  maxSessionsPerDay cfg + 1 <= maxSafe /\
  (maxBetweenHours cfg <= inject_Z maxSafe)%Q.

(** What holds of the block of one day when every operation is rounded:
    at least [min] entries, the first within six hours of the day's
    start, each further one the entry before plus a gap of the policy,
    and no entry below the one before. *)
Definition DayOk (fl : Q -> Q) (cfg : Config) (startTs : Z) (d : Z)
    (blk : list Q) : Prop :=
  minSessionsPerDay cfg <= Z.of_nat (length blk) /\
  Double.GapsWithin fl (Double.minGapMs fl cfg) (Double.maxGapMs fl cfg) blk /\
  NonDecreasing blk /\
  (forall x, nth_error blk 0 = Some x ->
     (inject_Z (startTs + d * dayMs) <= x
      /\ x <= inject_Z (startTs + d * dayMs + 6 * 3600000))%Q).

(** The identity rounds nothing. *)
Definition exact (x : Q) : Q := x.

(** Draws that fill day 0 with five sessions five hours apart and put
    the first session of day 1 at its earliest. *)
Definition randomLateDay (i : nat) : Q := if (i <? 7)%nat then 3 # 4 else 0.

(** Policies within the ranges of [ValidPolicy] whose gaps, or whose
    session counts, are negative. *)
Definition negativeGaps : Config := {|
  days := 1; minSessionsPerDay := 3; maxSessionsPerDay := 5;
  minBetweenHours := -3; maxBetweenHours := -1;
  maxWatchSeconds := 15 * 60; defaultKeywords := []; maxLogs := 50
|}.

Definition negativeCounts : Config := {|
  days := 1; minSessionsPerDay := -2; maxSessionsPerDay := -1;
  minBetweenHours := 2; maxBetweenHours := 6;
  maxWatchSeconds := 15 * 60; defaultKeywords := []; maxLogs := 50
|}.

(** Decimal digits only. *)
Fixpoint digitsOnly (s : string) : bool :=
  match s with
  | EmptyString => true
  | String c s' =>
      (48 <=? Z.of_nat (nat_of_ascii c)) && (Z.of_nat (nat_of_ascii c) <=? 57)
      && digitsOnly s'
  end.

(** No dash in a string: what holds of a printed timestamp. *)
Fixpoint noDash (s : string) : bool :=
  match s with
  | EmptyString => true
  | String c s' => negb (Ascii.eqb c "-") && noDash s'
  end.

(** The run ids the worker makes: [run-<ms>] and [immediate-<ms>]. *)
Definition WellFormedRunId (r : string) : Prop :=
  exists d, digitsOnly d = true /\ (r = "run-" ++ d \/ r = "immediate-" ++ d).

(** A [startSession] message carries a defined, non-empty keyword. *)
Definition GoodKeyword (p : StartSession) : Prop :=
  exists k, paramKeyword p = Some k /\ k <> "".

(** Every [startSession] message sent so far, and every one waiting in a
    timer, carries a defined, non-empty keyword. *)
Definition KeywordsDefined (w : World) : Prop :=
  (forall t p, In (t, p) (sent w) -> GoodKeyword p) /\
  (forall d t p kws rid,
     In {| delay := d; callback := CbSendStart t p kws rid |} (timeouts w) ->
     GoodKeyword p).

(** The formatted entry the first listener builds for a result. *)
Definition formattedEntry (result : SessionResult) (t : Z) : LogEntry :=
  if success result then
    Formatted "success"
      ("Session completed: "
       ++ JS.showZ (match videosWatched result with
                    | Some 0 | None => 1
                    | Some n => n
                    end)
       ++ " videos watched")
      ("Keyword: " ++ quote ++ JS.showStr (keyword result) ++ quote
       ++ ", Watch time: "
       ++ JS.showZ (JS.round (match watchSeconds result with
                              | Some x => x
                              | None => 0%Q
                              end))
       ++ "s")
      t
  else
    Formatted "error" "Session failed"
      (if JS.truthyStr (error result) then JS.showStr (error result)
       else "Unknown error")
      t.

(** The world after [start] at time 1000 with the default keywords. *)
Definition startedWorld : World :=
  run randomHalf showNumber injectsOk
      [EvMessage (MsgStart None) None] (emptyWorld 1000).

(** A scheduled run started at time 1000 and, while it is active, an
    immediate run started over it at time 2000. *)
Definition mixedWorld : World :=
  run randomHalf showNumber injectsOk
      [EvMessage (MsgStart None) None; EvClock 2000;
       EvMessage (MsgStartImmediate (Some ["x"])) None]
      (emptyWorld 1000).

(** What a log entry holds of a result: the result itself and the two
    fields the popup reads, [l.success] and [l.error].  An entry of the
    first listener's shape has none of them. *)
Definition entryResult (e : LogEntry) : option SessionResult :=
  match e with Raw r _ _ => Some r | Formatted _ _ _ _ => None end.

Definition entrySuccess (e : LogEntry) : bool :=
  match e with Raw r _ _ => success r | Formatted _ _ _ _ => false end.

Definition entryError (e : LogEntry) : option string :=
  match e with Raw r _ _ => error r | Formatted _ _ _ _ => None end.

(** What stays of the first listener once the dispatch is over: its reply
    to a message that has a result. *)
Definition firstReply (m : Message) (w : World) : World :=
  match m with
  | MsgSessionResult (Some _) => respond "received" w
  | _ => w
  end.

(** The timers after the third listener has handled a result. *)
Definition timeoutsAfterResult (random : nat -> Q) (w : World)
    : list Timeout :=
  match keywords (store w) with
  | Some kws =>
      if JS.truthyBool (immediateMode (store w))
         && JS.truthyBool (isRunning (store w))
      then
        (timeouts w
         ++ [{| delay := inject_Z (Qfloor (random (rngIx w) * 10000)%Q + 5000);
                callback := CbTrigger kws (runId (store w)) |}])%list
      else timeouts w
  | None => timeouts w
  end.

(** A successful result, as [runSession] reports it. *)
Definition okResult (kw : string) (from : option string) : SessionResult := {|
  success := true; keyword := Some kw; watchSeconds := Some 120%Q;
  videosWatched := Some 3; error := None; sentBy := from
|}.

(** A second immediate run [immediate-2000] is active; the session of
    the first run [immediate-1000], dispatched to tab 1 before the stop,
    has not reported yet. *)
Definition secondImmediateRun : World :=
  run randomHalf showNumber injectsOk
      [EvMessage (MsgStartImmediate (Some ["x"])) None; EvTimeout 0;
       EvMessage MsgStop None; EvClock 2000;
       EvMessage (MsgStartImmediate (Some ["y"])) None]
      (emptyWorld 1000).

(** An immediate run up to its second result: the first session is
    dispatched and reports, its response callback runs, the armed
    trigger dispatches the second session, which reports too. *)
Definition twoResults : list Event :=
  [EvMessage (MsgStartImmediate (Some ["x"])) None;
   EvTimeout 0;
   EvMessage (MsgSessionResult (Some (okResult "x" None))) (Some 1);
   EvResponse 0;
   EvTimeout 0;
   EvTimeout 1;
   EvMessage (MsgSessionResult (Some (okResult "x" None))) (Some 2)].

(** The timers left pending fire after the stop. *)
Definition afterStop : list Event :=
  [EvTimeout 0; EvTimeout 1; EvTimeout 0; EvTimeout 0].

Definition isTrigger (t : Timeout) : bool :=
  match callback t with CbTrigger _ _ => true | CbSendStart _ _ _ _ => false end.

(** Fifty-two entries, told apart by their time stamps. *)
Definition manyEntries : list LogEntry :=
  map (fun i => Formatted "success" "" "" (Z.of_nat i)) (seq 0 52).

(** The alarm table after one alarm per schedule entry has been
    created for run [rid]. *)
Definition sessionAlarms (numberToString : Q -> string) (rid : string)
    (sched : list Q) (m : gmap string Q) : gmap string Q :=
  fold_left (fun acc ts => <[sessionAlarmName numberToString rid ts := ts]> acc)
            sched m.

(** The time of the [end-] alarm of a run started at [start]. *)
Definition endAlarmTime (start : Z) : Q :=
  inject_Z (start + days CONFIG * 24 * 60 * 60 * 1000 + 60 * 1000).

(** The log of [w'] is that of [w], or at most [n] new entries on top of
    it, cut to the cap. *)
Definition LogKept (n : nat) (w w' : World) : Prop :=
  logsOf w' = logsOf w
  \/ exists new,
       (length new <= n)%nat
       /\ logsOf w' = firstn (maxLogs CONFIG) (new ++ logsOf w).

(** What the store says about the run, taken together. *)
Definition RunStateOk (w : World) : Prop :=
  0 <= now w
  /\ JS.truthyBool (isRunning (store w)) = JS.truthyStr (runId (store w))
  /\ (forall r, runId (store w) = Some r -> WellFormedRunId r)
  /\ (JS.truthyBool (isRunning (store w)) = false ->
      currentRun (store w) = None).

(** The run fields of two stores agree. *)
Definition SameRun (s s' : Store) : Prop :=
  isRunning s' = isRunning s /\ runId s' = runId s
  /\ currentRun s' = currentRun s.

(** A handler that leaves the clock and the run fields alone. *)
Definition Frame (w w' : World) : Prop :=
  now w' = now w /\ SameRun (store w) (store w').

(** ** Text helpers of the popup and of the keyword generator *)

Module Text.

(** [s.includes(sub)] *)
Definition includes (s sub : string) : bool :=
  match String.index 0 sub s with Some _ => true | None => false end.

(** [filter(Boolean)] on strings keeps the non-empty ones. *)
Definition nonEmpty (s : string) : bool := negb (String.eqb s "").

Section Trim.

(** The white space [trim()] removes, as a class of characters. *)
Variable isSpace : ascii -> bool.

Fixpoint trimStart (s : string) : string :=
  match s with
  | EmptyString => EmptyString
  | String c s' => if isSpace c then trimStart s' else s
  end.

Fixpoint trimEnd (s : string) : string :=
  match s with
  | EmptyString => EmptyString
  | String c s' =>
      let t := trimEnd s' in
      if isSpace c && String.eqb t "" then EmptyString else String c t
  end.

(** [s.trim()] *)
Definition trim (s : string) : string := trimEnd (trimStart s).

End Trim.

(** [s.split(",")]: every separator character splits. *)
Fixpoint splitChar (sep : ascii) (s : string) : list string :=
  match s with
  | EmptyString => [EmptyString]
  | String c s' =>
      if Ascii.eqb c sep then EmptyString :: splitChar sep s'
      else
        match splitChar sep s' with
        | h :: t => String c h :: t
        | [] => [String c EmptyString]
        end
  end.

(** [s.split(/[...]+/)] for a character class: a run of separators
    splits once; [inSep] says that the previous character was one. *)
Fixpoint splitRuns (isSep : ascii -> bool) (inSep : bool) (s : string)
    : list string :=
  match s with
  | EmptyString => [EmptyString]
  | String c s' =>
      if isSep c then
        if inSep then splitRuns isSep true s'
        else EmptyString :: splitRuns isSep true s'
      else
        match splitRuns isSep false s' with
        | h :: t => String c h :: t
        | [] => [String c EmptyString]
        end
  end.

(** [[...new Set(items)]]: first occurrences, in order. *)
Fixpoint uniqueFrom (seen items : list string) : list string :=
  match items with
  | [] => []
  | x :: rest =>
      if existsb (String.eqb x) seen then uniqueFrom seen rest
      else x :: uniqueFrom (x :: seen) rest
  end.

Definition unique (items : list string) : list string := uniqueFrom [] items.

(** Tab, line feed, vertical tab, form feed, carriage return, space. *)
Definition asciiSpace (c : ascii) : bool :=
  let n := nat_of_ascii c in
  ((9 <=? n) && (n <=? 13) || (n =? 32))%nat.

End Text.

(** The tail of [callGeminiForKeywords], from [let items = text.split]
    on: split at commas and line breaks, trim, drop the empty items,
    keep the first twelve distinct ones. *)
Definition parseKeywords (isSpace : ascii -> bool) (text : string)
    : list string :=
  let isSep c := Ascii.eqb c "010" || Ascii.eqb c "," in
  let items :=
    List.filter Text.nonEmpty
      (map (Text.trim isSpace) (Text.splitRuns isSep false text)) in
  JS.take 12 (Text.unique items).

(** ** Popup ([src/popup.js]) *)

Module Popup.

Definition DEFAULT : list string :=
  ["popular tech news"; "trending music"; "funny cat videos"].

(** The keywords the start button reads out of the text area. *)
Definition startKeywords (isSpace : ascii -> bool) (value : string)
    : list string :=
  let raw := Text.trim isSpace value in
  if Text.nonEmpty raw then
    JS.take 20
      (List.filter Text.nonEmpty
         (map (Text.trim isSpace) (Text.splitChar "," raw)))
  else DEFAULT.

(** A click on the start button: the keywords are saved, then the
    [start] message is sent. *)
Definition clickStart (isSpace : ascii -> bool) (value : string) : list Event :=
  let kw := startKeywords isSpace value in
  [EvPopupKeywords kw; EvMessage (MsgStart (Some kw)) None].

Section Render.

(** [new Date(ts).toLocaleString()] and [new Date().toLocaleString()]. *)
Variable toLocaleString : Z -> string.
Variable nowString : string.

Definition itemOpen : string := "<div class=" ++ quote ++ "log-item" ++ quote ++ ">".

(** [Math.round(l.watchSeconds)] inside the template. *)
Definition showRound (x : option Q) : string :=
  match x with Some q => JS.showZ (JS.round q) | None => "NaN" end.

(** One log entry as the popup shows it. An entry of the first
    listener has no [ts], [success], [keyword] or [error] field. *)
Definition renderItem (l : LogEntry) : string :=
  match l with
  | Raw result ts _ =>
      let time := if ts =? 0 then nowString else toLocaleString ts in
      if success result then
        itemOpen ++ "✅ " ++ time ++ " — " ++ quote
        ++ JS.showStr (keyword result) ++ quote ++ " watched "
        ++ showRound (watchSeconds result) ++ "s</div>"
      else
        itemOpen ++ "⚠️ " ++ time ++ " — "
        ++ (if JS.truthyStr (error result) then JS.showStr (error result)
            else "failed")
        ++ "</div>"
  | Formatted _ _ _ _ =>
      itemOpen ++ "⚠️ " ++ nowString ++ " — " ++ "failed" ++ "</div>"
  end.

(** [renderLogs(logs)]: what the log pane holds afterwards. *)
Definition renderLogs (logs : list LogEntry) : string :=
  match logs with
  | [] => "No logs yet."
  | _ => String.concat "" (map renderItem (JS.take 10 logs))
  end.

End Render.

End Popup.

(** ** Content script ([src/content.js], first part) *)

Module Content.

Definition variations : list (string -> string) :=
  [fun k => k; fun k => k ++ " 2025"; fun k => "beginner " ++ k;
   fun k => k ++ " tutorial"; fun k => k ++ " best"].

(** [varyKeyword(keyword)], with the draw of its [randInt]; [None] is
    the TypeError of calling a missing entry. *)
Definition varyKeyword (r : Q) (keyword : string) : option string :=
  match JS.index variations
          (randInt r 0 (Z.of_nat (length variations) - 1)) with
  | Some fn => Some (fn keyword)
  | None => None
  end.

(** [videoEl.duration]: a finite number, or NaN, infinite or missing. *)
Inductive Duration :=
| Finite (d : Q)
| NotFinite.

(** [watchCurrentVideo(config)], the seconds it reports: [video] is the
    video element found within 8 s, if any; [maxWatch] is
    [config.maxWatchSeconds]; [r] the draw of [rand(0.3, 0.8)]. *)
Definition watchCurrentVideo (video : option Duration) (maxWatch : option Q)
    (r : Q) : Q :=
  match video with
  | None => 15%Q
  | Some dur =>
      let duration :=
        match dur with
        | Finite d => if Qle_bool d 0 then 30%Q else d
        | NotFinite => 30%Q
        end in
      let cap :=
        match maxWatch with
        | Some m => if Qeq_bool m 0 then 180%Q else m
        | None => 180%Q
        end in
      let watch := (duration * rand r (3 # 10) (8 # 10))%Q in
      if Qle_bool watch cap then watch else cap
  end.

(** An element a selector query returns. *)
Record Element := {
  href : option string;
  offsetWidth : Z;
  offsetHeight : Z
}.

(** The test [getAllVideosFromResults] puts an element to. *)
Definition isVideoLink (el : Element) : bool :=
  match href el with
  | Some h =>
      Text.nonEmpty h
      && (Text.includes h "/watch?v=" || Text.includes h "/shorts/")
      && (0 <? offsetWidth el) && (0 <? offsetHeight el)
  | None => false
  end.

(** [link.href === href] *)
Definition sameHref (a b : Element) : bool :=
  match href a, href b with
  | Some x, Some y => String.eqb x y
  | None, None => true
  | _, _ => false
  end.

(** The inner loop over the elements of one query. *)
Fixpoint collect (els videoLinks : list Element) : list Element :=
  match els with
  | [] => videoLinks
  | el :: rest =>
      if isVideoLink el && negb (existsb (sameHref el) videoLinks)
      then collect rest (videoLinks ++ [el])
      else collect rest videoLinks
  end.

(** [getAllVideosFromResults()]: [queries] holds what
    [querySelectorAll] returns for each of the six selectors, [shuffle]
    is the [sort] with the random comparator. *)
Definition getAllVideosFromResults (shuffle : list Element -> list Element)
    (queries : list (list Element)) : list Element :=
  JS.take 10 (shuffle (fold_left (fun acc els => collect els acc) queries [])).

(** The page as [runSession] meets it. *)
Record Page := {
  searchInput : bool;
  queries : list (list Element);
  videoOf : Element -> option Duration
}.

Definition selectorTimeout : string :=
  "Error: Selector timeout: input#search | input[name=" ++ quote
  ++ "search_query" ++ quote
  ++ "] | #search-input input | input[placeholder*='Search']".

Definition failed (err keyword : string) : SessionResult := {|
  success := false; keyword := Some keyword; watchSeconds := None;
  videosWatched := None; error := Some err; sentBy := None
|}.

(** The [for] loop of [runSession] over the first [n] links. *)
Fixpoint watchAll (page : Page) (maxWatch : option Q) (rWatch : nat -> Q)
    (n : nat) (i : nat) (links : list Element) (total : Q) : Q :=
  match n, links with
  | S n', link :: rest =>
      watchAll page maxWatch rWatch n' (S i) rest
        (total + watchCurrentVideo (videoOf page link) maxWatch (rWatch i))%Q
  | _, _ => total
  end.

(** [runSession({keyword, config})]. Each call of [Math.random] that
    decides something is an argument of its own: [rVary] for
    [varyKeyword], [rCount] for [randInt(3, 5)], [rWatch i] for the
    [i]-th video.  The count [randInt(3, 5)] is taken with its operations
    rounded by [fl]: a draw next to 1 is rounded up to 6 there. *)
Definition runSession (fl : Q -> Q) (shuffle : list Element -> list Element)
    (keyword : string) (maxWatch : option Q) (page : Page)
    (rVary rCount : Q) (rWatch : nat -> Q) : SessionResult :=
  match varyKeyword rVary keyword with
  | None => failed "TypeError: fn is not a function" keyword
  | Some usedKeyword =>
      if negb (searchInput page) then failed selectorTimeout keyword
      else
        let allVideoLinks := getAllVideosFromResults shuffle (queries page) in
        match allVideoLinks with
        | [] => failed "Error: No videos found in search results" keyword
        | _ =>
            let videosToWatch :=
              Z.min (Z.of_nat (length allVideoLinks))
                    (Double.randInt fl rCount 3 5) in
            {| success := true; keyword := Some usedKeyword;
               watchSeconds :=
                 Some (watchAll page maxWatch rWatch
                         (Z.to_nat videosToWatch) 0 allVideoLinks 0%Q);
               videosWatched := Some videosToWatch; error := None;
               sentBy := None |}
        end
  end.

End Content.

(** Some character of [s] is in the class [p]. *)
Fixpoint anyChar (p : ascii -> bool) (s : string) : bool :=
  match s with
  | EmptyString => false
  | String c s' => p c || anyChar p s'
  end.

(** The separators of the keyword generator: line feed and comma. *)
Definition isKeywordSep (c : ascii) : bool :=
  Ascii.eqb c "010" || Ascii.eqb c ",".

(** Links as the page holds them before the shuffle and the cut. *)
Definition collectAll (queries : list (list Content.Element))
    : list Content.Element :=
  fold_left (fun acc els => Content.collect els acc) queries [].

(** What holds of the links collected so far from the elements [src]. *)
Definition GoodLinks (src acc : list Content.Element) : Prop :=
  List.NoDup (map Content.href acc)
  /\ forall el, In el acc -> Content.isVideoLink el = true /\ In el src.

(** A result page: two visible video links, one of them found by two
    queries, and a hidden one. *)
Definition sampleQueries : list (list Content.Element) :=
  [[{| Content.href := Some "https://www.youtube.com/watch?v=a";
       Content.offsetWidth := 200; Content.offsetHeight := 20 |};
    {| Content.href := Some "https://www.youtube.com/shorts/b";
       Content.offsetWidth := 100; Content.offsetHeight := 100 |}];
   [{| Content.href := Some "https://www.youtube.com/watch?v=a";
       Content.offsetWidth := 200; Content.offsetHeight := 20 |};
    {| Content.href := Some "https://www.youtube.com/watch?v=c";
       Content.offsetWidth := 0; Content.offsetHeight := 0 |}]].

Definition samplePage : Content.Page := {|
  Content.searchInput := true;
  Content.queries := sampleQueries;
  Content.videoOf := fun _ => Some (Content.Finite 100)
|}.

(** Events of immediate mode, and alarm events. *)
Definition isStartImmediate (e : Event) : bool :=
  match e with
  | EvMessage (MsgStartImmediate _) _ => true
  | _ => false
  end.

Definition isAlarm (e : Event) : bool :=
  match e with EvAlarm _ => true | _ => false end.

(** No trace of immediate mode: no timer, no awaited response, and
    [immediateMode] not set. *)
Definition ScheduledOnly (w : World) : Prop :=
  timeouts w = [] /\ awaiting w = []
  /\ JS.truthyBool (immediateMode (store w)) = false.

(** ** Log recorder: the cap *)

Lemma firstn_app_firstn {A} (m : nat) (a b : list A) :
  firstn m (a ++ firstn m b) = firstn m (a ++ b).
Proof.
  rewrite !firstn_app, firstn_firstn.
  f_equal. f_equal. lia.
Qed.

Lemma logs_appendLogStore cfg e s :
  logs (appendLogStore cfg e s)
  = Some (firstn (maxLogs cfg)
            (e :: match logs s with Some l => l | None => [] end)).
Proof.
  unfold appendLogStore. cbn [logs].
  destruct (Nat.ltb_spec (maxLogs cfg)
              (length (e :: match logs s with Some l => l | None => [] end)))
    as [Hlt | Hge]; [reflexivity |].
  rewrite firstn_all2 by exact Hge. reflexivity.
Qed.

Lemma logsOf_appendLog e w :
  logsOf (appendLog e w) = firstn (maxLogs CONFIG) (e :: logsOf w).
Proof.
  unfold logsOf, appendLog. cbn [store withStore].
  rewrite logs_appendLogStore. reflexivity.
Qed.

Lemma logs_appendLog e w :
  logs (store (appendLog e w)) = Some (logsOf (appendLog e w)).
Proof.
  unfold logsOf, appendLog. cbn [store withStore].
  rewrite logs_appendLogStore. reflexivity.
Qed.

Lemma logsOf_appendAll es w :
  es <> [] ->
  logsOf (appendAll es w) = firstn (maxLogs CONFIG) (rev es ++ logsOf w).
Proof.
  revert w. induction es as [| e es IH]; intros w Hne; [congruence |].
  unfold appendAll. cbn [fold_left]. fold (appendAll es (appendLog e w)).
  destruct es as [| e' es'].
  - cbn [appendAll fold_left rev app]. apply logsOf_appendLog.
  - rewrite IH by discriminate.
    rewrite logsOf_appendLog.
    change (e :: logsOf w) with ([e] ++ logsOf w)%list.
    rewrite firstn_app_firstn.
    cbn [rev]. rewrite <- !app_assoc. reflexivity.
Qed.

Lemma logs_appendAll es w :
  es <> [] -> logs (store (appendAll es w)) = Some (logsOf (appendAll es w)).
Proof.
  intros Hne. destruct (exists_last Hne) as [es' [e ->]].
  unfold appendAll. rewrite fold_left_app. cbn [fold_left].
  apply logs_appendLog.
Qed.

Lemma length_logsOf_appendLog e w :
  (length (logsOf (appendLog e w)) <= maxLogs CONFIG)%nat.
Proof. rewrite logsOf_appendLog. apply firstn_le_length. Qed.

(** C8. Whatever the log held before, after [maxLogs + k] appends the
    persisted log holds exactly [maxLogs] entries: the last [maxLogs] that
    were appended, newest first; and after each single append along the
    way the log is no longer than [maxLogs]. *)
Theorem appendLog_keeps_last_maxLogs (w : World) (es : list LogEntry) (k : nat)
    (Hlen : length es = (maxLogs CONFIG + k)%nat) :
  logs (store (appendAll es w)) = Some (rev (skipn k es)) /\
  length (logsOf (appendAll es w)) = maxLogs CONFIG /\
  (forall n, (0 < n <= length es)%nat ->
     (length (logsOf (appendAll (firstn n es) w)) <= maxLogs CONFIG)%nat).
Proof.
  assert (Hne : es <> []).
  { intros ->. cbn in Hlen. lia. }
  assert (Hlogs : logsOf (appendAll es w) = rev (skipn k es)).
  { rewrite logsOf_appendAll by exact Hne.
    rewrite firstn_app.
    replace (maxLogs CONFIG - length (rev es))%nat with 0%nat
      by (rewrite length_rev; lia).
    cbn [firstn]. rewrite app_nil_r.
    rewrite <- (firstn_skipn k es) at 1.
    rewrite rev_app_distr, firstn_app.
    replace (maxLogs CONFIG - length (rev (skipn k es)))%nat with 0%nat
      by (rewrite length_rev, length_skipn; lia).
    cbn [firstn]. rewrite app_nil_r.
    apply firstn_all2. rewrite length_rev, length_skipn. lia. }
  split; [| split].
  - rewrite logs_appendAll by exact Hne. now rewrite Hlogs.
  - rewrite Hlogs, length_rev, length_skipn. lia.
  - intros n [Hpos Hle].
    destruct (firstn n es) as [| e es'] eqn:Hf.
    + apply (f_equal (@length _)) in Hf. rewrite length_firstn in Hf.
      cbn in Hf. lia.
    + rewrite logsOf_appendAll by discriminate. apply firstn_le_length.
Qed.

Lemma appendLog_keeps_last_maxLogs_witness :
  logs (store (appendAll manyEntries (emptyWorld 0)))
  = Some (rev (skipn 2 manyEntries)) /\
  length (logsOf (appendAll manyEntries (emptyWorld 0))) = 50%nat.
Proof.
  pose proof (appendLog_keeps_last_maxLogs (emptyWorld 0) manyEntries 2
                ltac:(reflexivity)) as H.
  split; [exact (proj1 H) | exact (proj1 (proj2 H))].
Defined.

(** ** Schedule generator *)

Section Schedule.

Variable random : nat -> Q.
Hypothesis random_unit : UnitInterval random.

Lemma rand_bounds (r a b : Q) :
  (0 <= r /\ r < 1)%Q -> (a <= b)%Q ->
  (a <= rand r a b /\ rand r a b <= b)%Q.
Proof.
  intros [H0 H1] Hab. unfold rand.
  assert (Hd : (0 <= b - a)%Q) by lra.
  assert (Hp : (0 <= r * (b - a))%Q) by (apply Qmult_le_0_compat; assumption).
  assert (Hq : (r * (b - a) <= 1 * (b - a))%Q).
  { apply Qmult_le_compat_r; [apply Qlt_le_weak; exact H1 | exact Hd]. }
  lra.
Qed.

Lemma rand_lt (r a b : Q) :
  (0 <= r /\ r < 1)%Q -> (a < b)%Q -> (rand r a b < b)%Q.
Proof.
  intros [H0 H1] Hab. unfold rand.
  assert (Hd : (0 < b - a)%Q) by lra.
  assert (Hq : (r * (b - a) < 1 * (b - a))%Q).
  { apply Qmult_lt_compat_r; assumption. }
  lra.
Qed.

Lemma randInt_bounds (r : Q) (lo hi : Z) :
  (0 <= r /\ r < 1)%Q -> lo <= hi -> lo <= randInt r lo hi <= hi.
Proof.
  intros Hr Hle. unfold randInt.
  assert (Hq : (inject_Z lo < inject_Z (hi + 1))%Q).
  { rewrite <- Zlt_Qlt. lia. }
  destruct (rand_bounds r (inject_Z lo) (inject_Z (hi + 1)) Hr
              (Qlt_le_weak _ _ Hq)) as [Hlo _].
  pose proof (rand_lt r (inject_Z lo) (inject_Z (hi + 1)) Hr Hq) as Hhi.
  split.
  - apply Qfloor_resp_le in Hlo. rewrite Qfloor_Z in Hlo. exact Hlo.
  - pose proof (Qfloor_le (rand r (inject_Z lo) (inject_Z (hi + 1)))) as Hf.
    assert (Hlt : (inject_Z (Qfloor (rand r (inject_Z lo) (inject_Z (hi + 1))))
                   < inject_Z (hi + 1))%Q) by (eapply Qle_lt_trans; eassumption).
    rewrite <- Zlt_Qlt in Hlt. lia.
Qed.

Lemma hourMs_pos : (0 < hourMs)%Q.
Proof. reflexivity. Qed.

(** The inner loop only appends to what it was given. *)
Lemma sessionLoop_acc cfg n ts ix acc :
  sessionLoop random cfg n ts ix acc
  = ((acc ++ fst (sessionLoop random cfg n ts ix []))%list,
     snd (sessionLoop random cfg n ts ix [])).
Proof.
  revert ts ix acc. induction n as [| n IH]; intros ts ix acc.
  - cbn. now rewrite app_nil_r.
  - cbn [sessionLoop]. rewrite IH.
    rewrite (IH _ _ ([] ++ [ts])%list). cbn [fst snd app].
    now rewrite <- app_assoc.
Qed.

Lemma sessionLoop_cons cfg n ts ix :
  fst (sessionLoop random cfg (S n) ts ix [])
  = ts :: fst (sessionLoop random cfg n
                 (ts + rand (random ix) (minBetweenHours cfg * hourMs)
                                        (maxBetweenHours cfg * hourMs))%Q
                 (S ix) []).
Proof.
  cbn [sessionLoop]. rewrite sessionLoop_acc. reflexivity.
Qed.

Lemma sessionLoop_length cfg n ts ix :
  length (fst (sessionLoop random cfg n ts ix [])) = n.
Proof.
  revert ts ix. induction n as [| n IH]; intros ts ix; [reflexivity |].
  rewrite sessionLoop_cons. cbn [length]. now rewrite IH.
Qed.

Lemma sessionLoop_head cfg n ts ix x :
  nth_error (fst (sessionLoop random cfg n ts ix [])) 0 = Some x -> x = ts.
Proof.
  destruct n as [| n]; [discriminate |].
  rewrite sessionLoop_cons. cbn. congruence.
Qed.

Lemma sessionLoop_snd cfg n ts ix acc :
  snd (sessionLoop random cfg n ts ix acc) = (ix + n)%nat.
Proof.
  revert ts ix acc. induction n as [| n IH]; intros ts ix acc.
  - cbn. lia.
  - cbn [sessionLoop]. rewrite IH. lia.
Qed.

(** The outer loop pushes the days one after the other. *)
Lemma dayLoop_blocks cfg startTs n day ix acc :
  fst (dayLoop random cfg startTs n day ix acc)
  = (acc ++ concat (dayBlocks random cfg startTs n day ix))%list.
Proof.
  revert day ix acc. induction n as [| n IH]; intros day ix acc.
  - cbn. now rewrite app_nil_r.
  - cbn [dayLoop dayBlocks].
    rewrite sessionLoop_acc.
    destruct (sessionLoop random cfg _ _ (S (S ix)) []) as [blk ix'] eqn:Hs.
    cbn [fst snd]. rewrite IH. cbn [concat]. now rewrite app_assoc.
Qed.

Lemma dayBlocks_length cfg startTs n day ix :
  length (dayBlocks random cfg startTs n day ix) = n.
Proof.
  revert day ix. induction n as [| n IH]; intros day ix; [reflexivity |].
  cbn [dayBlocks].
  destruct (sessionLoop random cfg _ _ (S (S ix)) []) as [blk ix'].
  cbn [length]. now rewrite IH.
Qed.

End Schedule.

Lemma randomHalf_unit : UnitInterval randomHalf.
Proof. intros i. unfold randomHalf. split; [discriminate | reflexivity]. Qed.

Lemma randomLateDay_unit : UnitInterval randomLateDay.
Proof.
  intros i. unfold randomLateDay.
  destruct (i <? 7)%nat; split; first [discriminate | reflexivity].
Qed.

Lemma CONFIG_valid : ValidPolicy CONFIG.
Proof. repeat split; cbn; first [lia | discriminate]. Qed.

(** C7, as stated, fails: with the shipped policy a day of five sessions
    five hours apart that starts 4.5 h into day 0 ends at 24.5 h, after
    the first session of day 1 at 24 h. *)
Lemma generateSchedule_not_sorted_across_days :
  UnitInterval randomLateDay /\ ValidPolicy CONFIG /\
  ~ NonDecreasing (fst (generateSchedule randomLateDay 0 0)).
Proof.
  split; [exact randomLateDay_unit |]. split; [exact CONFIG_valid |].
  intros Hsorted.
  specialize (Hsorted 4%nat 5%nat (90316800000 # 1024)%Q 86400000%Q).
  assert (Hle : (90316800000 # 1024 <= 86400000)%Q).
  { apply Hsorted; [lia | reflexivity | reflexivity]. }
  vm_compute in Hle. apply Hle. reflexivity.
Qed.

(** Why the amended statement asks for non-negative gaps and counts:
    with gaps between -3 h and -1 h a day goes down, and with counts
    between -2 and -1 a day has no entry at all. *)
Example negative_gaps_go_down :
  ValidPolicy negativeGaps /\
  ~ NonDecreasing (fst (generateScheduleWith randomHalf negativeGaps 0 0)).
Proof.
  split; [repeat split; cbn; first [lia | discriminate] |].
  intros Hsorted.
  specialize (Hsorted 0%nat 1%nat (21600000 # 2)%Q (14400000 # 4)%Q).
  assert (Hle : (21600000 # 2 <= 14400000 # 4)%Q).
  { apply Hsorted; [lia | reflexivity | reflexivity]. }
  vm_compute in Hle. apply Hle. reflexivity.
Qed.

Example negative_counts_give_empty_day :
  ValidPolicy negativeCounts /\
  fst (generateScheduleWith randomHalf negativeCounts 0 0) = [].
Proof.
  split; [repeat split; cbn; first [lia | discriminate] |].
  vm_compute. reflexivity.
Qed.

(** ** Schedule generator in double precision *)

Section DoubleFacts.

Variable fl : Q -> Q.
Hypothesis Hfl : Rounding fl.

Lemma fl_eq x y : (x == y)%Q -> (fl x == fl y)%Q.
Proof.
  intros H. apply Qle_antisym; apply (fl_mono fl Hfl); rewrite H; apply Qle_refl.
Qed.

Lemma fl_Z x z :
  (x == inject_Z z)%Q -> - maxSafe <= z <= maxSafe -> (fl x == inject_Z z)%Q.
Proof.
  intros Hx Hz. rewrite (fl_eq _ _ Hx). now apply (fl_int fl Hfl).
Qed.

Lemma add_Z x y a b :
  (x == inject_Z a)%Q -> (y == inject_Z b)%Q ->
  - maxSafe <= a + b <= maxSafe ->
  (Double.add fl x y == inject_Z (a + b))%Q.
Proof.
  intros Hx Hy Hs. unfold Double.add. apply fl_Z; [| exact Hs].
  rewrite Hx, Hy, inject_Z_plus. reflexivity.
Qed.

Lemma sub_Z x y a b :
  (x == inject_Z a)%Q -> (y == inject_Z b)%Q ->
  - maxSafe <= a - b <= maxSafe ->
  (Double.sub fl x y == inject_Z (a - b))%Q.
Proof.
  intros Hx Hy Hs. unfold Double.sub. apply fl_Z; [| exact Hs].
  rewrite Hx, Hy. unfold Z.sub. rewrite inject_Z_plus, inject_Z_opp.
  reflexivity.
Qed.

Lemma mul_Z x y a b :
  (x == inject_Z a)%Q -> (y == inject_Z b)%Q ->
  - maxSafe <= a * b <= maxSafe ->
  (Double.mul fl x y == inject_Z (a * b))%Q.
Proof.
  intros Hx Hy Hs. unfold Double.mul. apply fl_Z; [| exact Hs].
  rewrite Hx, Hy, inject_Z_mult. reflexivity.
Qed.

Lemma add_mono x x' y y' :
  (x <= x')%Q -> (y <= y')%Q -> (Double.add fl x y <= Double.add fl x' y')%Q.
Proof. intros H1 H2. apply (fl_mono fl Hfl). lra. Qed.

Lemma fl_0 : (fl 0 == 0)%Q.
Proof. apply (fl_int fl Hfl 0). unfold maxSafe. lia. Qed.

Lemma double_rand_lower r a b :
  (0 <= r)%Q -> (a <= b)%Q -> (fl a == a)%Q -> (a <= Double.rand fl r a b)%Q.
Proof.
  intros Hr Hab Ha. unfold Double.rand, Double.add, Double.mul, Double.sub.
  assert (Hd : (0 <= fl (b - a))%Q).
  { rewrite <- fl_0. apply (fl_mono fl Hfl). lra. }
  assert (Hp : (0 <= fl (r * fl (b - a)))%Q).
  { rewrite <- fl_0. apply (fl_mono fl Hfl).
    now apply Qmult_le_0_compat. }
  rewrite <- Ha at 1. apply (fl_mono fl Hfl). lra.
Qed.

Lemma double_rand_upper r a b :
  (0 <= r /\ r < 1)%Q -> (a <= b)%Q ->
  (Double.rand fl r a b <= Double.randTop fl a b)%Q.
Proof.
  intros [Hr0 Hr1] Hab.
  unfold Double.rand, Double.randTop, Double.add, Double.mul, Double.sub.
  assert (Hd : (0 <= fl (b - a))%Q).
  { rewrite <- fl_0. apply (fl_mono fl Hfl). lra. }
  assert (Hp : (fl (r * fl (b - a)) <= fl (b - a))%Q).
  { rewrite <- (fl_fixed fl Hfl (b - a)) at 2. apply (fl_mono fl Hfl).
    assert (H : (r * fl (b - a) <= 1 * fl (b - a))%Q).
    { apply Qmult_le_compat_r; [now apply Qlt_le_weak | exact Hd]. }
    lra. }
  apply (fl_mono fl Hfl). lra.
Qed.


Lemma randTop_Z a b l h :
  (a == inject_Z l)%Q -> (b == inject_Z h)%Q ->
  l <= h -> - maxSafe <= l -> h <= maxSafe -> h - l <= maxSafe ->
  (Double.randTop fl a b == inject_Z h)%Q.
Proof.
  intros Ha Hb Hlh Hl Hh Hd. unfold Double.randTop.
  assert (Hs : (Double.sub fl b a == inject_Z (h - l))%Q).
  { apply sub_Z; [exact Hb | exact Ha |]. unfold maxSafe in *. lia. }
  rewrite (add_Z _ _ _ _ Hs Ha) by (unfold maxSafe in *; lia).
  replace (h - l + l) with h by lia. reflexivity.
Qed.

Lemma double_randInt_bounds r lo hi :
  (0 <= r /\ r < 1)%Q -> 0 <= lo <= hi -> hi + 1 <= maxSafe ->
  lo <= Double.randInt fl r lo hi <= hi + 1.
Proof.
  intros Hr [Hlo Hle] Hsafe. unfold Double.randInt.
  assert (Hms : 0 < maxSafe) by (unfold maxSafe; lia).
  set (b := Double.add fl (inject_Z hi) 1).
  assert (Hb : (b == inject_Z (hi + 1))%Q).
  { apply add_Z; [reflexivity | reflexivity | lia]. }
  assert (Hab : (inject_Z lo <= b)%Q).
  { rewrite Hb. rewrite <- Zle_Qle. lia. }
  assert (Ha : (fl (inject_Z lo) == inject_Z lo)%Q).
  { apply (fl_int fl Hfl). lia. }
  pose proof (double_rand_lower r (inject_Z lo) b (proj1 Hr) Hab Ha) as H1.
  pose proof (double_rand_upper r (inject_Z lo) b Hr Hab) as H2.
  rewrite (randTop_Z (inject_Z lo) b lo (hi + 1)) in H2;
    [| reflexivity | exact Hb | lia ..].
  split.
  - apply Qfloor_resp_le in H1. now rewrite Qfloor_Z in H1.
  - apply Qfloor_resp_le in H2. now rewrite Qfloor_Z in H2.
Qed.

Lemma mul_mono_r x y c :
  (0 <= c)%Q -> (x <= y)%Q -> (Double.mul fl x c <= Double.mul fl y c)%Q.
Proof.
  intros Hc Hxy. apply (fl_mono fl Hfl). now apply Qmult_le_compat_r.
Qed.

Lemma hoursMs_mono h h' :
  (h <= h')%Q -> (Double.hoursMs fl h <= Double.hoursMs fl h')%Q.
Proof.
  intros H. unfold Double.hoursMs.
  repeat (apply mul_mono_r; [discriminate |]). exact H.
Qed.

Lemma hoursMs_Z h a :
  (h == inject_Z a)%Q -> 0 <= a -> a * 3600000 <= maxSafe ->
  (Double.hoursMs fl h == inject_Z (a * 3600000))%Q.
Proof.
  intros Hh Ha Hs. unfold Double.hoursMs.
  assert (Hms : 0 < maxSafe) by (unfold maxSafe; lia).
  replace (a * 3600000) with (a * 60 * 60 * 1000) by lia.
  apply mul_Z; [| reflexivity | lia].
  apply mul_Z; [| reflexivity | lia].
  apply mul_Z; [exact Hh | reflexivity | lia].
Qed.

Lemma hoursMs_nonneg h : (0 <= h)%Q -> (0 <= Double.hoursMs fl h)%Q.
Proof.
  intros H.
  assert (H0 : (Double.hoursMs fl 0 == 0)%Q).
  { apply (hoursMs_Z 0 0); [reflexivity | lia | unfold maxSafe; lia]. }
  rewrite <- H0. now apply hoursMs_mono.
Qed.

Lemma hoursMs_fixed h : (fl (Double.hoursMs fl h) == Double.hoursMs fl h)%Q.
Proof. unfold Double.hoursMs, Double.mul at 1. apply (fl_fixed fl Hfl). Qed.

Lemma dayBase_Z startTs day :
  0 <= startTs -> 0 <= day -> startTs + day * dayMs <= maxSafe ->
  (Double.dayBase fl startTs day == inject_Z (startTs + day * dayMs))%Q.
Proof.
  intros Hs Hd Hsafe. unfold Double.dayBase.
  assert (Hms : 0 < maxSafe) by (unfold maxSafe; lia).
  unfold dayMs in *.
  replace (day * (24 * 60 * 60 * 1000)) with (day * 24 * 60 * 60 * 1000)
    by lia.
  apply add_Z; [reflexivity | | lia].
  apply mul_Z; [| reflexivity | lia].
  apply mul_Z; [| reflexivity | lia].
  apply mul_Z; [| reflexivity | lia].
  apply mul_Z; [reflexivity | reflexivity | lia].
Qed.

Lemma dayStart_window startTs day r :
  (0 <= r /\ r < 1)%Q ->
  0 <= startTs -> 0 <= day ->
  startTs + day * dayMs + 6 * 3600000 <= maxSafe ->
  (inject_Z (startTs + day * dayMs) <= Double.dayStart fl startTs day r
   /\ Double.dayStart fl startTs day r
      <= inject_Z (startTs + day * dayMs + 6 * 3600000))%Q.
Proof.
  intros Hr Hs Hd Hsafe.
  assert (Hms : 0 < maxSafe) by (unfold maxSafe; lia).
  assert (Hbase : (Double.dayBase fl startTs day
                   == inject_Z (startTs + day * dayMs))%Q).
  { apply dayBase_Z; [exact Hs | exact Hd | lia]. }
  assert (H6 : (Double.hoursMs fl 6 == inject_Z (6 * 3600000))%Q).
  { apply (hoursMs_Z 6 6); [reflexivity | lia | unfold maxSafe; lia]. }
  assert (H06 : (0 <= Double.hoursMs fl 6)%Q).
  { apply hoursMs_nonneg. discriminate. }
  pose proof (double_rand_lower r 0 (Double.hoursMs fl 6) (proj1 Hr) H06 fl_0) as Hlo.
  pose proof (double_rand_upper r 0 (Double.hoursMs fl 6) Hr H06) as Hhi.
  rewrite (randTop_Z 0 (Double.hoursMs fl 6) 0 (6 * 3600000)) in Hhi;
    [| reflexivity | exact H6 | unfold maxSafe; lia ..].
  unfold Double.dayStart. split.
  - rewrite <- (fl_Z (Double.dayBase fl startTs day + 0)
                     (startTs + day * dayMs)).
    + apply (fl_mono fl Hfl). lra.
    + rewrite Hbase. lra.
    + unfold dayMs in *. lia.
  - rewrite <- (fl_Z (Double.dayBase fl startTs day
                      + inject_Z (6 * 3600000))
                     (startTs + day * dayMs + 6 * 3600000)).
    + apply (fl_mono fl Hfl). lra.
    + rewrite Hbase, <- inject_Z_plus. reflexivity.
    + unfold dayMs in *. lia.
Qed.


Variable random : nat -> Q.
Hypothesis random_unit : UnitInterval random.

(** The inner loop only appends to what it was given. *)
Lemma double_sessionLoop_acc cfg n ts ix acc :
  Double.sessionLoop fl random cfg n ts ix acc
  = ((acc ++ fst (Double.sessionLoop fl random cfg n ts ix []))%list,
     snd (Double.sessionLoop fl random cfg n ts ix [])).
Proof.
  revert ts ix acc. induction n as [| n IH]; intros ts ix acc.
  - cbn. now rewrite app_nil_r.
  - cbn [Double.sessionLoop]. rewrite IH.
    rewrite (IH _ _ ([] ++ [ts])%list). cbn [fst snd app].
    now rewrite <- app_assoc.
Qed.

Lemma double_sessionLoop_cons cfg n ts ix :
  fst (Double.sessionLoop fl random cfg (S n) ts ix [])
  = ts :: fst (Double.sessionLoop fl random cfg n
                 (Double.add fl ts
                    (Double.rand fl (random ix)
                       (Double.hoursMs fl (minBetweenHours cfg))
                       (Double.hoursMs fl (maxBetweenHours cfg))))
                 (S ix) []).
Proof.
  cbn [Double.sessionLoop]. rewrite double_sessionLoop_acc. reflexivity.
Qed.

Lemma double_sessionLoop_length cfg n ts ix :
  length (fst (Double.sessionLoop fl random cfg n ts ix [])) = n.
Proof.
  revert ts ix. induction n as [| n IH]; intros ts ix; [reflexivity |].
  rewrite double_sessionLoop_cons. cbn [length]. now rewrite IH.
Qed.

Lemma double_sessionLoop_snd cfg n ts ix acc :
  snd (Double.sessionLoop fl random cfg n ts ix acc) = (ix + n)%nat.
Proof.
  revert ts ix acc. induction n as [| n IH]; intros ts ix acc.
  - cbn. lia.
  - cbn [Double.sessionLoop]. rewrite IH. lia.
Qed.

Lemma double_sessionLoop_head cfg n ts ix x :
  nth_error (fst (Double.sessionLoop fl random cfg n ts ix [])) 0 = Some x ->
  x = ts.
Proof.
  destruct n as [| n]; [discriminate |].
  rewrite double_sessionLoop_cons. cbn. congruence.
Qed.

(** The gap the inner loop adds lies between the policy's two gaps. *)
Lemma gap_bounds cfg r :
  (0 <= r /\ r < 1)%Q ->
  (minBetweenHours cfg <= maxBetweenHours cfg)%Q ->
  (Double.minGapMs fl cfg
   <= Double.rand fl r (Double.hoursMs fl (minBetweenHours cfg))
                       (Double.hoursMs fl (maxBetweenHours cfg))
   /\ Double.rand fl r (Double.hoursMs fl (minBetweenHours cfg))
                       (Double.hoursMs fl (maxBetweenHours cfg))
      <= Double.maxGapMs fl cfg)%Q.
Proof.
  intros Hr Hgap. unfold Double.minGapMs, Double.maxGapMs.
  pose proof (hoursMs_mono _ _ Hgap) as Hab.
  split.
  - apply double_rand_lower; [exact (proj1 Hr) | exact Hab | apply hoursMs_fixed].
  - now apply double_rand_upper.
Qed.

Lemma double_sessionLoop_gaps cfg n ts ix :
  (minBetweenHours cfg <= maxBetweenHours cfg)%Q ->
  Double.GapsWithin fl (Double.minGapMs fl cfg) (Double.maxGapMs fl cfg)
    (fst (Double.sessionLoop fl random cfg n ts ix [])).
Proof.
  intros Hgap. revert ts ix.
  induction n as [| n IH]; intros ts ix i x y Hx Hy.
  - destruct i; discriminate.
  - rewrite double_sessionLoop_cons in Hx, Hy.
    destruct i as [| i].
    + cbn [nth_error] in Hx, Hy. injection Hx as <-.
      apply double_sessionLoop_head in Hy. subst y.
      eexists. split; [| reflexivity].
      exact (gap_bounds cfg (random ix) (random_unit ix) Hgap).
    + cbn [nth_error] in Hx, Hy. eapply IH; eassumption.
Qed.

(** Every entry of a day is a double, given that its first cursor is. *)
Lemma double_sessionLoop_fixed cfg n ts ix :
  (fl ts == ts)%Q ->
  forall i x,
    nth_error (fst (Double.sessionLoop fl random cfg n ts ix [])) i = Some x ->
    (fl x == x)%Q.
Proof.
  revert ts ix. induction n as [| n IH]; intros ts ix Hts i x Hx.
  - destruct i; discriminate.
  - rewrite double_sessionLoop_cons in Hx. destruct i as [| i].
    + cbn [nth_error] in Hx. injection Hx as <-. exact Hts.
    + cbn [nth_error] in Hx. eapply IH; [| exact Hx].
      unfold Double.add. apply (fl_fixed fl Hfl).
Qed.

(** Steps that never go down add up to a sequence that never goes
    down. *)
Lemma steps_nondecreasing blk :
  (forall i x y,
     nth_error blk i = Some x -> nth_error blk (S i) = Some y -> (x <= y)%Q) ->
  NonDecreasing blk.
Proof.
  intros Hstep i j. revert i.
  induction j as [| j IH]; intros i x y Hij Hx Hy.
  - assert (i = 0)%nat by lia. subst i.
    rewrite Hx in Hy. injection Hy as <-. apply Qle_refl.
  - destruct (Nat.eq_dec i (S j)) as [-> | Hne].
    + rewrite Hx in Hy. injection Hy as <-. apply Qle_refl.
    + assert (Hj : (j < length blk)%nat).
      { apply Nat.lt_le_incl, nth_error_Some. congruence. }
      destruct (nth_error blk j) as [z |] eqn:Hz;
        [| apply nth_error_None in Hz; lia].
      assert (Hxz : (x <= z)%Q)
        by (apply (IH i x z); [lia | exact Hx | reflexivity]).
      pose proof (Hstep j z y Hz Hy). lra.
Qed.

Lemma double_sessionLoop_nondecreasing cfg n ts ix :
  (fl ts == ts)%Q ->
  (0 <= minBetweenHours cfg)%Q ->
  (minBetweenHours cfg <= maxBetweenHours cfg)%Q ->
  NonDecreasing (fst (Double.sessionLoop fl random cfg n ts ix [])).
Proof.
  intros Hts Hlo Hgap. apply steps_nondecreasing. intros i x y Hx Hy.
  destruct (double_sessionLoop_gaps cfg n ts ix Hgap i x y Hx Hy)
    as (gap & [H1 _] & ->).
  pose proof (double_sessionLoop_fixed cfg n ts ix Hts i x Hx) as Hfx.
  assert (H0 : (0 <= Double.minGapMs fl cfg)%Q)
    by (apply hoursMs_nonneg; exact Hlo).
  rewrite <- Hfx at 1.
  unfold Double.add. apply (fl_mono fl Hfl). lra.
Qed.

(** The outer loop pushes the days one after the other. *)
Lemma double_dayLoop_blocks cfg startTs n day ix acc :
  fst (Double.dayLoop fl random cfg startTs n day ix acc)
  = (acc ++ concat (Double.dayBlocks fl random cfg startTs n day ix))%list.
Proof.
  revert day ix acc. induction n as [| n IH]; intros day ix acc.
  - cbn. now rewrite app_nil_r.
  - cbn [Double.dayLoop Double.dayBlocks].
    rewrite double_sessionLoop_acc.
    destruct (Double.sessionLoop fl random cfg _ _ (S (S ix)) [])
      as [blk ix'] eqn:Hs.
    cbn [fst snd]. rewrite IH. cbn [concat]. now rewrite app_assoc.
Qed.

Lemma double_dayBlocks_length cfg startTs n day ix :
  length (Double.dayBlocks fl random cfg startTs n day ix) = n.
Proof.
  revert day ix. induction n as [| n IH]; intros day ix; [reflexivity |].
  cbn [Double.dayBlocks].
  destruct (Double.sessionLoop fl random cfg _ _ (S (S ix)) []) as [blk ix'].
  cbn [length]. now rewrite IH.
Qed.

Lemma double_dayLoop_snd cfg startTs n day ix acc :
  snd (Double.dayLoop fl random cfg startTs n day ix acc)
  = (ix + 2 * n
     + length (concat (Double.dayBlocks fl random cfg startTs n day ix)))%nat.
Proof.
  revert day ix acc. induction n as [| n IH]; intros day ix acc.
  - cbn. lia.
  - cbn [Double.dayLoop Double.dayBlocks].
    rewrite double_sessionLoop_acc.
    pose proof (double_sessionLoop_snd cfg
                  (Z.to_nat (Double.randInt fl (random ix)
                               (minSessionsPerDay cfg)
                               (maxSessionsPerDay cfg)))
                  (Double.dayStart fl startTs day (random (S ix)))
                  (S (S ix)) [])
      as Hsnd.
    pose proof (double_sessionLoop_length cfg
                  (Z.to_nat (Double.randInt fl (random ix)
                               (minSessionsPerDay cfg)
                               (maxSessionsPerDay cfg)))
                  (Double.dayStart fl startTs day (random (S ix)))
                  (S (S ix)))
      as Hlen.
    destruct (Double.sessionLoop fl random cfg _ _ (S (S ix)) [])
      as [blk ix'].
    cbn [fst snd] in *. rewrite IH. cbn [concat].
    rewrite length_app. lia.
Qed.

(** The number of entries of each day. *)
Lemma double_dayBlocks_count cfg startTs n day ix d blk :
  0 <= minSessionsPerDay cfg <= maxSessionsPerDay cfg ->
  maxSessionsPerDay cfg + 1 <= maxSafe ->
  nth_error (Double.dayBlocks fl random cfg startTs n day ix) d = Some blk ->
  minSessionsPerDay cfg <= Z.of_nat (length blk) <= maxSessionsPerDay cfg + 1.
Proof.
  intros Hcount Hsafe.
  revert day ix d blk. induction n as [| n IH]; intros day ix d blk Hnth.
  - destruct d; discriminate.
  - cbn [Double.dayBlocks] in Hnth.
    pose proof (double_randInt_bounds (random ix) _ _ (random_unit ix) Hcount Hsafe)
      as Hc.
    pose proof (double_sessionLoop_length cfg
                  (Z.to_nat (Double.randInt fl (random ix)
                               (minSessionsPerDay cfg)
                               (maxSessionsPerDay cfg)))
                  (Double.dayStart fl startTs day (random (S ix)))
                  (S (S ix)))
      as Hlen.
    destruct (Double.sessionLoop fl random cfg _ _ (S (S ix)) []) as [b ix'].
    cbn [fst] in Hlen.
    destruct d as [| d].
    + cbn [nth_error] in Hnth. injection Hnth as <-. lia.
    + cbn [nth_error] in Hnth. eapply IH; eassumption.
Qed.

Lemma double_day_block_ok cfg startTs day ix :
  ValidPolicy cfg ->
  0 <= minSessionsPerDay cfg ->
  (0 <= minBetweenHours cfg)%Q ->
  0 <= startTs -> 0 <= day ->
  startTs + day * dayMs + 6 * 3600000 <= maxSafe ->
  maxSessionsPerDay cfg + 1 <= maxSafe ->
  DayOk fl cfg startTs day
    (fst (Double.sessionLoop fl random cfg
            (Z.to_nat (Double.randInt fl (random ix) (minSessionsPerDay cfg)
                                      (maxSessionsPerDay cfg)))
            (Double.dayStart fl startTs day (random (S ix))) (S (S ix)) [])).
Proof.
  intros (Hdays & Hcount & Hgap) Hmin Hlo Hs Hd Hsafe Hmax.
  pose proof (double_randInt_bounds (random ix) _ _ (random_unit ix)
                (conj Hmin Hcount) Hmax) as Hc.
  unfold DayOk. rewrite double_sessionLoop_length.
  split; [lia |]. split; [now apply double_sessionLoop_gaps |]. split.
  - apply double_sessionLoop_nondecreasing; [| exact Hlo | exact Hgap].
    unfold Double.dayStart, Double.add. apply (fl_fixed fl Hfl).
  - intros x Hx. apply double_sessionLoop_head in Hx. subst x.
    now apply dayStart_window.
Qed.

Lemma double_dayBlocks_ok cfg startTs n day ix d blk :
  ValidPolicy cfg ->
  0 <= minSessionsPerDay cfg ->
  (0 <= minBetweenHours cfg)%Q ->
  0 <= startTs -> 0 <= day ->
  startTs + (day + Z.of_nat n) * dayMs + 6 * 3600000 <= maxSafe ->
  maxSessionsPerDay cfg + 1 <= maxSafe ->
  nth_error (Double.dayBlocks fl random cfg startTs n day ix) d = Some blk ->
  DayOk fl cfg startTs (day + Z.of_nat d) blk.
Proof.
  intros Hvalid Hmin Hlo Hs.
  revert day ix d blk.
  induction n as [| n IH]; intros day ix d blk Hd Hsafe Hmax Hnth.
  - destruct d; discriminate.
  - cbn [Double.dayBlocks] in Hnth.
    assert (Hday : startTs + day * dayMs + 6 * 3600000 <= maxSafe).
    { unfold dayMs in *. lia. }
    pose proof (double_day_block_ok cfg startTs day ix Hvalid Hmin Hlo Hs Hd
                  Hday Hmax) as Hok.
    destruct (Double.sessionLoop fl random cfg _ _ (S (S ix)) []) as [b ix'].
    cbn [fst] in Hok.
    destruct d as [| d].
    + cbn [nth_error] in Hnth. injection Hnth as <-.
      replace (day + Z.of_nat 0) with day by lia. exact Hok.
    + cbn [nth_error] in Hnth.
      replace (day + Z.of_nat (S d)) with (day + 1 + Z.of_nat d) by lia.
      eapply IH; [lia | | exact Hmax | exact Hnth].
      unfold dayMs in *. lia.
Qed.

(** For a policy whose hours are whole numbers the two gaps are the
    hours in milliseconds. *)
Lemma gapMs_whole_hours cfg a b :
  (minBetweenHours cfg == inject_Z a)%Q ->
  (maxBetweenHours cfg == inject_Z b)%Q ->
  0 <= a <= b -> b * 3600000 <= maxSafe ->
  (Double.minGapMs fl cfg == inject_Z (a * 3600000))%Q /\
  (Double.maxGapMs fl cfg == inject_Z (b * 3600000))%Q.
Proof.
  intros Ha Hb Hab Hsafe.
  assert (Hms : 0 < maxSafe) by (unfold maxSafe; lia).
  assert (H1 : (Double.hoursMs fl (minBetweenHours cfg)
                == inject_Z (a * 3600000))%Q).
  { apply hoursMs_Z; [exact Ha | lia | lia]. }
  assert (H2 : (Double.hoursMs fl (maxBetweenHours cfg)
                == inject_Z (b * 3600000))%Q).
  { apply hoursMs_Z; [exact Hb | lia | lia]. }
  split; [exact H1 |].
  unfold Double.maxGapMs.
  apply (randTop_Z _ _ (a * 3600000) (b * 3600000)); [exact H1 | exact H2 | lia ..].
Qed.

(** From an upper bound of the first entry of a day on, the [i]-th entry
    is at most [i] largest gaps later. *)
Lemma double_block_entry_upper lo hi hZ F blk first :
  Double.GapsWithin fl lo hi blk ->
  (hi == inject_Z hZ)%Q -> 0 <= hZ -> 0 <= F ->
  nth_error blk 0 = Some first -> (first <= inject_Z F)%Q ->
  forall i x, nth_error blk i = Some x ->
    F + Z.of_nat i * hZ <= maxSafe ->
    (x <= inject_Z (F + Z.of_nat i * hZ))%Q.
Proof.
  intros Hgaps Hhi HhZ HF Hfirst Hle i.
  assert (Hms : 0 < maxSafe) by (unfold maxSafe; lia).
  induction i as [| i IH]; intros x Hx Hsafe.
  - rewrite Hfirst in Hx. injection Hx as <-.
    replace (F + Z.of_nat 0 * hZ) with F by lia. exact Hle.
  - assert (Hi : (i < length blk)%nat).
    { apply Nat.lt_le_incl, nth_error_Some. congruence. }
    destruct (nth_error blk i) as [z |] eqn:Hz;
      [| apply nth_error_None in Hz; lia].
    assert (Hzle : (z <= inject_Z (F + Z.of_nat i * hZ))%Q).
    { apply (IH z eq_refl). nia. }
    destruct (Hgaps i z x Hz Hx) as (gap & [_ Hg] & ->).
    rewrite <- (fl_Z (inject_Z (F + Z.of_nat i * hZ) + inject_Z hZ)
                     (F + Z.of_nat (S i) * hZ)).
    + unfold Double.add. apply (fl_mono fl Hfl). rewrite Hhi in Hg. lra.
    + rewrite <- inject_Z_plus. apply inject_Z_injective. lia.
    + nia.
Qed.

End DoubleFacts.

Lemma Rounding_exact : Rounding exact.
Proof.
  split; unfold exact.
  - intros x y H. exact H.
  - intros x. reflexivity.
  - intros z _. reflexivity.
Qed.

(** Where the bound [max + 1] comes from: on the machine's doubles the
    draw next to 1 makes [randInt(3, 5)] floor the number 6, while
    [randInt(0, 4)] stays below 5 at the same draw. *)
Module Binary64Facts.

Import PrimFloat.

Example randInt_reaches_max_plus_one :
  (0 <=? Binary64.lastDraw)%float = true /\
  (Binary64.lastDraw <? 1)%float = true /\
  (Binary64.randIntArg Binary64.lastDraw 3 5 =? 6)%float = true /\
  (Binary64.randIntArg Binary64.lastDraw 0 4 <? 5)%float = true.
Proof. vm_compute. repeat split. Qed.

End Binary64Facts.

(** *** Without rounding *)

Section Exact.

Variable random : nat -> Q.

Lemma rand_comp r a a' b b' :
  (a == a')%Q -> (b == b')%Q -> (rand r a b == rand r a' b')%Q.
Proof. intros Ha Hb. unfold rand. now rewrite Ha, Hb. Qed.

Lemma exact_rand r a b : Double.rand exact r a b = rand r a b.
Proof. reflexivity. Qed.

Lemma exact_randInt r lo hi : Double.randInt exact r lo hi = randInt r lo hi.
Proof.
  unfold Double.randInt, randInt. rewrite exact_rand.
  apply Qfloor_comp, rand_comp; [reflexivity |].
  unfold Double.add, exact. rewrite inject_Z_plus. reflexivity.
Qed.

Lemma exact_hoursMs h : (Double.hoursMs exact h == h * hourMs)%Q.
Proof.
  unfold Double.hoursMs, Double.mul, exact, hourMs.
  change (inject_Z (60 * 60 * 1000)) with 3600000%Q. ring.
Qed.

Lemma exact_dayStart startTs day r :
  (Double.dayStart exact startTs day r == dayStart startTs day r)%Q.
Proof.
  unfold Double.dayStart, dayStart, Double.dayBase, Double.add, Double.mul.
  rewrite exact_rand. unfold exact.
  rewrite (rand_comp r 0 0 _ (6 * hourMs)) by
    (try reflexivity; apply (exact_hoursMs 6)).
  rewrite inject_Z_plus, inject_Z_mult. unfold dayMs.
  change (inject_Z (24 * 60 * 60 * 1000)) with 86400000%Q. ring.
Qed.

Lemma exact_sessionLoop cfg n ts ts' ix :
  (ts == ts')%Q ->
  Forall2 Qeq (fst (Double.sessionLoop exact random cfg n ts ix []))
              (fst (sessionLoop random cfg n ts' ix [])).
Proof.
  revert ts ts' ix. induction n as [| n IH]; intros ts ts' ix Hts.
  - constructor.
  - rewrite double_sessionLoop_cons, sessionLoop_cons.
    constructor; [exact Hts |]. apply IH.
    unfold Double.add. rewrite exact_rand. unfold exact at 1.
    rewrite Hts.
    now rewrite (rand_comp _ _ _ _ _ (exact_hoursMs (minBetweenHours cfg))
                   (exact_hoursMs (maxBetweenHours cfg))).
Qed.

Lemma exact_dayBlocks cfg startTs n day ix :
  Forall2 (Forall2 Qeq)
    (Double.dayBlocks exact random cfg startTs n day ix)
    (dayBlocks random cfg startTs n day ix).
Proof.
  revert day ix. induction n as [| n IH]; intros day ix; [constructor |].
  cbn [Double.dayBlocks dayBlocks]. rewrite exact_randInt.
  pose proof (exact_sessionLoop cfg
                (Z.to_nat (randInt (random ix) (minSessionsPerDay cfg)
                                   (maxSessionsPerDay cfg)))
                _ _ (S (S ix)) (exact_dayStart startTs day (random (S ix))))
    as Hblk.
  pose proof (double_sessionLoop_snd exact random cfg
                (Z.to_nat (randInt (random ix) (minSessionsPerDay cfg)
                                   (maxSessionsPerDay cfg)))
                (Double.dayStart exact startTs day (random (S ix)))
                (S (S ix)) []) as H1.
  pose proof (sessionLoop_snd random cfg
                (Z.to_nat (randInt (random ix) (minSessionsPerDay cfg)
                                   (maxSessionsPerDay cfg)))
                (dayStart startTs day (random (S ix)))
                (S (S ix)) []) as H2.
  destruct (Double.sessionLoop exact random cfg _ _ (S (S ix)) [])
    as [b1 i1].
  destruct (sessionLoop random cfg _ _ (S (S ix)) []) as [b2 i2].
  cbn [fst snd] in *. subst i1 i2. constructor; [exact Hblk | apply IH].
Qed.

Lemma Forall2_concat_Qeq (l1 l2 : list (list Q)) :
  Forall2 (Forall2 Qeq) l1 l2 -> Forall2 Qeq (concat l1) (concat l2).
Proof.
  induction 1 as [| b1 b2 r1 r2 Hb _ IH]; [constructor |].
  cbn [concat]. now apply Forall2_app.
Qed.

End Exact.

(** Without rounding the generator is the one the worker's model uses:
    the same number of entries, equal one by one. *)
Lemma generateSchedule_exact (random : nat -> Q) (cfg : Config)
    (startTs : Z) (ix : nat) :
  Forall2 Qeq (fst (Double.generateScheduleWith exact random cfg startTs ix))
              (fst (generateScheduleWith random cfg startTs ix)).
Proof.
  unfold Double.generateScheduleWith, generateScheduleWith.
  rewrite double_dayLoop_blocks, dayLoop_blocks. cbn [app].
  apply Forall2_concat_Qeq, exact_dayBlocks.
Qed.

Lemma Qle_inject_Z_le x y a b :
  (x == inject_Z a)%Q -> (y == inject_Z b)%Q -> (x <= y)%Q -> a <= b.
Proof. intros Hx Hy H. rewrite Hx, Hy in H. now rewrite <- Zle_Qle in H. Qed.

(** C7, amended. Every operation of the generator rounds its result to
    a double.  For draws in [[0, 1)], a policy with [0 <= min <= max]
    sessions a day, [0 <= minGap <= maxGap] hours and [days >= 0], and a
    start time and counts within the integers that doubles hold, the
    schedule is the days' blocks one after the other, one block per day;
    the block of day [d] has at least [min] entries, its first entry lies
    within six hours of [startTs + d] days, each further entry is the
    entry before plus a gap between the policy's smallest and largest
    gap, the sum rounded, and so the block never goes down.  For a policy
    whose hours are whole numbers the two gaps are [minGap] and [maxGap]
    hours in milliseconds.  Nothing is promised from one day to the
    next, and nothing on how far above [min] the count of a day goes. *)
Theorem generateSchedule_day_blocks (fl : Q -> Q) (random : nat -> Q)
    (cfg : Config) (startTs : Z) (ix : nat)
    (Hfl : Rounding fl)
    (Hrandom : UnitInterval random)
    (Hvalid : ValidPolicy cfg)
    (Hmin : 0 <= minSessionsPerDay cfg)
    (Hgap : (0 <= minBetweenHours cfg)%Q)
    (Hsafe : SafeRange cfg startTs) :
  let blocks :=
    Double.dayBlocks fl random cfg startTs (Z.to_nat (days cfg)) 0 ix in
  fst (Double.generateScheduleWith fl random cfg startTs ix) = concat blocks /\
  length blocks = Z.to_nat (days cfg) /\
  (forall d blk, nth_error blocks d = Some blk ->
     DayOk fl cfg startTs (Z.of_nat d) blk) /\
  (forall a b,
     (minBetweenHours cfg == inject_Z a)%Q ->
     (maxBetweenHours cfg == inject_Z b)%Q ->
     b * 3600000 <= maxSafe ->
     (Double.minGapMs fl cfg == inject_Z (a * 3600000))%Q /\
     (Double.maxGapMs fl cfg == inject_Z (b * 3600000))%Q).
Proof.
  cbn zeta. destruct Hsafe as (Hs & Hend & Hmax & _).
  split; [| split; [| split]].
  - unfold Double.generateScheduleWith. now rewrite double_dayLoop_blocks.
  - apply double_dayBlocks_length.
  - intros d blk Hnth.
    change (Z.of_nat d) with (0 + Z.of_nat d).
    eapply (double_dayBlocks_ok fl Hfl random Hrandom); try eassumption.
    + lia.
    + destruct Hvalid as (Hdays & _). rewrite Z2Nat.id by exact Hdays.
      exact Hend.
  - intros a b Ha Hb Hb53.
    apply gapMs_whole_hours; try assumption. split.
    + apply (Qle_inject_Z_le 0 (minBetweenHours cfg));
        [reflexivity | exact Ha | exact Hgap].
    + destruct Hvalid as (_ & _ & Hle).
      exact (Qle_inject_Z_le _ _ a b Ha Hb Hle).
Qed.

Lemma CONFIG_safe : SafeRange CONFIG 1000.
Proof.
  unfold SafeRange, maxSafe, dayMs.
  repeat split; try (cbn; lia). vm_compute. discriminate.
Qed.

Lemma generateSchedule_day_blocks_witness :
  length (fst (Double.generateSchedule exact randomHalf 1000 0)) = 28%nat /\
  length (Double.dayBlocks exact randomHalf CONFIG 1000
            (Z.to_nat (days CONFIG)) 0 0)
  = 7%nat.
Proof.
  split; [vm_compute; reflexivity |].
  exact (proj1 (proj2
    (generateSchedule_day_blocks exact randomHalf CONFIG 1000 0
       Rounding_exact randomHalf_unit CONFIG_valid
       ltac:(cbn; lia) ltac:(cbn; discriminate) CONFIG_safe))).
Defined.

(** ** Alarm names *)

Lemma append_cons (c : ascii) (p s : string) :
  String c p ++ s = String c (p ++ s).
Proof. reflexivity. Qed.

Lemma prefix_cons (c : ascii) (p s : string) :
  String.prefix (String c p) (String c s) = String.prefix p s.
Proof.
  change (String.prefix (String c p) (String c s))
    with (if ascii_dec c c then String.prefix p s else false).
  destruct (ascii_dec c c); [reflexivity | congruence].
Qed.

Lemma prefix_cons_ne (c c' : ascii) (p s : string) :
  c <> c' -> String.prefix (String c p) (String c' s) = false.
Proof.
  intros Hne.
  change (String.prefix (String c p) (String c' s))
    with (if ascii_dec c c' then String.prefix p s else false).
  destruct (ascii_dec c c'); [contradiction | reflexivity].
Qed.

Lemma append_assoc (a b c : string) : (a ++ b) ++ c = a ++ (b ++ c).
Proof.
  induction a as [| x a IH]; [reflexivity |].
  now rewrite !append_cons, IH.
Qed.

Lemma prefix_app (p s : string) : String.prefix p (p ++ s) = true.
Proof.
  induction p as [| c p IH]; [now destruct s |].
  now rewrite append_cons, prefix_cons.
Qed.

Lemma prefix_app_same (a b c : string) :
  String.prefix (a ++ b) (a ++ c) = String.prefix b c.
Proof.
  induction a as [| x a IH]; [reflexivity |].
  now rewrite !append_cons, prefix_cons.
Qed.

(** A run of digits followed by a dash is found at the front of another
    such run only when the digits are the same. *)
Lemma digits_dash_prefix (a b sfx : string) :
  digitsOnly a = true -> digitsOnly b = true ->
  String.prefix (a ++ "-") (b ++ "-" ++ sfx) = true -> a = b.
Proof.
  revert b. induction a as [| c a IH]; intros [| c' b] Ha Hb Hp.
  - reflexivity.
  - change ("" ++ "-") with (String "-" "") in Hp.
    rewrite append_cons in Hp.
    destruct (ascii_dec "-" c') as [<- | Hne].
    + vm_compute in Hb. discriminate.
    + rewrite prefix_cons_ne in Hp by exact Hne. discriminate.
  - change ("" ++ "-" ++ sfx) with (String "-" sfx) in Hp.
    rewrite append_cons in Hp.
    destruct (ascii_dec c "-") as [-> | Hne].
    + vm_compute in Ha. discriminate.
    + rewrite prefix_cons_ne in Hp by exact Hne. discriminate.
  - rewrite !append_cons in Hp.
    destruct (ascii_dec c c') as [<- | Hne].
    + rewrite prefix_cons in Hp.
      cbn [digitsOnly] in Ha, Hb.
      apply andb_prop in Ha as [_ Ha]. apply andb_prop in Hb as [_ Hb].
      f_equal. now apply IH.
    + rewrite prefix_cons_ne in Hp by exact Hne. discriminate.
Qed.

(** Session alarms of one well-formed run id never carry the prefix of
    another. *)
Lemma session_prefix_same_run (r r' sfx : string) :
  WellFormedRunId r -> WellFormedRunId r' ->
  JS.startsWith ("session-" ++ r' ++ "-" ++ sfx) ("session-" ++ r ++ "-") = true ->
  r = r'.
Proof.
  intros (d & Hd & Hr) (d' & Hd' & Hr') Hp. unfold JS.startsWith in Hp.
  rewrite prefix_app_same in Hp.
  destruct Hr as [-> | ->], Hr' as [-> | ->].
  - change (("run-" ++ d) ++ "-") with ("run-" ++ (d ++ "-")) in Hp.
    change (("run-" ++ d') ++ "-" ++ sfx)
      with ("run-" ++ (d' ++ "-" ++ sfx)) in Hp.
    rewrite prefix_app_same in Hp.
    f_equal. eapply digits_dash_prefix; eassumption.
  - change ("run-" ++ d) with (String "r" ("un-" ++ d)) in Hp.
    change ("immediate-" ++ d') with (String "i" ("mmediate-" ++ d')) in Hp.
    rewrite !append_cons, prefix_cons_ne in Hp by discriminate.
    discriminate.
  - change ("run-" ++ d') with (String "r" ("un-" ++ d')) in Hp.
    change ("immediate-" ++ d) with (String "i" ("mmediate-" ++ d)) in Hp.
    rewrite !append_cons, prefix_cons_ne in Hp by discriminate.
    discriminate.
  - change (("immediate-" ++ d) ++ "-") with ("immediate-" ++ (d ++ "-")) in Hp.
    change (("immediate-" ++ d') ++ "-" ++ sfx)
      with ("immediate-" ++ (d' ++ "-" ++ sfx)) in Hp.
    rewrite prefix_app_same in Hp.
    f_equal. eapply digits_dash_prefix; eassumption.
Qed.

(** ** Run manager: stop *)

Lemma alarms_cancelRunAlarms (r name : string) (w : World) :
  alarms (cancelRunAlarms r w) !! name
  = if JS.startsWith name ("session-" ++ r ++ "-") then None
    else alarms w !! name.
Proof.
  unfold cancelRunAlarms. cbn [alarms withAlarms].
  destruct (JS.startsWith name ("session-" ++ r ++ "-")) eqn:Hp.
  - apply map_lookup_filter_None_2.
    destruct (alarms w !! name) as [x |] eqn:Hl; [right | left; reflexivity].
    intros x' _ Hfalse. cbn [fst] in Hfalse. congruence.
  - destruct (alarms w !! name) as [x |] eqn:Hl.
    + apply map_lookup_filter_Some_2; [exact Hl | exact Hp].
    + apply map_lookup_filter_None_2. left. exact Hl.
Qed.

Lemma alarms_stopBoost (w : World) (name : string) :
  alarms (stopBoost w) !! name
  = match stopRunId (store w) with
    | Some r =>
        if JS.truthyStr (Some r) && JS.startsWith name ("session-" ++ r ++ "-")
        then None else alarms w !! name
    | None => alarms w !! name
    end.
Proof.
  unfold stopBoost. cbn [alarms notify withStore].
  destruct (stopRunId (store w)) as [r |]; [| reflexivity].
  destruct (JS.truthyStr (Some r)); cbn [andb]; [| reflexivity].
  apply alarms_cancelRunAlarms.
Qed.

(** C3, as stated, fails: after [start] then [stop] the terminal alarm
    [end-run-1000], whose name embeds the active run id, is still
    registered. *)
Lemma stopBoost_keeps_end_alarm :
  stopRunId (store startedWorld) = Some "run-1000" /\
  alarms startedWorld !! "end-run-1000" = Some (inject_Z 604861000) /\
  alarms (stopBoost startedWorld) !! "end-run-1000"
  = Some (inject_Z 604861000).
Proof. vm_compute. repeat split. Qed.

(** The run id [stop] resolves is the persisted [runId] whenever the
    stored [currentRun], if there is one, is that run's. *)
Lemma stopRunId_active (s : Store) (r : string) :
  runId s = Some r ->
  (forall cr, currentRun s = Some cr -> id cr = r) ->
  stopRunId s = Some r.
Proof.
  intros Hrun Hcur. unfold stopRunId.
  destruct (currentRun s) as [cr |]; [| exact Hrun].
  rewrite (Hcur cr eq_refl).
  destruct (JS.truthyStr (Some r)); [reflexivity | exact Hrun].
Qed.

(** C3, amended. [stop] resolves the run id [r] whose alarms it cancels
    as [(store.currentRun && store.currentRun.id) || store.runId]: the id
    of the stored [currentRun], else the persisted [runId]; it is the
    persisted [runId] of the active run whenever [currentRun] is absent
    or is that run's.  With [r] resolved so, [stop] cancels every alarm
    whose name starts with [session-<r>-] and no other: each session
    alarm of [r] is gone, every alarm without that prefix is kept, among
    them every [end-] alarm (that of [r] too) and the session alarms of
    any other well-formed run id. *)
Theorem stopBoost_cancels_session_alarms (w : World) (r : string)
    (Hrun : stopRunId (store w) = Some r) (Hr : r <> "") :
  (forall sfx,
     alarms (stopBoost w) !! ("session-" ++ r ++ "-" ++ sfx) = None) /\
  (forall name,
     JS.startsWith name ("session-" ++ r ++ "-") = false ->
     alarms (stopBoost w) !! name = alarms w !! name) /\
  (forall r',
     alarms (stopBoost w) !! ("end-" ++ r') = alarms w !! ("end-" ++ r')) /\
  (forall r' sfx,
     WellFormedRunId r -> WellFormedRunId r' -> r' <> r ->
     alarms (stopBoost w) !! ("session-" ++ r' ++ "-" ++ sfx)
     = alarms w !! ("session-" ++ r' ++ "-" ++ sfx)) /\
  (forall r0,
     runId (store w) = Some r0 ->
     (forall cr, currentRun (store w) = Some cr -> id cr = r0) ->
     r = r0).
Proof.
  assert (Htruthy : JS.truthyStr (Some r) = true).
  { cbn. destruct (String.eqb_spec r ""); [contradiction | reflexivity]. }
  assert (Hkeep : forall name,
            JS.startsWith name ("session-" ++ r ++ "-") = false ->
            alarms (stopBoost w) !! name = alarms w !! name).
  { intros name Hp. rewrite alarms_stopBoost, Hrun, Htruthy, Hp.
    reflexivity. }
  split; [| split; [exact Hkeep | split; [| split]]].
  - intros sfx. rewrite alarms_stopBoost, Hrun, Htruthy.
    unfold JS.startsWith.
    change ("session-" ++ r ++ "-" ++ sfx)
      with ("session-" ++ (r ++ "-" ++ sfx)).
    change ("session-" ++ r ++ "-") with ("session-" ++ (r ++ "-")).
    rewrite prefix_app_same.
    replace (r ++ "-" ++ sfx) with ((r ++ "-") ++ sfx)
      by (now rewrite append_assoc).
    now rewrite prefix_app.
  - intros r'. apply Hkeep. reflexivity.
  - intros r' sfx Hwf Hwf' Hne. apply Hkeep.
    destruct (JS.startsWith ("session-" ++ r' ++ "-" ++ sfx)
                            ("session-" ++ r ++ "-")) eqn:Hp;
      [| reflexivity].
    exfalso. apply Hne. symmetry.
    eapply session_prefix_same_run; eassumption.
  - intros r0 Hr0 Hcur.
    pose proof (stopRunId_active (store w) r0 Hr0 Hcur) as H.
    congruence.
Qed.

Lemma stopBoost_cancels_session_alarms_witness :
  alarms (stopBoost startedWorld) !! "session-run-1000-10801000" = None /\
  alarms (stopBoost startedWorld) !! "end-run-1000"
  = alarms startedWorld !! "end-run-1000".
Proof.
  pose proof (stopBoost_cancels_session_alarms startedWorld "run-1000"
                ltac:(vm_compute; reflexivity) ltac:(discriminate)) as H.
  split.
  - exact (proj1 H "10801000").
  - exact (proj1 (proj2 (proj2 H)) "run-1000").
Defined.

(** The resolved id need not be the persisted one.  With an immediate run
    started over the scheduled run [run-1000], the store names
    [immediate-2000] and still holds the [currentRun] of [run-1000]:
    [stop] cancels the session alarms of [run-1000]. *)
Example stopBoost_after_mixed_starts :
  runId (store mixedWorld) = Some "immediate-2000" /\
  stopRunId (store mixedWorld) = Some "run-1000" /\
  alarms mixedWorld !! "session-run-1000-10801000" <> None /\
  alarms (stopBoost mixedWorld) !! "session-run-1000-10801000" = None /\
  alarms (stopBoost mixedWorld) !! "end-run-1000"
  = Some (inject_Z 604861000).
Proof. vm_compute. repeat split. discriminate. Qed.

(** ** Run manager: start *)

Section RunManager.

Variable random : nat -> Q.
Variable numberToString : Q -> string.
Variable injects : Z -> option string.

Lemma store_fold_createAlarm (name : Q -> string) (l : list Q) (w : World) :
  store (fold_left (fun acc ts => createAlarm (name ts) ts acc) l w) = store w.
Proof.
  revert w. induction l as [| ts l IH]; intros w; [reflexivity |].
  cbn [fold_left]. now rewrite IH.
Qed.

Lemma store_scheduleAlarmsForRun rid start kws w :
  exists cr,
    id cr = rid /\
    store (scheduleAlarmsForRun random numberToString rid start kws w)
    = storeWithCurrentRun (Some cr) (store w).
Proof.
  unfold scheduleAlarmsForRun.
  destruct (generateSchedule random start (rngIx w)) as [sched ix].
  eexists. split; [| cbn [store withStore]; rewrite store_fold_createAlarm;
                     reflexivity].
  reflexivity.
Qed.

(** A start from an idle store makes the run active under the id
    [run-<now>]. *)
Lemma startBoost_starts kws w :
  JS.truthyBool (isRunning (store w)) = false ->
  isRunning (store (startBoost random numberToString kws w)) = Some true /\
  runId (store (startBoost random numberToString kws w))
  = Some ("run-" ++ JS.showZ (now w)).
Proof.
  intros Hidle. unfold startBoost. rewrite Hidle.
  cbn [store notify createAlarm withAlarms].
  destruct (store_scheduleAlarmsForRun ("run-" ++ JS.showZ (now w)) (now w)
              (chooseKeywords kws)
              (withStore
                 {| isRunning := Some true;
                    runId := Some ("run-" ++ JS.showZ (now w));
                    daysCompleted := Some 0;
                    logs := Some (match logs (store w) with
                                  | Some l => l
                                  | None => []
                                  end);
                    keywords := Some (chooseKeywords kws);
                    startTs := Some (now w);
                    immediateMode := immediateMode (store w);
                    currentRun := currentRun (store w) |} w))
    as (cr & _ & ->).
  split; reflexivity.
Qed.

End RunManager.

(** With a run active, [startBoost] only notifies. *)
Lemma startBoost_noop random numberToString kws w :
  isRunning (store w) = Some true ->
  startBoost random numberToString kws w = notify "ytboost-already" w.
Proof. intros Hrun. unfold startBoost. now rewrite Hrun. Qed.

(** C2. While a run is active a call to [start] changes nothing: the
    store (so [isRunning], the run id, keywords and start time), the
    alarm table, the pending timers, the tabs and the messages sent are
    those of before; the one effect is the [ytboost-already]
    notification, which is how the worker reports that a run is already
    active. *)
Theorem startBoost_already_running (random : nat -> Q)
    (numberToString : Q -> string) (kws : option (list string)) (w : World)
    (Hrun : isRunning (store w) = Some true) :
  let w' := startBoost random numberToString kws w in
  store w' = store w /\
  isRunning (store w') = Some true /\
  runId (store w') = runId (store w) /\
  alarms w' = alarms w /\
  timeouts w' = timeouts w /\
  tabs w' = tabs w /\
  sent w' = sent w /\
  notifications w' = (notifications w ++ ["ytboost-already"])%list.
Proof.
  cbn zeta. rewrite startBoost_noop by exact Hrun.
  cbn [store alarms timeouts tabs sent notifications notify].
  repeat split; try reflexivity. exact Hrun.
Qed.

Lemma startBoost_already_running_witness :
  runId (store (startBoost randomHalf showNumber (Some ["z"]) startedWorld))
  = Some "run-1000" /\
  alarms (startBoost randomHalf showNumber (Some ["z"]) startedWorld)
  = alarms startedWorld.
Proof.
  pose proof (startBoost_already_running randomHalf showNumber (Some ["z"])
                startedWorld ltac:(vm_compute; reflexivity)) as H.
  cbn zeta in H. split.
  - rewrite (proj1 (proj2 (proj2 H))). vm_compute. reflexivity.
  - exact (proj1 (proj2 (proj2 (proj2 H)))).
Defined.

(** Two starts in a row, with time passing in between: the run of the
    first one stays. *)
Lemma start_twice_keeps_first_run random numberToString kws1 kws2 t w :
  JS.truthyBool (isRunning (store w)) = false ->
  let w1 := startBoost random numberToString kws1 w in
  let w2 := startBoost random numberToString kws2 (withNow t w1) in
  isRunning (store w2) = Some true /\
  runId (store w2) = Some ("run-" ++ JS.showZ (now w)) /\
  alarms w2 = alarms w1.
Proof.
  intros Hidle w1 w2.
  destruct (startBoost_starts random numberToString kws1 w Hidle)
    as [Hrun Hid].
  assert (Hrun' : isRunning (store (withNow t w1)) = Some true) by exact Hrun.
  subst w2. rewrite startBoost_noop by exact Hrun'.
  cbn [store alarms notify withNow].
  repeat split; assumption.
Qed.

(** ** Run manager: immediate start *)

Lemma store_triggerImmediateSession random injects kws rid w :
  let w' := triggerImmediateSession random injects kws rid w in
  isRunning (store w') = isRunning (store w) /\
  runId (store w') = runId (store w) /\
  keywords (store w') = keywords (store w) /\
  startTs (store w') = startTs (store w) /\
  immediateMode (store w') = immediateMode (store w).
Proof.
  cbn zeta. unfold triggerImmediateSession, draw, createTab.
  destruct (injects (nextTabId (withRngIx (S (rngIx w)) w)));
    repeat split; reflexivity.
Qed.

(** C1, what the code does. [startImmediateSessions] never reads
    [isRunning]: whatever the store held, also an active run, it is
    overwritten with a new run id [immediate-<now>], the new keywords and
    the new start time, and no [ytboost-already] notification is made. *)
Theorem startImmediateSessions_overwrites_run (random : nat -> Q)
    (injects : Z -> option string) (kws : option (list string)) (w : World) :
  let w' := startImmediateSessions random injects kws w in
  isRunning (store w') = Some true /\
  runId (store w') = Some ("immediate-" ++ JS.showZ (now w)) /\
  keywords (store w') = Some (chooseKeywords kws) /\
  startTs (store w') = Some (now w) /\
  immediateMode (store w') = Some true.
Proof.
  cbn zeta. unfold startImmediateSessions.
  match goal with
  | |- context [triggerImmediateSession random injects ?k ?r ?w0] =>
      destruct (store_triggerImmediateSession random injects k r w0)
        as (-> & -> & -> & -> & ->)
  end.
  repeat split; reflexivity.
Qed.

(** A concrete case for C1: a scheduled run [run-1000] is active when
    [startImmediate(["x"])] arrives at time 2000. *)
Example startImmediate_while_running :
  let w := withNow 2000 startedWorld in
  let w' := startImmediateSessions randomHalf injectsOk (Some ["x"]) w in
  runId (store w) = Some "run-1000" /\
  isRunning (store w) = Some true /\
  runId (store w') = Some "immediate-2000" /\
  keywords (store w') = Some ["x"] /\
  startTs (store w') = Some 2000 /\
  notifications w'
  = ["ytboost-start-run-1000"; "ytboost-immediate-immediate-2000"].
Proof. vm_compute. repeat split. Qed.

(** ** Alarm listener *)

Lemma startsWith_app (p s : string) : JS.startsWith (p ++ s) p = true.
Proof. apply prefix_app. Qed.

Lemma startsWith_end_session rid :
  JS.startsWith ("end-" ++ rid) "session-" = false.
Proof.
  unfold JS.startsWith.
  change ("end-" ++ rid) with (String "e" ("nd-" ++ rid)).
  change "session-" with (String "s" "ession-").
  apply prefix_cons_ne. discriminate.
Qed.

(** C9, what the code does on the [end-] branch. The listener never
    compares the run id in the name of an [end-] alarm with the stored
    one: whichever run the alarm belongs to, the run in the store is
    ended. *)
Theorem onAlarm_end_ignores_run_id (random : nat -> Q)
    (injects : Z -> option string) (rid : string) (w : World) :
  let w' := onAlarm random injects ("end-" ++ rid) w in
  isRunning (store w') = Some false /\
  runId (store w') = None /\
  currentRun (store w') = None /\
  notifications w' = (notifications w ++ ["ytboost-finished"])%list.
Proof.
  cbn zeta. unfold onAlarm.
  rewrite startsWith_end_session, startsWith_app.
  repeat split; reflexivity.
Qed.

Lemma length_append (a b : string) :
  String.length (a ++ b) = (String.length a + String.length b)%nat.
Proof.
  induction a as [| c a IH]; [reflexivity |].
  rewrite append_cons. cbn [String.length]. now rewrite IH.
Qed.

Lemma substring_all (b : string) : substring 0 (String.length b) b = b.
Proof.
  induction b as [| c b IH]; [reflexivity |].
  cbn [String.length substring]. now rewrite IH.
Qed.

Lemma substring_app_skip (a b : string) (m : nat) :
  substring (String.length a) m (a ++ b) = substring 0 m b.
Proof.
  induction a as [| c a IH]; [reflexivity |].
  rewrite append_cons. cbn [String.length substring]. exact IH.
Qed.

Lemma substring_app_prefix (a b : string) :
  substring 0 (String.length a) (a ++ b) = a.
Proof.
  induction a as [| c a IH]; [now destruct b |].
  rewrite append_cons. cbn [String.length substring]. now rewrite IH.
Qed.

Lemma sliceFrom_app (a b : string) :
  JS.sliceFrom (a ++ b) (Z.of_nat (String.length a)) = b.
Proof.
  unfold JS.sliceFrom, JS.slice. rewrite length_append.
  set (la := String.length a). set (lb := String.length b).
  replace (Z.of_nat la <? 0) with false by (symmetry; apply Z.ltb_ge; lia).
  replace (Z.of_nat (la + lb) <? 0) with false
    by (symmetry; apply Z.ltb_ge; lia).
  rewrite Z.min_l by lia. rewrite Z.min_id.
  replace (Z.to_nat (Z.of_nat (la + lb) - Z.of_nat la)) with lb by lia.
  rewrite Nat2Z.id. subst la lb.
  rewrite substring_app_skip. apply substring_all.
Qed.

Lemma slice_app_prefix (a b : string) :
  JS.slice (a ++ b) 0 (Z.of_nat (String.length a)) = a.
Proof.
  unfold JS.slice. rewrite length_append.
  set (la := String.length a). set (lb := String.length b).
  replace (Z.of_nat la <? 0) with false by (symmetry; apply Z.ltb_ge; lia).
  change (0 <? 0) with false. cbv iota.
  rewrite !Z.min_l by lia.
  replace (Z.to_nat (Z.of_nat la - 0)) with la by lia.
  change (Z.to_nat 0) with 0%nat. subst la.
  apply substring_app_prefix.
Qed.

Lemma lastIndexOf_from_absent (s : string) (i acc : Z) :
  noDash s = true -> JS.lastIndexOf_from "-" s i acc = acc.
Proof.
  revert i acc. induction s as [| c s IH]; intros i acc Hno; [reflexivity |].
  cbn [noDash] in Hno. apply andb_prop in Hno as [Hc Hs].
  cbn [JS.lastIndexOf_from].
  apply negb_true_iff in Hc. rewrite Hc. now apply IH.
Qed.

Lemma lastIndexOf_from_last (a sfx : string) (i acc : Z) :
  noDash sfx = true ->
  JS.lastIndexOf_from "-" (a ++ "-" ++ sfx) i acc
  = i + Z.of_nat (String.length a).
Proof.
  intros Hno. revert i acc. induction a as [| c a IH]; intros i acc.
  - change ("" ++ "-" ++ sfx) with (String "-" sfx).
    cbn [JS.lastIndexOf_from String.length].
    change (Ascii.eqb "-" "-") with true. cbv iota.
    rewrite lastIndexOf_from_absent by exact Hno. lia.
  - rewrite append_cons. cbn [JS.lastIndexOf_from String.length].
    rewrite IH. lia.
Qed.

(** The listener reads the run id back out of a session alarm name. *)
Lemma alarmRunId_session (r sfx : string) :
  noDash sfx = true ->
  alarmRunId ("session-" ++ r ++ "-" ++ sfx) = r.
Proof.
  intros Hno. unfold alarmRunId.
  change 8 with (Z.of_nat (String.length "session-")).
  rewrite sliceFrom_app.
  unfold JS.lastIndexOf. rewrite lastIndexOf_from_last by exact Hno.
  cbn [Z.add]. apply slice_app_prefix.
Qed.

(** The [session-] branch does compare: a session alarm whose run id is
    not the stored one is dropped. *)
Lemma onAlarm_session_stale random injects name r w :
  JS.startsWith name "session-" = true ->
  runId (store w) = Some r -> r <> "" ->
  alarmRunId name <> r ->
  onAlarm random injects name w = w.
Proof.
  intros Hs Hr Hne Hstale. unfold onAlarm. rewrite Hs, Hr.
  cbn [JS.truthyStr JS.showStr].
  destruct (String.eqb_spec r ""); [contradiction |].
  destruct (String.eqb_spec r (alarmRunId name)); [congruence |].
  cbn [negb andb]. now rewrite orb_true_r.
Qed.

(** So the session alarm of a run other than the stored one changes
    nothing, whatever timestamp it carries. *)
Lemma onAlarm_session_of_other_run random injects r r' sfx w :
  noDash sfx = true ->
  runId (store w) = Some r -> r <> "" -> r' <> r ->
  onAlarm random injects ("session-" ++ r' ++ "-" ++ sfx) w = w.
Proof.
  intros Hno Hr Hne Hother.
  apply onAlarm_session_stale with (r := r); try assumption.
  - apply startsWith_app.
  - now rewrite alarmRunId_session.
Qed.

(** A concrete case for C9: run [run-1000] was started and stopped, its
    [end-] alarm survived the stop; run [run-2000] is active when that
    alarm fires. *)
Example stale_end_alarm_ends_new_run :
  let w :=
    run randomHalf showNumber injectsOk
        [EvMessage (MsgStart None) None; EvMessage MsgStop None;
         EvClock 2000; EvMessage (MsgStart None) None]
        (emptyWorld 1000) in
  let w' := step randomHalf showNumber injectsOk (EvAlarm "end-run-1000") w in
  isRunning (store w) = Some true /\
  runId (store w) = Some "run-2000" /\
  isRunning (store w') = Some false /\
  runId (store w') = None.
Proof. vm_compute. repeat split. Qed.

(** ** Result handling *)

Section Results.

Variable random : nat -> Q.
Variable numberToString : Q -> string.
Variable injects : Z -> option string.

Lemma daysCompletedAfter_ext s s' t :
  startTs s' = startTs s -> daysCompleted s' = daysCompleted s ->
  daysCompletedAfter s' t = daysCompletedAfter s t.
Proof. intros H1 H2. unfold daysCompletedAfter. now rewrite H1, H2. Qed.

Lemma onSessionResult_effect r tab w :
  let w' := onSessionResult random (MsgSessionResult r) tab w in
  let result := match r with Some x => x | None => emptyResult end in
  store w'
  = {| isRunning := isRunning (store w); runId := runId (store w);
       daysCompleted := Some (daysCompletedAfter (store w) (now w));
       logs := Some (firstn (maxLogs CONFIG)
                       (Raw result (now w) tab :: logsOf w));
       keywords := keywords (store w); startTs := startTs (store w);
       immediateMode := immediateMode (store w);
       currentRun := currentRun (store w) |} /\
  timeouts w' = timeoutsAfterResult random w /\
  sent w' = sent w.
Proof.
  cbn zeta. unfold onSessionResult, timeoutsAfterResult.
  set (result := match r with Some x => x | None => emptyResult end).
  set (w1 := appendLog (Raw result (now w) tab) w).
  assert (Hlogs : logsOf w1
                  = firstn (maxLogs CONFIG) (Raw result (now w) tab :: logsOf w))
    by apply logsOf_appendLog.
  set (w2 := match tab with
             | Some t => if truthyTab tab then removeTab t w1 else w1
             | None => w1
             end).
  assert (Hw2 : store w2 = store w1 /\ timeouts w2 = timeouts w
                /\ sent w2 = sent w /\ rngIx w2 = rngIx w /\ now w2 = now w).
  { subst w2. destruct tab as [t |]; [destruct (truthyTab (Some t)) |];
      repeat split; reflexivity. }
  destruct Hw2 as (Hs2 & Ht2 & Hm2 & Hr2 & Hn2).
  assert (Hk : keywords (store w2) = keywords (store w)
               /\ immediateMode (store w2) = immediateMode (store w)
               /\ isRunning (store w2) = isRunning (store w)
               /\ runId (store w2) = runId (store w)
               /\ startTs (store w2) = startTs (store w)
               /\ daysCompleted (store w2) = daysCompleted (store w)
               /\ currentRun (store w2) = currentRun (store w)).
  { rewrite Hs2. repeat split; reflexivity. }
  destruct Hk as (Hk1 & Hk2 & Hk3 & Hk4 & Hk5 & Hk6 & Hk7).
  assert (Hl2 : logs (store w2) = Some (logsOf w1)).
  { rewrite Hs2. apply logs_appendLog. }
  assert (Hd : forall t,
             daysCompletedAfter (store w2) t = daysCompletedAfter (store w) t).
  { intros t. apply daysCompletedAfter_ext; assumption. }
  rewrite Hk1, Hk2, Hk3, Hk4.
  destruct (keywords (store w)) as [kws |];
    [destruct (JS.truthyBool (immediateMode (store w))
               && JS.truthyBool (isRunning (store w))) |];
    unfold draw; cbn [store timeouts sent now notify withStore setTimeout
                      withTimeouts withRngIx];
    rewrite Hl2, Hlogs, Hd, Hk5, Hk7, ?Hk1, ?Hk2, ?Hk3, ?Hk4, ?Ht2, ?Hm2,
      ?Hr2, ?Hn2;
    repeat split; reflexivity.
Qed.

Lemma logsOf_onSessionResult r tab w :
  logsOf (onSessionResult random (MsgSessionResult r) tab w)
  = firstn (maxLogs CONFIG)
      (Raw (match r with Some x => x | None => emptyResult end) (now w) tab
       :: logsOf w).
Proof.
  destruct (onSessionResult_effect r tab w) as (Hs & _ & _).
  cbn zeta in Hs. unfold logsOf at 1. now rewrite Hs.
Qed.

(** A call of [appendLog] that nothing separates from its read is the
    read-modify-write of [appendLog]. *)
Lemma appendLogFrom_store e w : appendLogFrom (store w) e w = appendLog e w.
Proof. reflexivity. Qed.

(** A later write replaces the log of an earlier one made from the same
    read. *)
Lemma appendLogFrom_twice read e1 e2 w :
  appendLogFrom read e2 (appendLogFrom read e1 w) = appendLogFrom read e2 w.
Proof. reflexivity. Qed.

(** The first listener does write its formatted entry. *)
Lemma logsOf_onSessionResultFormattedFrom r w :
  logsOf (onSessionResultFormattedFrom (store w) (MsgSessionResult (Some r)) w)
  = firstn (maxLogs CONFIG) (formattedEntry r (now w) :: logsOf w).
Proof.
  unfold onSessionResultFormattedFrom, formattedEntry.
  destruct (success r);
    change (logsOf (respond "received" (appendLogFrom (store w) ?e w)))
      with (logsOf (appendLog e w));
    apply logsOf_appendLog.
Qed.

(** The dispatch of a result message as a whole: the first listener's
    entry is overwritten by the third listener's write, its reply
    stays. *)
Lemma onMessage_result r tab w :
  onMessage random numberToString injects (MsgSessionResult (Some r)) tab w
  = onSessionResult random (MsgSessionResult (Some r)) tab
      (respond "received" w).
Proof.
  unfold onMessage, onSessionResultFormattedFrom, onSessionResultFrom,
    onSessionResult.
  cbn [onControl].
  destruct (success r); reflexivity.
Qed.

(** Every dispatch: the third listener and the control surface act on
    the store the first listener found. *)
Lemma onMessage_net m tab w :
  onMessage random numberToString injects m tab w
  = onSessionResult random m tab
      (onControl random numberToString injects m (firstReply m w)).
Proof.
  destruct m as [[r |] | kws | kws |]; try reflexivity.
  apply onMessage_result.
Qed.

Lemma onMessage_no_result tab w :
  onMessage random numberToString injects (MsgSessionResult None) tab w
  = onSessionResult random (MsgSessionResult None) tab w.
Proof. reflexivity. Qed.

Lemma onMessage_control m tab w :
  (forall r, m <> MsgSessionResult r) ->
  onMessage random numberToString injects m tab w
  = onControl random numberToString injects m w.
Proof.
  intros Hm. destruct m as [r | kws | kws |];
    [now destruct (Hm r) | reflexivity ..].
Qed.

Lemma onSessionResult_responses m tab w :
  responses (onSessionResult random m tab w) = responses w.
Proof.
  destruct m as [r | | |]; try reflexivity.
  unfold onSessionResult, draw.
  destruct tab as [t |]; [destruct (truthyTab (Some t)) |];
    cbn [store appendLog withStore removeTab withTabs keywords immediateMode
         isRunning];
    (destruct (keywords (appendLogStore CONFIG _ (store w))) as [k |];
     [destruct (_ && _) |]); reflexivity.
Qed.

Lemma onMessage_result_effect r tab w :
  let w' :=
    onMessage random numberToString injects (MsgSessionResult (Some r)) tab w in
  store w'
  = {| isRunning := isRunning (store w); runId := runId (store w);
       daysCompleted := Some (daysCompletedAfter (store w) (now w));
       logs := Some (firstn (maxLogs CONFIG) (Raw r (now w) tab :: logsOf w));
       keywords := keywords (store w); startTs := startTs (store w);
       immediateMode := immediateMode (store w);
       currentRun := currentRun (store w) |} /\
  timeouts w' = timeoutsAfterResult random w /\
  sent w' = sent w.
Proof.
  cbn zeta. rewrite onMessage_result.
  exact (onSessionResult_effect (Some r) tab (respond "received" w)).
Qed.

End Results.

(** C4. A result message leaves exactly one new entry in the persisted
    log: the result itself, stamped with the time and the sender's tab,
    on top of the entries that were there, the whole cut to [maxLogs].
    The entry carries the [success] flag of the message and, for a
    failure, its [error].  (The first listener's formatted entry is
    written from the same read of the store and is replaced by this
    write.) *)
Theorem onMessage_result_appends_one_entry (random : nat -> Q)
    (numberToString : Q -> string) (injects : Z -> option string)
    (r : SessionResult) (tab : option Z) (w : World) :
  let w' :=
    onMessage random numberToString injects (MsgSessionResult (Some r)) tab w in
  exists e,
    logsOf w' = firstn (maxLogs CONFIG) (e :: logsOf w) /\
    entryResult e = Some r /\
    entrySuccess e = success r /\
    entryError e = error r.
Proof.
  cbn zeta. exists (Raw r (now w) tab).
  destruct (onMessage_result_effect random numberToString injects r tab w)
    as (Hs & _ & _).
  cbn zeta in Hs. unfold logsOf at 1. rewrite Hs.
  repeat split; reflexivity.
Qed.

(** A concrete case for C4: one successful result on an empty log. *)
Example one_result_one_entry :
  logsOf (onMessage randomHalf showNumber injectsOk
            (MsgSessionResult (Some (okResult "cats" None))) (Some 1)
            (emptyWorld 1000))
  = [Raw (okResult "cats" None) 1000 (Some 1)].
Proof. vm_compute. reflexivity. Qed.

(** A failed session: the one entry is the failure with its error. *)
Example one_failure_one_entry :
  let failure :=
    {| success := false; keyword := Some "cats"; watchSeconds := None;
       videosWatched := None; error := Some "Error: No videos found";
       sentBy := None |} in
  let w' :=
    onMessage randomHalf showNumber injectsOk
      (MsgSessionResult (Some failure)) (Some 1) (emptyWorld 1000) in
  logsOf w' = [Raw failure 1000 (Some 1)] /\
  map entrySuccess (logsOf w') = [false] /\
  map entryError (logsOf w') = [Some "Error: No videos found"].
Proof. vm_compute. repeat split. Qed.

(** C5, as stated, fails: the result of the stopped run
    [immediate-1000] reaches the worker while [immediate-2000] is the
    stored run; it is logged and a further dispatch is armed. *)
Lemma stale_result_is_logged_and_rescheduled :
  let stale := okResult "x" (Some "immediate-1000") in
  let w := secondImmediateRun in
  let w' :=
    step randomHalf showNumber injectsOk
         (EvMessage (MsgSessionResult (Some stale)) (Some 1)) w in
  runId (store w) = Some "immediate-2000" /\
  sentBy stale <> runId (store w) /\
  logsOf w = [] /\
  logsOf w' = [Raw stale 2000 (Some 1)] /\
  length (timeouts w') = S (length (timeouts w)) /\
  nth_error (timeouts w') (length (timeouts w))
  = Some {| delay := 10000; callback := CbTrigger ["y"] (Some "immediate-2000") |}.
Proof. vm_compute. repeat split. discriminate. Qed.

(** C5, amended. The worker handles every result message the same way,
    whatever run id the message embeds and whatever run id is stored, also
    when the two differ: after the dispatch the result is on top of the
    log (cut to [maxLogs]), [daysCompleted] is refreshed, the other keys
    of the store are as they were, the message is answered, and one
    further dispatch is armed, 5 to 15 s ahead, with the stored keywords
    and run id, exactly when the store has [immediateMode], [isRunning]
    and [keywords] set. *)
Theorem onMessage_result_ignores_run_id (random : nat -> Q)
    (numberToString : Q -> string) (injects : Z -> option string)
    (r : SessionResult) (tab : option Z) (w : World) :
  let w' :=
    onMessage random numberToString injects (MsgSessionResult (Some r)) tab w in
  store w'
  = {| isRunning := isRunning (store w); runId := runId (store w);
       daysCompleted := Some (daysCompletedAfter (store w) (now w));
       logs := Some (firstn (maxLogs CONFIG) (Raw r (now w) tab :: logsOf w));
       keywords := keywords (store w); startTs := startTs (store w);
       immediateMode := immediateMode (store w);
       currentRun := currentRun (store w) |} /\
  timeouts w'
  = match keywords (store w) with
    | Some kws =>
        if JS.truthyBool (immediateMode (store w))
           && JS.truthyBool (isRunning (store w))
        then
          (timeouts w
           ++ [{| delay := inject_Z (Qfloor (random (rngIx w) * 10000)%Q + 5000);
                  callback := CbTrigger kws (runId (store w)) |}])%list
        else timeouts w
    | None => timeouts w
    end /\
  responses w' = (responses w ++ ["received"])%list.
Proof.
  destruct (onMessage_result_effect random numberToString injects r tab w)
    as (Hl & Ht & _).
  cbn zeta in *. split; [exact Hl | split; [exact Ht |]].
  rewrite onMessage_result.
  now rewrite onSessionResult_responses.
Qed.

(** ** Session dispatcher, immediate mode *)

(** [triggerImmediateSession] reads nothing from the store: with the
    script injected, the [startSession] message is armed whether or not a
    run is active. *)
Lemma triggerImmediateSession_arms_dispatch random injects kws rid w :
  injects (nextTabId w) = None ->
  timeouts (triggerImmediateSession random injects kws rid w)
  = (timeouts w
     ++ [{| delay := 2000;
            callback :=
              CbSendStart (nextTabId w)
                {| paramKeyword := pickKeyword kws (random (rngIx w));
                   paramRunId := rid;
                   paramMaxWatchSeconds := maxWatchSeconds CONFIG |}
                kws rid |}])%list.
Proof.
  intros Hok. unfold triggerImmediateSession, draw, createTab.
  cbn [nextTabId withRngIx]. rewrite Hok. reflexivity.
Qed.

(** The response callback re-arms the loop without reading the store. *)
Lemma onResponse_arms_trigger random a w :
  timeouts (onResponse random a w)
  = (timeouts w
     ++ [{| delay := rand (random (rngIx w)) 30000 120000;
            callback := CbTrigger (awaitKeywords a) (awaitRunId a) |}])%list.
Proof. reflexivity. Qed.

(** C6, what the code does. One completed session arms two further
    dispatches, one by the result listener and one by the response
    callback of [sendMessage]; and the armed timers call
    [triggerImmediateSession] without looking at [isRunning]: with
    [stop] called after the second result, a third and a fourth
    [startSession] message are still sent. *)
Theorem immediate_loop_dispatches_after_stop :
  let go := run randomHalf showNumber injectsOk in
  let w4 := go (firstn 4 twoResults) (emptyWorld 1000) in
  let w7 := go twoResults (emptyWorld 1000) in
  let w8 := go [EvMessage MsgStop None] w7 in
  let w12 := go afterStop w8 in
  length (sent w4) = 1%nat /\
  map isTrigger (timeouts w4) = [true; true] /\
  length (sent w7) = 2%nat /\
  isRunning (store w7) = Some true /\
  isRunning (store w8) = Some false /\
  length (sent w8) = 2%nat /\
  isRunning (store w12) = Some false /\
  length (sent w12) = 4%nat /\
  map (fun m => paramRunId (snd m)) (sent w12)
  = [Some "immediate-1000"; Some "immediate-1000";
     Some "immediate-1000"; Some "immediate-1000"].
Proof. vm_compute. repeat split. Qed.

(** ** Keyword choice *)

Lemma pickKeyword_defined (kws : list string) (r : Q) :
  exists k, pickKeyword kws r = Some k /\ k <> ""
            /\ (In k kws \/ JS.index (defaultKeywords CONFIG) 0 = Some k).
Proof.
  unfold pickKeyword.
  set (i := Qfloor (r * inject_Z (Z.of_nat (length kws)))%Q).
  destruct (JS.index kws i) as [k |] eqn:Hk; cbn [JS.truthyStr].
  - destruct (String.eqb_spec k "") as [-> | Hne]; cbn [negb].
    + exists "popular tech news". split; [reflexivity |].
      split; [discriminate | right; reflexivity].
    + exists k. split; [reflexivity |]. split; [exact Hne | left].
      unfold JS.index in Hk. destruct (i <? 0); [discriminate |].
      eapply nth_error_In; eassumption.
  - exists "popular tech news". split; [reflexivity |].
    split; [discriminate | right; reflexivity].
Qed.

Lemma pickKeyword_good kws r rid n :
  GoodKeyword {| paramKeyword := pickKeyword kws r; paramRunId := rid;
                 paramMaxWatchSeconds := n |}.
Proof.
  destruct (pickKeyword_defined kws r) as (k & Hk & Hne & _).
  exists k. split; assumption.
Qed.

Lemma in_firstn {A} (x : A) n l : In x (firstn n l) -> In x l.
Proof.
  intros H. rewrite <- (firstn_skipn n l). apply in_or_app. now left.
Qed.

Lemma in_skipn {A} (x : A) n l : In x (skipn n l) -> In x l.
Proof.
  intros H. rewrite <- (firstn_skipn n l). apply in_or_app. now right.
Qed.

Lemma in_dropNth {A} (x : A) i l : In x (dropNth i l) -> In x l.
Proof.
  unfold dropNth. intros H. apply in_app_or in H as [H | H].
  - eapply in_firstn; eassumption.
  - eapply in_skipn; eassumption.
Qed.

(** How a handler may change the mail for the invariant to carry over:
    messages are old or carry a good keyword, and so do the
    [startSession] closures in timers. *)
Lemma KeywordsDefined_carry (w w' : World) :
  (forall t p, In (t, p) (sent w') -> In (t, p) (sent w) \/ GoodKeyword p) ->
  (forall x, In x (timeouts w') ->
     In x (timeouts w) \/
     forall t p kws rid, callback x = CbSendStart t p kws rid -> GoodKeyword p) ->
  KeywordsDefined w -> KeywordsDefined w'.
Proof.
  intros Hsent Htime [Hs Ht]. split.
  - intros t p Hin. destruct (Hsent t p Hin) as [Hold | Hgood];
      [eapply Hs; eassumption | exact Hgood].
  - intros d t p kws rid Hin. destruct (Htime _ Hin) as [Hold | Hgood].
    + eapply Ht; eassumption.
    + eapply Hgood. reflexivity.
Qed.

Lemma KeywordsDefined_same (w w' : World) :
  sent w' = sent w -> timeouts w' = timeouts w ->
  KeywordsDefined w -> KeywordsDefined w'.
Proof.
  intros Hs Ht. apply KeywordsDefined_carry.
  - intros t p Hin. left. now rewrite <- Hs.
  - intros x Hin. left. now rewrite <- Ht.
Qed.

Lemma KeywordsDefined_timeout (w w' : World) (x : Timeout) :
  sent w' = sent w -> timeouts w' = (timeouts w ++ [x])%list ->
  (forall t p kws rid, callback x = CbSendStart t p kws rid -> GoodKeyword p) ->
  KeywordsDefined w -> KeywordsDefined w'.
Proof.
  intros Hs Ht Hx. apply KeywordsDefined_carry.
  - intros t p Hin. left. now rewrite <- Hs.
  - intros y Hin. rewrite Ht in Hin. apply in_app_or in Hin as [Hin | Hin].
    + now left.
    + right. destruct Hin as [<- | []]. exact Hx.
Qed.

Section Keywords.

Variable random : nat -> Q.
Variable numberToString : Q -> string.
Variable injects : Z -> option string.

Lemma mail_fold_createAlarm (name : Q -> string) (l : list Q) (w : World) :
  sent (fold_left (fun acc ts => createAlarm (name ts) ts acc) l w) = sent w /\
  timeouts (fold_left (fun acc ts => createAlarm (name ts) ts acc) l w)
  = timeouts w.
Proof.
  revert w. induction l as [| ts l IH]; intros w; [split; reflexivity |].
  cbn [fold_left]. destruct (IH (createAlarm (name ts) ts w)) as [-> ->].
  split; reflexivity.
Qed.

Lemma KeywordsDefined_triggerImmediateSession kws rid w :
  KeywordsDefined w ->
  KeywordsDefined (triggerImmediateSession random injects kws rid w).
Proof.
  unfold triggerImmediateSession, draw, createTab.
  destruct (injects (nextTabId (withRngIx (S (rngIx w)) w))) as [err |].
  - apply KeywordsDefined_timeout with
      (x := {| delay := 30000; callback := CbTrigger kws rid |});
      [reflexivity | reflexivity | discriminate].
  - eapply KeywordsDefined_timeout; [reflexivity | reflexivity |].
    cbn [callback]. intros t p k r' [= <- <- <- <-].
    apply pickKeyword_good.
Qed.

Lemma KeywordsDefined_triggerSession name w :
  KeywordsDefined w ->
  KeywordsDefined (triggerSession random injects name w).
Proof.
  unfold triggerSession, draw, createTab.
  destruct (injects (nextTabId (withRngIx (S (rngIx w)) w))) as [err |].
  - apply KeywordsDefined_same; reflexivity.
  - apply KeywordsDefined_carry.
    + intros t p Hin. cbn [sent sendStart withSent withTabs withRngIx] in Hin.
      apply in_app_or in Hin as [Hin | [[= <- <-] | []]]; [now left | right].
      apply pickKeyword_good.
    + intros x Hin. now left.
Qed.

Lemma KeywordsDefined_startBoost kws w :
  KeywordsDefined w ->
  KeywordsDefined (startBoost random numberToString kws w).
Proof.
  unfold startBoost.
  destruct (JS.truthyBool (isRunning (store w))).
  - apply KeywordsDefined_same; reflexivity.
  - unfold scheduleAlarmsForRun. cbn [rngIx withStore].
    destruct (generateSchedule random (now w) (rngIx w)) as [sched ix].
    apply KeywordsDefined_same;
      cbn [sent timeouts notify createAlarm withAlarms withStore];
      match goal with
      | |- context [fold_left ?f ?l ?w0] =>
          destruct (mail_fold_createAlarm
                      (sessionAlarmName numberToString
                         ("run-" ++ JS.showZ (now w))) l w0) as [Hs Ht]
      end; [rewrite Hs | rewrite Ht]; reflexivity.
Qed.

Lemma KeywordsDefined_stopBoost w :
  KeywordsDefined w -> KeywordsDefined (stopBoost w).
Proof.
  unfold stopBoost.
  destruct (stopRunId (store w)) as [r |];
    [destruct (JS.truthyStr (Some r)) |];
    apply KeywordsDefined_same; reflexivity.
Qed.

Lemma KeywordsDefined_onAlarm name w :
  KeywordsDefined w -> KeywordsDefined (onAlarm random injects name w).
Proof.
  intros Hw. unfold onAlarm.
  destruct (JS.startsWith name "session-").
  - destruct (negb (JS.truthyBool (isRunning (store w)))
              || JS.truthyStr (runId (store w))
                 && negb (String.eqb (JS.showStr (runId (store w)))
                                     (alarmRunId name)));
      [exact Hw | now apply KeywordsDefined_triggerSession].
  - destruct (JS.startsWith name "end-"); [| exact Hw].
    revert Hw. apply KeywordsDefined_same; reflexivity.
Qed.

Lemma KeywordsDefined_onMessage m tab w :
  KeywordsDefined w ->
  KeywordsDefined (onMessage random numberToString injects m tab w).
Proof.
  intros Hw. rewrite onMessage_net.
  assert (H1 : KeywordsDefined (firstReply m w)).
  { destruct m as [[r |] | | |]; exact Hw. }
  assert (H2 : KeywordsDefined
                 (onControl random numberToString injects m
                    (firstReply m w))).
  { destruct m as [r | kws | kws |]; cbn [onControl].
    - exact H1.
    - eapply KeywordsDefined_same;
        [| | apply KeywordsDefined_startBoost; exact H1]; reflexivity.
    - eapply KeywordsDefined_same; [reflexivity | reflexivity |].
      unfold startImmediateSessions.
      apply KeywordsDefined_triggerImmediateSession.
      revert H1. apply KeywordsDefined_same; reflexivity.
    - eapply KeywordsDefined_same;
        [| | apply KeywordsDefined_stopBoost; exact H1]; reflexivity. }
  destruct m as [r | kws | kws |]; try exact H2.
  destruct (onSessionResult_effect random r tab
              (onControl random numberToString injects (MsgSessionResult r)
                 (firstReply (MsgSessionResult r) w)))
    as (_ & Ht & Hs).
  cbn zeta in Ht, Hs. revert H2. apply KeywordsDefined_carry.
  - intros t p Hin. left. now rewrite <- Hs.
  - intros x Hin. rewrite Ht in Hin. unfold timeoutsAfterResult in Hin.
    destruct (keywords _) as [k |]; [| now left].
    destruct (_ && _); [| now left].
    apply in_app_or in Hin as [Hin | [<- | []]]; [now left | right].
    discriminate.
Qed.

Lemma KeywordsDefined_step e w :
  KeywordsDefined w ->
  KeywordsDefined (step random numberToString injects e w).
Proof.
  intros Hw. destruct e as [m tab | name | i | i | t | kws |]; cbn [step].
  - now apply KeywordsDefined_onMessage.
  - destruct (alarms w !! name); [| exact Hw].
    apply KeywordsDefined_onAlarm.
    revert Hw. apply KeywordsDefined_same; reflexivity.
  - destruct (nth_error (timeouts w) i) as [x |] eqn:Hx; [| exact Hw].
    assert (Hdrop : KeywordsDefined (withTimeouts (dropNth i (timeouts w)) w)).
    { revert Hw. apply KeywordsDefined_carry.
      - intros t p Hin. now left.
      - intros y Hin. left. eapply in_dropNth. exact Hin. }
    destruct x as [d [t p kws rid | kws rid]]; cbn [callback runCallback].
    + revert Hdrop. apply KeywordsDefined_carry.
      * intros t' p' Hin.
        cbn [sent withAwaiting sendStart withSent withTimeouts] in Hin.
        apply in_app_or in Hin as [Hin | [[= <- <-] | []]]; [now left | right].
        destruct Hw as [_ Ht]. eapply Ht. eapply nth_error_In. exact Hx.
      * intros y Hin. now left.
    + now apply KeywordsDefined_triggerImmediateSession.
  - destruct (nth_error (awaiting w) i) as [a |]; [| exact Hw].
    eapply KeywordsDefined_timeout;
      [| apply onResponse_arms_trigger | | ].
    + reflexivity.
    + discriminate.
    + revert Hw. apply KeywordsDefined_same; reflexivity.
  - revert Hw. apply KeywordsDefined_same; reflexivity.
  - revert Hw. apply KeywordsDefined_same; reflexivity.
  - revert Hw. apply KeywordsDefined_same; reflexivity.
Qed.

Lemma KeywordsDefined_run es w :
  KeywordsDefined w ->
  KeywordsDefined (run random numberToString injects es w).
Proof.
  revert w. induction es as [| e es IH]; intros w Hw; [exact Hw |].
  unfold run. cbn [fold_left]. apply IH. now apply KeywordsDefined_step.
Qed.

End Keywords.

(** C10. Whatever list the keyword is picked from - empty, or holding an
    empty string at the drawn position - the pick is a defined,
    non-empty string: an element of the list, or else the first built-in
    keyword.  And in every world the worker reaches from a freshly
    loaded one, whatever the store held and whatever events arrive,
    every [startSession] message sent (scheduled or immediate mode) or
    waiting in a timer carries such a keyword. *)
Theorem dispatched_keyword_defined :
  (forall (kws : list string) (r : Q),
     exists k, pickKeyword kws r = Some k /\ k <> ""
               /\ (In k kws \/ k = "popular tech news")) /\
  (forall (random : nat -> Q) (numberToString : Q -> string)
          (injects : Z -> option string)
          (s : Store) (t0 : Z) (es : list Event),
     KeywordsDefined
       (run random numberToString injects es (withStore s (emptyWorld t0)))).
Proof.
  split.
  - intros kws r.
    destruct (pickKeyword_defined kws r) as (k & Hk & Hne & Hin).
    exists k. split; [exact Hk |]. split; [exact Hne |].
    destruct Hin as [Hin | Hdef]; [now left | right].
    change (Some "popular tech news" = Some k) in Hdef. congruence.
  - intros random numberToString injects s t0 es.
    apply KeywordsDefined_run. split.
    + intros t p [].
    + intros d t p kws rid [].
Qed.

(** The retry path of the immediate loop does not look at [isRunning]
    either: with injection failing, the retry armed before a stop opens
    a tab and logs a second failure after it, and arms the next retry. *)
Example immediate_retry_ignores_stop :
  let w :=
    run randomHalf showNumber injectsFail
        [EvMessage (MsgStartImmediate None) None; EvMessage MsgStop None;
         EvTimeout 0]
        (emptyWorld 1000) in
  isRunning (store w) = Some false /\
  length (logsOf w) = 2%nat /\
  map isTrigger (timeouts w) = [true] /\
  nextTabId w = 3.
Proof. vm_compute. repeat split. Qed.

(** * Further properties of the worker *)

(** ** Schedule generator: size, draws and range *)

Section DoubleSize.

Variable fl : Q -> Q.
Hypothesis Hfl : Rounding fl.
Variable random : nat -> Q.
Hypothesis random_unit : UnitInterval random.

Lemma double_dayBlocks_total_length cfg startTs n day ix :
  0 <= minSessionsPerDay cfg <= maxSessionsPerDay cfg ->
  maxSessionsPerDay cfg + 1 <= maxSafe ->
  Z.of_nat n * minSessionsPerDay cfg
  <= Z.of_nat (length (concat (Double.dayBlocks fl random cfg startTs n day ix)))
  <= Z.of_nat n * (maxSessionsPerDay cfg + 1).
Proof.
  intros Hcount Hsafe. revert day ix.
  induction n as [| n IH]; intros day ix.
  - cbn. lia.
  - cbn [Double.dayBlocks].
    pose proof (double_randInt_bounds fl Hfl (random ix) _ _ (random_unit ix)
                  Hcount Hsafe) as Hc.
    pose proof (double_sessionLoop_length fl random cfg
                  (Z.to_nat (Double.randInt fl (random ix)
                               (minSessionsPerDay cfg)
                               (maxSessionsPerDay cfg)))
                  (Double.dayStart fl startTs day (random (S ix)))
                  (S (S ix)))
      as Hlen.
    destruct (Double.sessionLoop fl random cfg _ _ (S (S ix)) [])
      as [blk ix'].
    cbn [fst] in Hlen. cbn [concat]. rewrite length_app.
    specialize (IH (day + 1) ix'). lia.
Qed.

End DoubleSize.

(** X1. With every operation rounded to a double, draws in [[0, 1)]
    and counts [0 <= min <= max]: the schedule holds between [days * min]
    and [days * (max + 1)] timestamps (21 to 42 with the shipped policy;
    [randInt(min, max)] can return [max + 1]), and the generator uses two
    draws per day and one per timestamp. *)
Theorem generateSchedule_size (fl : Q -> Q) (random : nat -> Q)
    (cfg : Config) (startTs : Z) (ix : nat)
    (Hfl : Rounding fl)
    (Hrandom : UnitInterval random)
    (Hdays : 0 <= days cfg)
    (Hcount : 0 <= minSessionsPerDay cfg <= maxSessionsPerDay cfg)
    (Hsafe : maxSessionsPerDay cfg + 1 <= maxSafe) :
  let g := Double.generateScheduleWith fl random cfg startTs ix in
  days cfg * minSessionsPerDay cfg <= Z.of_nat (length (fst g))
  /\ Z.of_nat (length (fst g)) <= days cfg * (maxSessionsPerDay cfg + 1)
  /\ snd g = (ix + 2 * Z.to_nat (days cfg) + length (fst g))%nat.
Proof.
  cbn zeta. unfold Double.generateScheduleWith.
  rewrite double_dayLoop_blocks, double_dayLoop_snd. cbn [app].
  pose proof (double_dayBlocks_total_length fl Hfl random Hrandom cfg startTs
                (Z.to_nat (days cfg)) 0 ix Hcount Hsafe) as Hlen.
  rewrite Z2Nat.id in Hlen by exact Hdays.
  repeat split; lia.
Qed.

Lemma generateSchedule_size_witness :
  21 <= Z.of_nat (length (fst (Double.generateSchedule exact randomLateDay 0 0)))
  /\ Z.of_nat (length (fst (Double.generateSchedule exact randomLateDay 0 0)))
     <= 42.
Proof.
  pose proof (generateSchedule_size exact randomLateDay CONFIG 0 0
                Rounding_exact randomLateDay_unit ltac:(cbn; lia)
                ltac:(cbn; lia) ltac:(unfold maxSafe; cbn; lia)) as H.
  cbn zeta in H. split; [exact (proj1 H) | exact (proj1 (proj2 H))].
Defined.

(** X2. With every operation rounded to a double, draws in [[0, 1)]
    and a policy with counts [0 <= min <= max] and whole hours
    [0 <= minGap <= maxGap], all within the integers that doubles hold:
    no timestamp of the schedule lies before the start time, and none
    lies later than the last day's start plus six hours plus [max]
    largest gaps (a day can hold [max + 1] entries). *)
Theorem generateSchedule_range (fl : Q -> Q) (random : nat -> Q)
    (cfg : Config) (startTs : Z) (ix : nat) (x : Q) (a b : Z)
    (Hfl : Rounding fl)
    (Hrandom : UnitInterval random)
    (Hvalid : ValidPolicy cfg)
    (Hmin : 0 <= minSessionsPerDay cfg)
    (Ha : (minBetweenHours cfg == inject_Z a)%Q)
    (Hb : (maxBetweenHours cfg == inject_Z b)%Q)
    (Hgap : 0 <= a)
    (Hstart : 0 <= startTs)
    (Hsafe : startTs + days cfg * dayMs + 6 * 3600000
             + (maxSessionsPerDay cfg + 1) * (b * 3600000) <= maxSafe)
    (Hcount : maxSessionsPerDay cfg + 1 <= maxSafe)
    (Hin : In x (fst (Double.generateScheduleWith fl random cfg startTs ix))) :
  (inject_Z startTs <= x
   /\ x <= inject_Z (startTs + (days cfg - 1) * dayMs + 6 * 3600000
                     + maxSessionsPerDay cfg * (b * 3600000)))%Q.
Proof.
  assert (Hab : a <= b).
  { destruct Hvalid as (_ & _ & Hle).
    exact (Qle_inject_Z_le _ _ a b Ha Hb Hle). }
  assert (Hgap0 : (0 <= minBetweenHours cfg)%Q).
  { rewrite Ha. change 0%Q with (inject_Z 0). now rewrite <- Zle_Qle. }
  assert (Hmax0 : 0 <= maxSessionsPerDay cfg) by (destruct Hvalid; lia).
  assert (Hdm : 0 < dayMs) by (unfold dayMs; lia).
  assert (Hsafe1 : SafeRange cfg startTs).
  { pose proof Hvalid as (Hdays' & _ & _).
    assert (Hb1 : b * 1 <= (maxSessionsPerDay cfg + 1) * (b * 3600000)).
    { apply Z.le_trans with (1 * (b * 3600000)); [lia |].
      apply Z.mul_le_mono_nonneg_r; lia. }
    assert (Hd1 : 0 <= days cfg * dayMs) by (apply Z.mul_nonneg_nonneg; lia).
    split; [exact Hstart |]. split; [nia |]. split; [exact Hcount |].
    rewrite Hb, <- Zle_Qle. lia. }
  unfold Double.generateScheduleWith in Hin.
  rewrite double_dayLoop_blocks in Hin.
  cbn [app] in Hin. apply in_concat in Hin as (blk & Hblk & Hx).
  apply In_nth_error in Hblk as [d Hd].
  assert (Hdlt : (d < Z.to_nat (days cfg))%nat).
  { rewrite <- (double_dayBlocks_length fl random cfg startTs
                  (Z.to_nat (days cfg)) 0 ix).
    apply nth_error_Some. congruence. }
  assert (Hok : DayOk fl cfg startTs (Z.of_nat d) blk).
  { destruct Hsafe1 as (_ & Hend & _).
    change (Z.of_nat d) with (0 + Z.of_nat d).
    eapply (double_dayBlocks_ok fl Hfl random Hrandom); try eassumption.
    - lia.
    - destruct Hvalid as (Hdays & _). rewrite Z2Nat.id by exact Hdays.
      exact Hend. }
  destruct Hok as (_ & Hgaps & Hnd & Hfirst).
  destruct (gapMs_whole_hours fl Hfl cfg a b Ha Hb (conj Hgap Hab)
              ltac:(nia)) as [_ Hhi].
  pose proof (double_dayBlocks_count fl Hfl random Hrandom cfg startTs _ 0 ix
                d blk ltac:(destruct Hvalid; lia) Hcount Hd) as Hlen.
  destruct Hvalid as (Hdays & Hcnt & _).
  apply In_nth_error in Hx as [i Hi].
  assert (Hilt : (i < length blk)%nat) by (apply nth_error_Some; congruence).
  destruct (nth_error blk 0) as [f |] eqn:Hf;
    [| apply nth_error_None in Hf; lia].
  destruct (Hfirst f eq_refl) as [Hf1 Hf2].
  split.
  - assert (Hfx : (f <= x)%Q) by (apply (Hnd 0%nat i); [lia | exact Hf | exact Hi]).
    assert (Hsf : (inject_Z startTs <= inject_Z (startTs + Z.of_nat d * dayMs))%Q).
    { rewrite <- Zle_Qle. nia. }
    lra.
  - pose proof (double_block_entry_upper fl Hfl _ _ (b * 3600000)
                  (startTs + Z.of_nat d * dayMs + 6 * 3600000) blk f
                  Hgaps Hhi ltac:(lia) ltac:(nia) Hf Hf2 i x Hi ltac:(nia))
      as Hup.
    eapply Qle_trans; [exact Hup |]. rewrite <- Zle_Qle. nia.
Qed.

Lemma generateSchedule_range_witness :
  (inject_Z 1000 <= 64804000 # 4
   /\ 64804000 # 4 <= inject_Z (1000 + (days CONFIG - 1) * dayMs + 6 * 3600000
                                + maxSessionsPerDay CONFIG * (6 * 3600000)))%Q.
Proof.
  apply (generateSchedule_range exact randomLateDay CONFIG 1000 0
           (64804000 # 4) 2 6 Rounding_exact randomLateDay_unit CONFIG_valid).
  - cbn; lia.
  - reflexivity.
  - reflexivity.
  - lia.
  - lia.
  - unfold maxSafe, dayMs. cbn. lia.
  - unfold maxSafe. cbn. lia.
  - vm_compute. left. reflexivity.
Defined.

(** ** Run manager: what a start and a stop leave behind *)

Section StartStop.

Variable random : nat -> Q.
Variable numberToString : Q -> string.

Lemma fold_createAlarm_world (name : Q -> string) (l : list Q) (w : World) :
  fold_left (fun acc ts => createAlarm (name ts) ts acc) l w
  = withAlarms (fold_left (fun m ts => <[name ts := ts]> m) l (alarms w)) w.
Proof.
  revert w. induction l as [| ts l IH]; intros w.
  - destruct w. reflexivity.
  - cbn [fold_left]. rewrite IH. reflexivity.
Qed.

Lemma scheduleAlarmsForRun_world rid start kws w :
  scheduleAlarmsForRun random numberToString rid start kws w
  = withStore
      (storeWithCurrentRun
         (Some {| id := rid; runStartTs := start;
                  schedule := fst (generateSchedule random start (rngIx w));
                  runKeywords := kws; createdAt := now w |})
         (store w))
      (withAlarms
         (sessionAlarms numberToString rid
            (fst (generateSchedule random start (rngIx w))) (alarms w))
         (withRngIx (snd (generateSchedule random start (rngIx w))) w)).
Proof.
  unfold scheduleAlarmsForRun.
  destruct (generateSchedule random start (rngIx w)) as [sched ix].
  rewrite fold_createAlarm_world. reflexivity.
Qed.

Lemma startsWith_sessionAlarmName rid ts :
  JS.startsWith (sessionAlarmName numberToString rid ts)
                ("session-" ++ rid ++ "-") = true.
Proof.
  unfold sessionAlarmName, JS.startsWith.
  change ("session-" ++ rid ++ "-" ++ numberToString ts)
    with ("session-" ++ (rid ++ "-" ++ numberToString ts)).
  change ("session-" ++ rid ++ "-") with ("session-" ++ (rid ++ "-")).
  rewrite prefix_app_same.
  replace (rid ++ "-" ++ numberToString ts)
    with ((rid ++ "-") ++ numberToString ts) by (now rewrite append_assoc).
  apply prefix_app.
Qed.

Lemma sessionAlarms_lookup_other rid sched m name :
  JS.startsWith name ("session-" ++ rid ++ "-") = false ->
  sessionAlarms numberToString rid sched m !! name = m !! name.
Proof.
  intros Hp. unfold sessionAlarms. revert m.
  induction sched as [| ts sched IH]; intros m; [reflexivity |].
  cbn [fold_left]. rewrite IH. apply lookup_insert_ne.
  intros <-. rewrite startsWith_sessionAlarmName in Hp. discriminate.
Qed.

Lemma sessionAlarms_keeps rid sched m name :
  is_Some (m !! name) ->
  is_Some (sessionAlarms numberToString rid sched m !! name).
Proof.
  unfold sessionAlarms. revert m.
  induction sched as [| ts sched IH]; intros m Hm; [exact Hm |].
  cbn [fold_left]. apply IH. apply lookup_insert_is_Some'. now right.
Qed.

Lemma sessionAlarms_lookup_in rid sched m ts :
  In ts sched ->
  is_Some (sessionAlarms numberToString rid sched m
           !! sessionAlarmName numberToString rid ts).
Proof.
  revert m. induction sched as [| t sched IH]; intros m Hin; [destruct Hin |].
  destruct Hin as [-> | Hin].
  - unfold sessionAlarms. cbn [fold_left].
    apply sessionAlarms_keeps. rewrite lookup_insert_eq. eauto.
  - unfold sessionAlarms. cbn [fold_left]. now apply IH.
Qed.

Lemma startBoost_idle_world kws w :
  JS.truthyBool (isRunning (store w)) = false ->
  startBoost random numberToString kws w
  = notify ("ytboost-start-" ++ "run-" ++ JS.showZ (now w))
      (createAlarm ("end-" ++ "run-" ++ JS.showZ (now w))
         (endAlarmTime (now w))
         (scheduleAlarmsForRun random numberToString
            ("run-" ++ JS.showZ (now w)) (now w) (chooseKeywords kws)
            (withStore
               {| isRunning := Some true;
                  runId := Some ("run-" ++ JS.showZ (now w));
                  daysCompleted := Some 0;
                  logs := Some (logsOf w);
                  keywords := Some (chooseKeywords kws);
                  startTs := Some (now w);
                  immediateMode := immediateMode (store w);
                  currentRun := currentRun (store w) |} w))).
Proof. intros Hidle. unfold startBoost. now rewrite Hidle. Qed.

Lemma runId_not_empty z : "run-" ++ JS.showZ z <> "".
Proof. discriminate. Qed.

End StartStop.

(** X3. A start from an idle store keeps the log, sets [daysCompleted]
    to 0, stores the run under the id [run-<now>] with the chosen
    keywords and the generated schedule, registers an alarm for every
    schedule entry and the [end-] alarm seven days and one minute after
    the start, makes the start notification, and dispatches nothing
    yet. *)
Theorem startBoost_from_idle (random : nat -> Q) (numberToString : Q -> string)
    (kws : option (list string)) (w : World)
    (Hidle : JS.truthyBool (isRunning (store w)) = false) :
  let rid := "run-" ++ JS.showZ (now w) in
  let sched := fst (generateSchedule random (now w) (rngIx w)) in
  let w' := startBoost random numberToString kws w in
  store w'
  = {| isRunning := Some true; runId := Some rid; daysCompleted := Some 0;
       logs := Some (logsOf w); keywords := Some (chooseKeywords kws);
       startTs := Some (now w); immediateMode := immediateMode (store w);
       currentRun :=
         Some {| id := rid; runStartTs := now w; schedule := sched;
                 runKeywords := chooseKeywords kws; createdAt := now w |} |}
  /\ alarms w' !! ("end-" ++ rid) = Some (endAlarmTime (now w))
  /\ (forall ts, In ts sched ->
        is_Some (alarms w' !! sessionAlarmName numberToString rid ts))
  /\ notifications w'
     = (notifications w ++ [("ytboost-start-" ++ rid)%string])%list
  /\ timeouts w' = timeouts w /\ tabs w' = tabs w /\ sent w' = sent w.
Proof.
  cbn zeta. rewrite startBoost_idle_world by exact Hidle.
  rewrite scheduleAlarmsForRun_world.
  cbn [store alarms notifications timeouts tabs sent rngIx now notify
       createAlarm withAlarms withStore withRngIx storeWithCurrentRun
       isRunning runId daysCompleted logs keywords startTs immediateMode].
  split; [reflexivity |]. split; [apply lookup_insert_eq |].
  split; [| repeat split; reflexivity].
  intros ts Hin. apply lookup_insert_is_Some'. right.
  now apply sessionAlarms_lookup_in.
Qed.

Lemma startBoost_from_idle_witness :
  alarms (startBoost randomHalf showNumber None (emptyWorld 1000))
    !! "end-run-1000" = Some (endAlarmTime 1000)
  /\ notifications (startBoost randomHalf showNumber None (emptyWorld 1000))
     = ["ytboost-start-run-1000"].
Proof.
  pose proof (startBoost_from_idle randomHalf showNumber None (emptyWorld 1000)
                ltac:(reflexivity)) as H.
  cbn zeta in H. split.
  - exact (proj1 (proj2 H)).
  - exact (proj1 (proj2 (proj2 (proj2 H)))).
Defined.

(** X4. A stop straight after a start from an idle store leaves no
    session alarm of the new run, keeps its [end-] alarm, and leaves
    every other alarm as it was before the start. *)
Theorem start_then_stop_alarms (random : nat -> Q)
    (numberToString : Q -> string) (kws : option (list string)) (w : World)
    (name : string)
    (Hidle : JS.truthyBool (isRunning (store w)) = false) :
  let rid := "run-" ++ JS.showZ (now w) in
  alarms (stopBoost (startBoost random numberToString kws w)) !! name
  = if JS.startsWith name ("session-" ++ rid ++ "-") then None
    else if String.eqb name ("end-" ++ rid) then Some (endAlarmTime (now w))
    else alarms w !! name.
Proof.
  cbn zeta. rewrite alarms_stopBoost.
  rewrite startBoost_idle_world by exact Hidle.
  rewrite scheduleAlarmsForRun_world.
  set (rid := "run-" ++ JS.showZ (now w)).
  match goal with
  | |- context [stopRunId ?s] =>
      replace (stopRunId s) with (Some rid) by reflexivity
  end.
  cbn [store alarms notify createAlarm withAlarms withStore withRngIx
       storeWithCurrentRun now rngIx].
  replace (JS.truthyStr (Some rid)) with true by reflexivity.
  cbn [andb].
  destruct (JS.startsWith name ("session-" ++ rid ++ "-")) eqn:Hp;
    [reflexivity |].
  destruct (String.eqb_spec name ("end-" ++ rid)) as [-> | Hne].
  - apply lookup_insert_eq.
  - rewrite lookup_insert_ne by congruence.
    now apply sessionAlarms_lookup_other.
Qed.

Lemma start_then_stop_alarms_witness :
  alarms (stopBoost (startBoost randomHalf showNumber None (emptyWorld 1000)))
    !! "session-run-1000-10801000" = None
  /\ alarms (stopBoost (startBoost randomHalf showNumber None
                          (emptyWorld 1000)))
       !! "end-run-1000" = Some (endAlarmTime 1000).
Proof.
  split.
  - exact (start_then_stop_alarms randomHalf showNumber None (emptyWorld 1000)
             "session-run-1000-10801000" ltac:(reflexivity)).
  - exact (start_then_stop_alarms randomHalf showNumber None (emptyWorld 1000)
             "end-run-1000" ltac:(reflexivity)).
Defined.

(** X5. [stop] is idempotent on the store and on the alarm table, never
    touches the log, the keywords, the start time or [daysCompleted],
    and with no run id in the store it leaves every alarm in place. *)
Theorem stopBoost_idempotent (w : World) :
  store (stopBoost (stopBoost w)) = store (stopBoost w)
  /\ alarms (stopBoost (stopBoost w)) = alarms (stopBoost w)
  /\ isRunning (store (stopBoost w)) = Some false
  /\ runId (store (stopBoost w)) = None
  /\ logs (store (stopBoost w)) = logs (store w)
  /\ keywords (store (stopBoost w)) = keywords (store w)
  /\ startTs (store (stopBoost w)) = startTs (store w)
  /\ daysCompleted (store (stopBoost w)) = daysCompleted (store w)
  /\ (stopRunId (store w) = None -> alarms (stopBoost w) = alarms w).
Proof.
  repeat split; try reflexivity.
  intros Hnone. unfold stopBoost. rewrite Hnone. reflexivity.
Qed.

(** ** Alarm listener: session alarms *)

(** X6. A session alarm changes nothing when no run is active, and
    nothing when the run id read out of its name is not the stored
    one. *)
Theorem onAlarm_ignores_session_alarm (random : nat -> Q)
    (injects : Z -> option string) (name : string) (w : World)
    (Hname : JS.startsWith name "session-" = true)
    (Hcase : JS.truthyBool (isRunning (store w)) = false
             \/ exists r, runId (store w) = Some r /\ r <> ""
                          /\ alarmRunId name <> r) :
  onAlarm random injects name w = w.
Proof.
  destruct Hcase as [Hidle | (r & Hr & Hne & Hother)].
  - unfold onAlarm. rewrite Hname, Hidle. reflexivity.
  - eapply onAlarm_session_stale; eassumption.
Qed.

Lemma onAlarm_ignores_session_alarm_witness :
  onAlarm randomHalf injectsOk "session-run-999-5" startedWorld = startedWorld
  /\ onAlarm randomHalf injectsOk "session-run-1000-5" (stopBoost startedWorld)
     = stopBoost startedWorld.
Proof.
  split.
  - apply onAlarm_ignores_session_alarm; [reflexivity |].
    right. exists "run-1000".
    split; [vm_compute; reflexivity |].
    split; [discriminate | vm_compute; discriminate].
  - apply onAlarm_ignores_session_alarm; [reflexivity |].
    left. reflexivity.
Defined.

(** X7. The listener reads back the run id [scheduleAlarmsForRun] put
    into an alarm name, dashes in the run id included, as long as the
    printed timestamp has no dash. *)
Theorem alarmRunId_of_sessionAlarmName (numberToString : Q -> string)
    (rid : string) (ts : Q)
    (Hts : noDash (numberToString ts) = true) :
  alarmRunId (sessionAlarmName numberToString rid ts) = rid.
Proof. unfold sessionAlarmName. now apply alarmRunId_session. Qed.

Lemma alarmRunId_of_sessionAlarmName_witness :
  alarmRunId (sessionAlarmName showNumber "run-1000" (21602000 # 2)) = "run-1000".
Proof.
  apply alarmRunId_of_sessionAlarmName. vm_compute. reflexivity.
Defined.

(** ** Session dispatcher: one attempt per trigger *)

Lemma logsOf_setTimeout cb d w : logsOf (setTimeout cb d w) = logsOf w.
Proof. reflexivity. Qed.

Lemma in_removeTab t tb w : In tb (tabs (removeTab t w)) -> tabIdent tb <> t.
Proof.
  unfold removeTab. cbn [tabs withTabs]. intros Hin.
  apply filter_In in Hin as [_ Hne].
  apply negb_true_iff, Z.eqb_neq in Hne. exact Hne.
Qed.

(** X8. A scheduled trigger makes one attempt and arms no timer: with
    the script injected, one [startSession] message goes to the new
    background tab, with the run id of [currentRun] and the 900 s cap,
    and nothing is logged; when injection throws, nothing is sent, the
    tab is closed again and one [Injection failure] entry is logged. *)
Theorem triggerSession_single_attempt (random : nat -> Q)
    (injects : Z -> option string) (name : string) (w : World) :
  let w' := triggerSession random injects name w in
  let t := nextTabId w in
  let kws := match currentRun (store w) with
             | Some cr => runKeywords cr
             | None => defaultKeywords CONFIG
             end in
  timeouts w' = timeouts w /\ alarms w' = alarms w /\
  isRunning (store w') = isRunning (store w) /\
  runId (store w') = runId (store w) /\
  match injects t with
  | None =>
      sent w'
      = (sent w
         ++ [(t, {| paramKeyword := pickKeyword kws (random (rngIx w));
                    paramRunId := match currentRun (store w) with
                                  | Some cr => Some (id cr)
                                  | None => None
                                  end;
                    paramMaxWatchSeconds := 900 |})])%list
      /\ logsOf w' = logsOf w
      /\ tabs w' = (tabs w ++ [{| tabIdent := t; active := false |}])%list
  | Some err =>
      sent w' = sent w
      /\ logsOf w'
         = firstn (maxLogs CONFIG)
             (Formatted "error" "Injection failure" err (now w) :: logsOf w)
      /\ forall tb, In tb (tabs w') -> tabIdent tb <> t
  end.
Proof.
  cbn zeta. unfold triggerSession, draw, createTab.
  cbn [nextTabId withRngIx].
  destruct (injects (nextTabId w)) as [err |].
  - repeat split; try reflexivity.
    + rewrite logsOf_appendLog. reflexivity.
    + intros tb Hin. cbn [tabs appendLog withStore] in Hin.
      eapply in_removeTab. exact Hin.
  - repeat split; reflexivity.
Qed.

(** X9. When injection throws in immediate mode, nothing is sent, the
    tab is closed again, one [Session failure] entry is logged and the
    retry is armed exactly 30 s ahead with the same keywords and run
    id. *)
Theorem triggerImmediateSession_retry (random : nat -> Q)
    (injects : Z -> option string) (kws : list string) (rid : option string)
    (w : World) (err : string)
    (Hfail : injects (nextTabId w) = Some err) :
  let w' := triggerImmediateSession random injects kws rid w in
  sent w' = sent w
  /\ timeouts w'
     = (timeouts w ++ [{| delay := 30000; callback := CbTrigger kws rid |}])%list
  /\ logsOf w'
     = firstn (maxLogs CONFIG)
         (Formatted "error" "Session failure" err (now w) :: logsOf w)
  /\ forall tb, In tb (tabs w') -> tabIdent tb <> nextTabId w.
Proof.
  cbn zeta. unfold triggerImmediateSession, draw, createTab.
  cbn [nextTabId withRngIx]. rewrite Hfail.
  repeat split; try reflexivity.
  - rewrite logsOf_setTimeout.
    rewrite logsOf_appendLog. reflexivity.
  - intros tb Hin. cbn [tabs setTimeout withTimeouts appendLog withStore] in Hin.
    eapply in_removeTab. exact Hin.
Qed.

Lemma triggerImmediateSession_retry_witness :
  timeouts (triggerImmediateSession randomHalf injectsFail ["x"] None
              (emptyWorld 0))
  = [{| delay := 30000; callback := CbTrigger ["x"] None |}].
Proof.
  exact (proj1 (proj2
    (triggerImmediateSession_retry randomHalf injectsFail ["x"] None
       (emptyWorld 0) "Error: no tab" ltac:(reflexivity)))).
Defined.

(** ** Immediate mode: the delays *)

Lemma floor_scaled_unit (r : Q) :
  (0 <= r /\ r < 1)%Q -> 0 <= Qfloor (r * 10000)%Q < 10000.
Proof.
  intros [H0 H1]. split.
  - assert (H : (inject_Z 0 <= r * 10000)%Q).
    { change (inject_Z 0) with 0%Q. lra. }
    apply Qfloor_resp_le in H. now rewrite Qfloor_Z in H.
  - pose proof (Qfloor_le (r * 10000)%Q) as Hf.
    assert (Hlt : (inject_Z (Qfloor (r * 10000)%Q) < inject_Z 10000)%Q).
    { eapply Qle_lt_trans; [exact Hf |]. change (inject_Z 10000) with 10000%Q.
      lra. }
    now rewrite <- Zlt_Qlt in Hlt.
Qed.

(** X10. With draws in [[0, 1)], the result listener arms the next
    immediate session a whole number of milliseconds from 5000 to
    14999 ahead, and the response callback arms it between 30 s and
    2 min ahead. *)
Theorem rearm_delays_in_range (random : nat -> Q)
    (Hrandom : UnitInterval random) :
  (forall a w,
     exists d,
       timeouts (onResponse random a w)
       = (timeouts w
          ++ [{| delay := d;
                 callback := CbTrigger (awaitKeywords a) (awaitRunId a) |}])%list
       /\ (30000 <= d /\ d < 120000)%Q) /\
  (forall r tab w kws,
     keywords (store w) = Some kws ->
     JS.truthyBool (immediateMode (store w)) = true ->
     JS.truthyBool (isRunning (store w)) = true ->
     exists d : Z,
       timeouts (onSessionResult random (MsgSessionResult r) tab w)
       = (timeouts w
          ++ [{| delay := inject_Z d;
                 callback := CbTrigger kws (runId (store w)) |}])%list
       /\ 5000 <= d < 15000).
Proof.
  split.
  - intros a w. eexists. split; [apply onResponse_arms_trigger |].
    pose proof (rand_bounds (random (rngIx w)) 30000 120000
                  (Hrandom (rngIx w)) ltac:(discriminate)) as [Hlo _].
    pose proof (rand_lt (random (rngIx w)) 30000 120000
                  (Hrandom (rngIx w)) ltac:(reflexivity)) as Hhi.
    split; assumption.
  - intros r tab w kws Hk Him Hrun.
    destruct (onSessionResult_effect random r tab w) as (_ & Ht & _).
    cbn zeta in Ht. unfold timeoutsAfterResult in Ht.
    rewrite Hk, Him, Hrun in Ht. cbn [andb] in Ht.
    eexists. split; [exact Ht |].
    pose proof (floor_scaled_unit _ (Hrandom (rngIx w))). lia.
Qed.

Lemma rearm_delays_in_range_witness :
  exists d,
    timeouts (onResponse randomHalf
                {| awaitTab := 1; awaitKeywords := ["x"]; awaitRunId := None |}
                (emptyWorld 0))
    = [{| delay := d; callback := CbTrigger ["x"] None |}]
    /\ (30000 <= d /\ d < 120000)%Q.
Proof.
  exact (proj1 (rearm_delays_in_range randomHalf randomHalf_unit)
           {| awaitTab := 1; awaitKeywords := ["x"]; awaitRunId := None |}
           (emptyWorld 0)).
Defined.

(** ** Result listener: day counter *)

(** X11. After a result, with a start time in the store that is not in
    the future, [daysCompleted] is the number of the day begun since
    the start, capped at 7: at least 1, at most 7, equal to 1 during
    the first 24 hours and to 7 from the seventh day on. *)
Theorem daysCompleted_after_result (random : nat -> Q)
    (r : option SessionResult) (tab : option Z) (w : World) (st : Z)
    (Hst : startTs (store w) = Some st) (Hnz : st <> 0)
    (Hpast : st <= now w) :
  exists d,
    daysCompleted (store (onSessionResult random (MsgSessionResult r) tab w))
    = Some d
    /\ d = Z.min ((now w - st) / dayMs + 1) 7
    /\ 1 <= d <= 7
    /\ (now w - st < dayMs -> d = 1)
    /\ (6 * dayMs <= now w - st -> d = 7).
Proof.
  destruct (onSessionResult_effect random r tab w) as (Hs & _ & _).
  cbn zeta in Hs. rewrite Hs. cbn [daysCompleted].
  unfold daysCompletedAfter. rewrite Hst.
  destruct (Z.eqb_spec st 0); [contradiction |].
  eexists. split; [reflexivity |]. split; [reflexivity |].
  assert (Hday : 0 < dayMs) by reflexivity.
  assert (Hq : 0 <= (now w - st) / dayMs) by (apply Z.div_pos; lia).
  change (days CONFIG) with 7.
  split; [lia |]. split.
  - intros Hfirst. rewrite Z.div_small by lia. reflexivity.
  - intros Hlast.
    assert (6 <= (now w - st) / dayMs) by (apply Z.div_le_lower_bound; lia).
    lia.
Qed.

Lemma daysCompleted_after_result_witness :
  exists d,
    daysCompleted
      (store (onSessionResult randomHalf (MsgSessionResult None) None
                (withNow 200000000 startedWorld)))
    = Some d
    /\ d = Z.min ((200000000 - 1000) / dayMs + 1) 7.
Proof.
  destruct (daysCompleted_after_result randomHalf None None
              (withNow 200000000 startedWorld) 1000
              ltac:(vm_compute; reflexivity) ltac:(discriminate)
              ltac:(vm_compute; discriminate))
    as (d & Hd & Heq & _).
  exists d. split; [exact Hd | exact Heq].
Defined.

(** ** Control surface: the replies *)

Section Replies.

Variable random : nat -> Q.
Variable numberToString : Q -> string.
Variable injects : Z -> option string.

Lemma responses_startBoost kws w :
  responses (startBoost random numberToString kws w) = responses w.
Proof.
  destruct (JS.truthyBool (isRunning (store w))) eqn:Hrun.
  - unfold startBoost. rewrite Hrun. reflexivity.
  - rewrite startBoost_idle_world by exact Hrun.
    rewrite scheduleAlarmsForRun_world. reflexivity.
Qed.

Lemma responses_triggerImmediateSession kws rid w :
  responses (triggerImmediateSession random injects kws rid w) = responses w.
Proof.
  unfold triggerImmediateSession, draw, createTab.
  destruct (injects _); reflexivity.
Qed.

Lemma responses_stopBoost w : responses (stopBoost w) = responses w.
Proof.
  unfold stopBoost.
  destruct (stopRunId (store w)) as [r |];
    [destruct (JS.truthyStr (Some r)) |]; reflexivity.
Qed.

Lemma responses_onSessionResult m tab w :
  responses (onSessionResult random m tab w) = responses w.
Proof.
  destruct m as [r | | |]; try reflexivity.
  unfold onSessionResult, draw.
  destruct tab as [t |]; [destruct (truthyTab (Some t)) |];
    cbn [store appendLog withStore removeTab withTabs keywords immediateMode
         isRunning];
    (destruct (keywords (appendLogStore CONFIG _ (store w))) as [k |];
     [destruct (_ && _) |]); reflexivity.
Qed.

End Replies.

(** X12. Every control message is answered once: [start] and
    [startImmediate] with [started] - also when [start] found a run
    active and started nothing -, [stop] with [stopped]; a result
    message is answered [received], by the first listener only, and a
    result message without a result is not answered at all. *)
Theorem control_replies (random : nat -> Q) (numberToString : Q -> string)
    (injects : Z -> option string) (tab : option Z) (w : World) :
  (forall kws,
     responses (onMessage random numberToString injects (MsgStart kws) tab w)
     = (responses w ++ ["started"])%list) /\
  (forall kws,
     responses (onMessage random numberToString injects
                  (MsgStartImmediate kws) tab w)
     = (responses w ++ ["started"])%list) /\
  responses (onMessage random numberToString injects MsgStop tab w)
  = (responses w ++ ["stopped"])%list /\
  (forall r,
     responses (onMessage random numberToString injects
                  (MsgSessionResult (Some r)) tab w)
     = (responses w ++ ["received"])%list) /\
  responses (onMessage random numberToString injects
               (MsgSessionResult None) tab w)
  = responses w.
Proof.
  repeat split; intros; rewrite onMessage_net, responses_onSessionResult;
    cbn [onControl firstReply responses respond].
  - now rewrite responses_startBoost.
  - unfold startImmediateSessions.
    now rewrite responses_triggerImmediateSession.
  - now rewrite responses_stopBoost.
  - reflexivity.
  - reflexivity.
Qed.

(** X13. A result message without a result: the first listener throws
    on [result.success] and logs nothing, the later one logs the empty
    object with the time and the sender's tab; the log grows by that one
    entry. *)
Theorem missing_result_logged_once (random : nat -> Q)
    (numberToString : Q -> string) (injects : Z -> option string)
    (tab : option Z) (w : World) :
  logsOf (onMessage random numberToString injects (MsgSessionResult None) tab w)
  = firstn (maxLogs CONFIG) (Raw emptyResult (now w) tab :: logsOf w).
Proof.
  rewrite onMessage_no_result.
  apply logsOf_onSessionResult.
Qed.

(** ** The log across all events *)

Lemma LogKept_same w w' : logsOf w' = logsOf w -> LogKept 0 w w'.
Proof. intros H. now left. Qed.

Lemma LogKept_mono n m w w' : (n <= m)%nat -> LogKept n w w' -> LogKept m w w'.
Proof.
  intros Hnm [H | (new & Hlen & H)]; [now left |].
  right. exists new. split; [lia | exact H].
Qed.

Lemma LogKept_trans n1 n2 a b c :
  LogKept n1 a b -> LogKept n2 b c -> LogKept (n1 + n2) a c.
Proof.
  intros [Hab | (l1 & Hl1 & Hab)] [Hbc | (l2 & Hl2 & Hbc)].
  - left. congruence.
  - right. exists l2. split; [lia | now rewrite Hbc, Hab].
  - right. exists l1. split; [lia | now rewrite Hbc, Hab].
  - right. exists (l2 ++ l1)%list. split.
    + rewrite length_app. lia.
    + rewrite Hbc, Hab, firstn_app_firstn. now rewrite <- app_assoc.
Qed.

Lemma LogKept_appendLog e w : LogKept 1 w (appendLog e w).
Proof. right. exists [e]. split; [cbn; lia | apply logsOf_appendLog]. Qed.

Lemma LogKept_length n w w' :
  LogKept n w w' ->
  (length (logsOf w) <= maxLogs CONFIG)%nat ->
  (length (logsOf w') <= maxLogs CONFIG)%nat.
Proof.
  intros [-> | (new & _ & ->)] Hlen; [exact Hlen | apply firstn_le_length].
Qed.

(** On a log within the cap, an untouched log is the case of no new
    entry. *)
Lemma LogKept_exists n w w' :
  (length (logsOf w) <= maxLogs CONFIG)%nat ->
  LogKept n w w' ->
  exists new,
    (length new <= n)%nat
    /\ logsOf w' = firstn (maxLogs CONFIG) (new ++ logsOf w).
Proof.
  intros Hcap [H | H]; [| exact H].
  exists []. split; [cbn; lia |].
  rewrite H. cbn [app]. symmetry. now apply firstn_all2.
Qed.

Section LogInvariant.

Variable random : nat -> Q.
Variable numberToString : Q -> string.
Variable injects : Z -> option string.

Lemma LogKept_triggerImmediateSession kws rid w :
  LogKept 1 w (triggerImmediateSession random injects kws rid w).
Proof.
  unfold triggerImmediateSession, draw, createTab.
  destruct (injects _) as [err |].
  - right. eexists [_]. split; [cbn; lia |].
    rewrite logsOf_setTimeout, logsOf_appendLog. reflexivity.
  - now left.
Qed.

Lemma LogKept_triggerSession name w :
  LogKept 1 w (triggerSession random injects name w).
Proof.
  unfold triggerSession, draw, createTab.
  destruct (injects _) as [err |].
  - right. eexists [_]. split; [cbn; lia |].
    rewrite logsOf_appendLog. reflexivity.
  - now left.
Qed.

Lemma logsOf_startBoost kws w :
  logsOf (startBoost random numberToString kws w) = logsOf w.
Proof.
  destruct (JS.truthyBool (isRunning (store w))) eqn:Hrun.
  - unfold startBoost. rewrite Hrun. reflexivity.
  - rewrite startBoost_idle_world by exact Hrun.
    rewrite scheduleAlarmsForRun_world. reflexivity.
Qed.

Lemma logsOf_stopBoost w : logsOf (stopBoost w) = logsOf w.
Proof.
  unfold stopBoost.
  destruct (stopRunId (store w)) as [r |];
    [destruct (JS.truthyStr (Some r)) |]; reflexivity.
Qed.

Lemma LogKept_onAlarm name w : LogKept 1 w (onAlarm random injects name w).
Proof.
  unfold onAlarm.
  destruct (JS.startsWith name "session-").
  - destruct (_ || _); [now left | apply LogKept_triggerSession].
  - destruct (JS.startsWith name "end-"); now left.
Qed.

Lemma LogKept_onMessage m tab w :
  LogKept 1 w (onMessage random numberToString injects m tab w).
Proof.
  rewrite onMessage_net.
  destruct m as [r | kws | kws |];
    [| cbn [onControl onSessionResult firstReply] ..].
  - right.
    exists [Raw (match r with Some x => x | None => emptyResult end)
                (now w) tab].
    split; [cbn; lia |].
    rewrite logsOf_onSessionResult. now destruct r.
  - left. apply logsOf_startBoost.
  - unfold startImmediateSessions.
    exact (LogKept_triggerImmediateSession _ _ _).
  - left. apply logsOf_stopBoost.
Qed.

Lemma LogKept_step e w :
  e <> EvPopupClearLogs ->
  LogKept 1 w (step random numberToString injects e w).
Proof.
  intros Hne. destruct e as [m tab | name | i | i | t | kws |]; cbn [step].
  - apply LogKept_onMessage.
  - destruct (alarms w !! name); [| now left].
    apply (LogKept_trans 0 1 _ (withAlarms (delete name (alarms w)) w));
      [now left | apply LogKept_onAlarm].
  - destruct (nth_error (timeouts w) i) as [[d [t p kws rid | kws rid]] |];
      cbn [callback runCallback]; [now left | | now left].
    apply (LogKept_trans 0 1 _ (withTimeouts (dropNth i (timeouts w)) w));
      [now left | apply LogKept_triggerImmediateSession].
  - destruct (nth_error (awaiting w) i); now left.
  - now left.
  - now left.
  - contradiction.
Qed.

Lemma LogKept_run es w :
  ~ In EvPopupClearLogs es ->
  LogKept (length es) w (run random numberToString injects es w).
Proof.
  revert w. induction es as [| e es IH]; intros w Hno; [now left |].
  unfold run. cbn [fold_left length].
  apply (LogKept_trans 1 (length es) _
           (step random numberToString injects e w)).
  - apply LogKept_step. intros ->. apply Hno. now left.
  - apply IH. intros Hin. apply Hno. now right.
Qed.

End LogInvariant.

(** X14. Apart from the popup's [Clear logs], no event ever drops or
    reorders what the log holds, and none writes more than one entry:
    after any events - starts, stops, alarms, timers, results - the log
    is the old log with at most one new entry per event on top of it, the
    oldest entries falling off at the cap of 50.  So as long as fewer than
    50 events have arrived, the entries that were there and still fit
    are all present, in their order, under the new ones.  Logs persist
    across runs. *)
Theorem log_kept_by_worker (random : nat -> Q) (numberToString : Q -> string)
    (injects : Z -> option string) (es : list Event) (w : World)
    (Hnoclear : ~ In EvPopupClearLogs es)
    (Hcap : (length (logsOf w) <= maxLogs CONFIG)%nat) :
  exists new,
    (length new <= length es)%nat /\
    logsOf (run random numberToString injects es w)
    = firstn (maxLogs CONFIG) (new ++ logsOf w).
Proof.
  apply LogKept_exists; [exact Hcap |].
  now apply LogKept_run.
Qed.

Lemma log_kept_by_worker_witness :
  exists new,
    (length new <= 2)%nat /\
    logsOf (run randomHalf showNumber injectsOk
              [EvMessage (MsgStart None) None; EvMessage MsgStop None]
              (appendAll manyEntries (emptyWorld 0)))
    = firstn (maxLogs CONFIG)
        (new ++ logsOf (appendAll manyEntries (emptyWorld 0))).
Proof.
  apply (log_kept_by_worker randomHalf showNumber injectsOk
           [EvMessage (MsgStart None) None; EvMessage MsgStop None]
           (appendAll manyEntries (emptyWorld 0))).
  - intros [H | [H | []]]; discriminate.
  - vm_compute. lia.
Defined.

(** X15. In every world the worker reaches from one whose log holds at
    most 50 entries, whatever events arrive, the log holds at most 50
    entries. *)
Theorem log_never_exceeds_cap (random : nat -> Q)
    (numberToString : Q -> string) (injects : Z -> option string)
    (es : list Event) (w : World)
    (Hcap : (length (logsOf w) <= maxLogs CONFIG)%nat) :
  (length (logsOf (run random numberToString injects es w))
   <= maxLogs CONFIG)%nat.
Proof.
  revert w Hcap. induction es as [| e es IH]; intros w Hcap; [exact Hcap |].
  unfold run. cbn [fold_left]. apply IH.
  destruct e as [m tab | name | i | i | t | kws |];
    try (eapply LogKept_length;
         [apply (LogKept_step random numberToString injects); discriminate
         | exact Hcap]).
  cbn. lia.
Qed.

Lemma log_never_exceeds_cap_witness :
  (length (logsOf (run randomHalf showNumber injectsFail
                     [EvMessage (MsgStartImmediate None) None; EvTimeout 0;
                      EvTimeout 0]
                     (appendAll manyEntries (emptyWorld 0))))
   <= maxLogs CONFIG)%nat.
Proof.
  apply log_never_exceeds_cap.
  vm_compute. lia.
Defined.

(** ** The run state across all events *)

Lemma digitsOnly_uint (u : Decimal.uint) :
  digitsOnly (NilEmpty.string_of_uint u) = true.
Proof. induction u; cbn [NilEmpty.string_of_uint digitsOnly]; auto. Qed.

Lemma digitsOnly_showZ (z : Z) : 0 <= z -> digitsOnly (JS.showZ z) = true.
Proof.
  intros Hz. unfold JS.showZ. destruct z as [| p | p]; [reflexivity | | lia].
  cbn [Z.to_int NilZero.string_of_int]. unfold NilZero.string_of_uint.
  destruct (Pos.to_uint p) eqn:Hp; try (rewrite <- Hp; apply digitsOnly_uint).
  reflexivity.
Qed.

Lemma RunStateOk_frame w w' : Frame w w' -> RunStateOk w -> RunStateOk w'.
Proof.
  intros (Hnow & Hrun & Hid & Hcr) (H0 & Heq & Hwf & Hidle).
  unfold RunStateOk. rewrite Hnow, Hrun, Hid, Hcr. repeat split; assumption.
Qed.

Lemma Frame_refl w : Frame w w.
Proof. repeat split; reflexivity. Qed.

Lemma Frame_trans a b c : Frame a b -> Frame b c -> Frame a c.
Proof.
  intros (H1 & H2 & H3 & H4) (H5 & H6 & H7 & H8).
  repeat split; congruence.
Qed.

Section RunInvariant.

Variable random : nat -> Q.
Variable numberToString : Q -> string.
Variable injects : Z -> option string.

Lemma Frame_triggerImmediateSession kws rid w :
  Frame w (triggerImmediateSession random injects kws rid w).
Proof.
  unfold triggerImmediateSession, draw, createTab.
  destruct (injects _); repeat split; reflexivity.
Qed.

Lemma Frame_triggerSession name w :
  Frame w (triggerSession random injects name w).
Proof.
  unfold triggerSession, draw, createTab.
  destruct (injects _); repeat split; reflexivity.
Qed.

Lemma Frame_firstReply m w : Frame w (firstReply m w).
Proof.
  destruct m as [[r |] | | |]; try apply Frame_refl.
  repeat split; reflexivity.
Qed.

Lemma Frame_onSessionResult m tab w :
  Frame w (onSessionResult random m tab w).
Proof.
  destruct m as [r | | |]; try apply Frame_refl.
  destruct (onSessionResult_effect random r tab w) as (Hs & _ & _).
  cbn zeta in Hs. split.
  - unfold onSessionResult, draw.
    destruct tab as [t |]; [destruct (truthyTab (Some t)) |];
      cbn [store appendLog withStore removeTab withTabs keywords
           immediateMode isRunning];
      (destruct (keywords (appendLogStore CONFIG _ (store w))) as [k |];
       [destruct (_ && _) |]); reflexivity.
  - unfold SameRun. rewrite Hs. repeat split; reflexivity.
Qed.

Lemma RunStateOk_startBoost kws w :
  RunStateOk w -> RunStateOk (startBoost random numberToString kws w).
Proof.
  intros Hw. destruct (JS.truthyBool (isRunning (store w))) eqn:Hrun.
  - revert Hw. apply RunStateOk_frame.
    unfold startBoost. rewrite Hrun. repeat split; reflexivity.
  - destruct Hw as (H0 & _ & _ & _).
    rewrite startBoost_idle_world by exact Hrun.
    rewrite scheduleAlarmsForRun_world.
    unfold RunStateOk.
    cbn [store now notify createAlarm withAlarms withStore withRngIx
         storeWithCurrentRun isRunning runId currentRun].
    split; [exact H0 |]. split; [reflexivity |]. split.
    + intros r [= <-]. exists (JS.showZ (now w)).
      split; [now apply digitsOnly_showZ | now left].
    + discriminate.
Qed.

Lemma RunStateOk_startImmediateSessions kws w :
  RunStateOk w -> RunStateOk (startImmediateSessions random injects kws w).
Proof.
  intros (H0 & _ & _ & _). unfold startImmediateSessions.
  eapply RunStateOk_frame; [apply Frame_triggerImmediateSession |].
  unfold RunStateOk.
  cbn [store now notify withStore isRunning runId currentRun].
  split; [exact H0 |]. split; [reflexivity |]. split.
  - intros r [= <-]. exists (JS.showZ (now w)).
    split; [now apply digitsOnly_showZ | now right].
  - discriminate.
Qed.

Lemma RunStateOk_stopBoost w : RunStateOk w -> RunStateOk (stopBoost w).
Proof.
  intros (H0 & _ & _ & _). unfold stopBoost.
  destruct (stopRunId (store w)) as [r |];
    [destruct (JS.truthyStr (Some r)) |];
    (split; [exact H0 |]; split; [reflexivity |]; split;
     [discriminate | reflexivity]).
Qed.

Lemma RunStateOk_onAlarm name w :
  RunStateOk w -> RunStateOk (onAlarm random injects name w).
Proof.
  intros Hw. unfold onAlarm.
  destruct (JS.startsWith name "session-").
  - destruct (_ || _); [exact Hw |].
    revert Hw. apply RunStateOk_frame, Frame_triggerSession.
  - destruct (JS.startsWith name "end-"); [| exact Hw].
    destruct Hw as (H0 & _ & _ & _).
    split; [exact H0 |]. split; [reflexivity |]. split;
      [discriminate | reflexivity].
Qed.

Lemma RunStateOk_onControl m w :
  RunStateOk w -> RunStateOk (onControl random numberToString injects m w).
Proof.
  intros Hw. destruct m as [r | kws | kws |]; cbn [onControl].
  - exact Hw.
  - eapply RunStateOk_frame; [| apply RunStateOk_startBoost; exact Hw].
    repeat split; reflexivity.
  - eapply RunStateOk_frame;
      [| apply RunStateOk_startImmediateSessions; exact Hw].
    repeat split; reflexivity.
  - eapply RunStateOk_frame; [| apply RunStateOk_stopBoost; exact Hw].
    repeat split; reflexivity.
Qed.

Lemma RunStateOk_step e w :
  RunStateOk w -> RunStateOk (step random numberToString injects e w).
Proof.
  intros Hw. destruct e as [m tab | name | i | i | t | kws |]; cbn [step].
  - rewrite onMessage_net.
    eapply RunStateOk_frame; [apply Frame_onSessionResult |].
    apply RunStateOk_onControl.
    revert Hw. apply RunStateOk_frame, Frame_firstReply.
  - destruct (alarms w !! name); [| exact Hw].
    apply RunStateOk_onAlarm. revert Hw.
    apply RunStateOk_frame. repeat split; reflexivity.
  - destruct (nth_error (timeouts w) i) as [[d [t p kws rid | kws rid]] |];
      cbn [callback runCallback]; [| | exact Hw].
    + revert Hw. apply RunStateOk_frame. repeat split; reflexivity.
    + eapply RunStateOk_frame; [apply Frame_triggerImmediateSession |].
      revert Hw. apply RunStateOk_frame. repeat split; reflexivity.
  - destruct (nth_error (awaiting w) i); [| exact Hw].
    revert Hw. apply RunStateOk_frame. repeat split; reflexivity.
  - destruct Hw as (H0 & H1 & H2 & H3).
    split; [cbn [now withNow]; lia |]. repeat split; assumption.
  - revert Hw. apply RunStateOk_frame. repeat split; reflexivity.
  - revert Hw. apply RunStateOk_frame. repeat split; reflexivity.
Qed.

Lemma RunStateOk_run es w :
  RunStateOk w -> RunStateOk (run random numberToString injects es w).
Proof.
  revert w. induction es as [| e es IH]; intros w Hw; [exact Hw |].
  unfold run. cbn [fold_left]. apply IH. now apply RunStateOk_step.
Qed.

End RunInvariant.

(** X16. In every world the worker reaches from an empty store, with
    the clock at or after the epoch and whatever events arrive: a run
    id is stored exactly when [isRunning] is set, a stored run id has
    the form [run-<digits>] or [immediate-<digits>], and with no run
    active no [currentRun] is stored. *)
Theorem run_state_invariant (random : nat -> Q) (numberToString : Q -> string)
    (injects : Z -> option string) (es : list Event) (t0 : Z)
    (Ht0 : 0 <= t0) :
  let w := run random numberToString injects es (emptyWorld t0) in
  JS.truthyBool (isRunning (store w)) = JS.truthyStr (runId (store w))
  /\ (forall r, runId (store w) = Some r -> WellFormedRunId r)
  /\ (JS.truthyBool (isRunning (store w)) = false ->
      currentRun (store w) = None).
Proof.
  cbn zeta.
  assert (Hinit : RunStateOk (emptyWorld t0)).
  { split; [exact Ht0 |]. split; [reflexivity |]. split;
      [discriminate | reflexivity]. }
  destruct (RunStateOk_run random numberToString injects es _ Hinit)
    as (_ & H1 & H2 & H3).
  repeat split; assumption.
Qed.

Lemma run_state_invariant_witness :
  JS.truthyBool (isRunning (store secondImmediateRun))
  = JS.truthyStr (runId (store secondImmediateRun)).
Proof.
  exact (proj1 (run_state_invariant randomHalf showNumber injectsOk
                  [EvMessage (MsgStartImmediate (Some ["x"])) None;
                   EvTimeout 0; EvMessage MsgStop None; EvClock 2000;
                   EvMessage (MsgStartImmediate (Some ["y"])) None]
                  1000 ltac:(lia))).
Defined.

(** ** Keyword choice with draws in range *)

Lemma floor_index_in_range (r : Q) (n : nat) :
  (0 <= r /\ r < 1)%Q -> (0 < n)%nat ->
  0 <= Qfloor (r * inject_Z (Z.of_nat n))%Q < Z.of_nat n.
Proof.
  intros [H0 H1] Hn.
  assert (Hpos : (0 < inject_Z (Z.of_nat n))%Q).
  { change 0%Q with (inject_Z 0). rewrite <- Zlt_Qlt. lia. }
  split.
  - assert (H : (inject_Z 0 <= r * inject_Z (Z.of_nat n))%Q).
    { change (inject_Z 0) with 0%Q. apply Qmult_le_0_compat;
        [exact H0 | apply Qlt_le_weak, Hpos]. }
    apply Qfloor_resp_le in H. now rewrite Qfloor_Z in H.
  - pose proof (Qfloor_le (r * inject_Z (Z.of_nat n))%Q) as Hf.
    assert (Hlt : (r * inject_Z (Z.of_nat n) < 1 * inject_Z (Z.of_nat n))%Q)
      by (apply Qmult_lt_compat_r; assumption).
    assert (Hlt' : (inject_Z (Qfloor (r * inject_Z (Z.of_nat n)))
                    < inject_Z (Z.of_nat n))%Q).
    { eapply Qle_lt_trans; [exact Hf |]. now rewrite Qmult_1_l in Hlt. }
    now rewrite <- Zlt_Qlt in Hlt'.
Qed.

(** X17. With a draw in [[0, 1)] and a non-empty list without empty
    strings, the keyword picked is an element of the list: the built-in
    fallback is not used. *)
Theorem pickKeyword_from_list (kws : list string) (r : Q)
    (Hr : (0 <= r /\ r < 1)%Q)
    (Hne : kws <> [])
    (Hfull : forall k, In k kws -> k <> "") :
  exists k, pickKeyword kws r = Some k /\ In k kws.
Proof.
  assert (Hlen : (0 < length kws)%nat) by (destruct kws; [congruence | cbn; lia]).
  pose proof (floor_index_in_range r (length kws) Hr Hlen) as [Hi0 Hi1].
  unfold pickKeyword.
  set (i := Qfloor (r * inject_Z (Z.of_nat (length kws)))%Q) in *.
  destruct (nth_error kws (Z.to_nat i)) as [k |] eqn:Hk;
    [| apply nth_error_None in Hk; lia].
  assert (Hidx : JS.index kws i = Some k).
  { unfold JS.index.
    replace (i <? 0) with false by (symmetry; apply Z.ltb_ge; lia).
    exact Hk. }
  assert (Hin : In k kws) by (eapply nth_error_In; eassumption).
  exists k. rewrite Hidx. cbn [JS.truthyStr].
  destruct (String.eqb_spec k "") as [-> | _];
    [exfalso; now apply (Hfull "") | cbn [negb]].
  split; [reflexivity | exact Hin].
Qed.

Lemma pickKeyword_from_list_witness :
  exists k, pickKeyword ["a"; "b"; "c"] (1 # 2) = Some k
            /\ In k ["a"; "b"; "c"].
Proof.
  apply pickKeyword_from_list.
  - split; [discriminate | reflexivity].
  - discriminate.
  - intros k [<- | [<- | [<- | []]]]; discriminate.
Defined.

(** ** Content script *)

Lemma append_empty_r (s : string) : s ++ "" = s.
Proof.
  induction s as [| c s IH]; [reflexivity |].
  now rewrite append_cons, IH.
Qed.

Lemma varyKeyword_cases (r : Q) (keyword : string)
    (Hr : (0 <= r /\ r < 1)%Q) :
  exists v,
    Content.varyKeyword r keyword = Some v
    /\ (v = keyword \/ v = keyword ++ " 2025" \/ v = "beginner " ++ keyword
        \/ v = keyword ++ " tutorial" \/ v = keyword ++ " best").
Proof.
  unfold Content.varyKeyword.
  change (Z.of_nat (length Content.variations) - 1) with 4.
  pose proof (randInt_bounds r 0 4 Hr ltac:(lia)) as Hi.
  set (i := randInt r 0 4) in *.
  assert (Hcases : i = 0 \/ i = 1 \/ i = 2 \/ i = 3 \/ i = 4) by lia.
  destruct Hcases as [-> | [-> | [-> | [-> | ->]]]];
    eexists; (split; [reflexivity |]); tauto.
Qed.

(** X18. With a draw in [[0, 1)], [varyKeyword] always finds one of its
    five variations: the keyword itself, or the keyword with [ 2025],
    [ tutorial] or [ best] after it or [beginner ] before it. *)
Theorem varyKeyword_defined (r : Q) (keyword : string)
    (Hr : (0 <= r /\ r < 1)%Q) :
  exists v,
    Content.varyKeyword r keyword = Some v
    /\ (v = keyword \/ v = keyword ++ " 2025" \/ v = "beginner " ++ keyword
        \/ v = keyword ++ " tutorial" \/ v = keyword ++ " best").
Proof. exact (varyKeyword_cases r keyword Hr). Qed.

Lemma varyKeyword_defined_witness :
  exists v,
    Content.varyKeyword (1 # 2) "cats" = Some v
    /\ (v = "cats" \/ v = "cats" ++ " 2025" \/ v = "beginner " ++ "cats"
        \/ v = "cats" ++ " tutorial" \/ v = "cats" ++ " best").
Proof.
  apply varyKeyword_defined. split; [discriminate | reflexivity].
Defined.

Lemma watchCurrentVideo_range (video : option Content.Duration)
    (m r : Q)
    (Hr : (0 <= r /\ r < 1)%Q) (Hm : (0 < m)%Q) :
  let watch := Content.watchCurrentVideo video (Some m) r in
  match video with
  | None => watch = 15%Q
  | Some dur =>
      let duration :=
        match dur with
        | Content.Finite d => if Qle_bool d 0 then 30%Q else d
        | Content.NotFinite => 30%Q
        end in
      (0 < watch /\ watch <= m /\ watch <= (8 # 10) * duration)%Q
  end.
Proof.
  cbn zeta. destruct video as [dur |]; [| reflexivity].
  unfold Content.watchCurrentVideo.
  set (duration := match dur with
                   | Content.Finite d => if Qle_bool d 0 then 30%Q else d
                   | Content.NotFinite => 30%Q
                   end).
  assert (Hd : (0 < duration)%Q).
  { subst duration. destruct dur as [d |]; [| reflexivity].
    destruct (Qle_bool d 0) eqn:Hle; [reflexivity |].
    apply Qnot_le_lt. intros Hc. apply Qle_bool_iff in Hc. congruence. }
  replace (Qeq_bool m 0) with false.
  2:{ symmetry. apply not_true_iff_false. intros Hc.
      apply Qeq_bool_iff in Hc. rewrite Hc in Hm. discriminate. }
  destruct (rand_bounds r (3 # 10) (8 # 10) Hr ltac:(discriminate))
    as [Hlo Hhi].
  assert (Hw : (0 < duration * rand r (3 # 10) (8 # 10))%Q).
  { apply Qmult_lt_0_compat; [exact Hd | lra]. }
  assert (Hw8 : (duration * rand r (3 # 10) (8 # 10)
                 <= (8 # 10) * duration)%Q).
  { rewrite (Qmult_comm (8 # 10)). apply Qmult_le_l; assumption. }
  destruct (Qle_bool (duration * rand r (3 # 10) (8 # 10)) m) eqn:Hcap.
  - apply Qle_bool_iff in Hcap. repeat split; assumption.
  - assert (Hgt : (m < duration * rand r (3 # 10) (8 # 10))%Q).
    { apply Qnot_le_lt. intros Hc. apply Qle_bool_iff in Hc. congruence. }
    repeat split; [exact Hm | apply Qle_refl | lra].
Qed.

(** X19. The watch time [watchCurrentVideo] reports: with a video
    element, a draw in [[0, 1)] and a positive cap it is positive, at
    most the cap and at most 0.8 of the duration taken (30 s when the
    duration is missing, not finite or not positive); without a video
    element it is 15 s, whatever the cap. *)
Theorem watchCurrentVideo_bounds (video : option Content.Duration)
    (m r : Q)
    (Hr : (0 <= r /\ r < 1)%Q) (Hm : (0 < m)%Q) :
  let watch := Content.watchCurrentVideo video (Some m) r in
  match video with
  | None => watch = 15%Q
  | Some dur =>
      let duration :=
        match dur with
        | Content.Finite d => if Qle_bool d 0 then 30%Q else d
        | Content.NotFinite => 30%Q
        end in
      (0 < watch /\ watch <= m /\ watch <= (8 # 10) * duration)%Q
  end.
Proof. exact (watchCurrentVideo_range video m r Hr Hm). Qed.

Lemma watchCurrentVideo_bounds_witness :
  (0 < Content.watchCurrentVideo (Some (Content.Finite 100)) (Some 900) (1 # 2)
   /\ Content.watchCurrentVideo (Some (Content.Finite 100)) (Some 900) (1 # 2)
      <= 900)%Q.
Proof.
  pose proof (watchCurrentVideo_bounds (Some (Content.Finite 100)) 900 (1 # 2)
                ltac:(split; [discriminate | reflexivity])
                ltac:(reflexivity)) as H.
  cbn zeta in H. split; [exact (proj1 H) | exact (proj1 (proj2 H))].
Defined.

(** ** Popup: the log pane *)

(** X20. The log pane shows the ten newest entries only, and an entry
    written by the first result listener - also the one it writes for a
    successful session - is displayed as a failure without text, at the
    current time. *)
Theorem renderLogs_shows_formatted_as_failed (toLocaleString : Z -> string)
    (nowString : string) :
  (forall logs,
     Popup.renderLogs toLocaleString nowString logs
     = Popup.renderLogs toLocaleString nowString (firstn 10 logs)) /\
  (forall kind message details t,
     Popup.renderItem toLocaleString nowString
       (Formatted kind message details t)
     = Popup.renderItem toLocaleString nowString (Raw emptyResult 0 None)) /\
  (forall result t,
     Popup.renderItem toLocaleString nowString (formattedEntry result t)
     = Popup.itemOpen ++ "⚠️ " ++ nowString ++ " — failed</div>").
Proof.
  split; [| split].
  - intros [| l logs]; [reflexivity |].
    unfold Popup.renderLogs, JS.take. cbn [firstn].
    now rewrite firstn_firstn.
  - reflexivity.
  - intros result t. unfold formattedEntry.
    destruct (success result); reflexivity.
Qed.

(** ** Content script: the links of the result page *)

Lemma NoDup_snoc {A} (l : list A) (x : A) :
  List.NoDup l -> ~ In x l -> List.NoDup (l ++ [x]).
Proof.
  induction l as [| a l IH]; intros Hnd Hnin; cbn [app].
  - constructor; [intros [] | constructor].
  - inversion Hnd as [| ? ? Ha Hl]; subst. constructor.
    + intros Hin. apply in_app_or in Hin as [Hin | [<- | []]];
        [now apply Ha | apply Hnin; now left].
    + apply IH; [exact Hl | intros Hin; apply Hnin; now right].
Qed.

Lemma NoDup_firstn {A} (n : nat) (l : list A) :
  List.NoDup l -> List.NoDup (firstn n l).
Proof.
  intros Hnd. rewrite <- (firstn_skipn n l) in Hnd.
  eapply NoDup_app_remove_r. exact Hnd.
Qed.

Lemma isVideoLink_href el :
  Content.isVideoLink el = true -> exists h, Content.href el = Some h.
Proof.
  unfold Content.isVideoLink. destruct (Content.href el) as [h |];
    [eauto | discriminate].
Qed.

Lemma existsb_sameHref el acc :
  Content.isVideoLink el = true ->
  In (Content.href el) (map Content.href acc) ->
  existsb (Content.sameHref el) acc = true.
Proof.
  intros Hv Hin. apply isVideoLink_href in Hv as [h Hh].
  apply in_map_iff in Hin as (a & Ha & Hina).
  apply existsb_exists. exists a. split; [exact Hina |].
  unfold Content.sameHref. rewrite Ha, Hh. apply String.eqb_refl.
Qed.

Lemma sameHref_href el a :
  Content.isVideoLink el = true -> Content.sameHref el a = true ->
  Content.href a = Content.href el.
Proof.
  intros Hv Hs. apply isVideoLink_href in Hv as [h Hh].
  unfold Content.sameHref in Hs. rewrite Hh in Hs.
  destruct (Content.href a) as [x |]; [| discriminate].
  apply String.eqb_eq in Hs. congruence.
Qed.

Lemma collect_good src els acc :
  (forall el, In el els -> In el src) ->
  GoodLinks src acc -> GoodLinks src (Content.collect els acc).
Proof.
  revert acc. induction els as [| el els IH]; intros acc Hsrc Hacc;
    [exact Hacc |].
  cbn [Content.collect].
  assert (Hrest : forall x, In x els -> In x src)
    by (intros x Hx; apply Hsrc; now right).
  destruct (Content.isVideoLink el) eqn:Hv; cbn [andb];
    [| now apply IH].
  destruct (existsb (Content.sameHref el) acc) eqn:Hex; cbn [negb];
    [now apply IH |].
  apply IH; [exact Hrest |].
  destruct Hacc as [Hnd Hall]. split.
  - rewrite map_app. cbn [map]. apply NoDup_snoc; [exact Hnd |].
    intros Hin. rewrite existsb_sameHref in Hex by assumption. discriminate.
  - intros x Hx. apply in_app_or in Hx as [Hx | [<- | []]];
      [now apply Hall |].
    split; [exact Hv | apply Hsrc; now left].
Qed.

(** Nothing collected is lost, and every visible video link met has its
    address collected. *)
Lemma collect_complete els acc :
  (forall a, In a acc -> In a (Content.collect els acc))
  /\ (forall el, In el els -> Content.isVideoLink el = true ->
        In (Content.href el) (map Content.href (Content.collect els acc))).
Proof.
  revert acc. induction els as [| el els IH]; intros acc.
  - split; [auto | intros el []].
  - cbn [Content.collect].
    destruct (Content.isVideoLink el
              && negb (existsb (Content.sameHref el) acc)) eqn:Hadd.
    + destruct (IH (acc ++ [el])%list) as [Hkeep Hnew]. split.
      * intros a Ha. apply Hkeep, in_or_app. now left.
      * intros x [<- | Hx] Hv; [| now apply Hnew].
        apply in_map, Hkeep, in_or_app. right. now left.
    + destruct (IH acc) as [Hkeep Hnew]. split; [exact Hkeep |].
      intros x [<- | Hx] Hv; [| now apply Hnew].
      rewrite Hv in Hadd. cbn [andb] in Hadd.
      apply negb_false_iff, existsb_exists in Hadd as (a & Ha & Hs).
      rewrite <- (sameHref_href el a Hv Hs).
      apply in_map, Hkeep, Ha.
Qed.

Lemma collectAll_good queries acc :
  GoodLinks (concat queries) acc ->
  GoodLinks (concat queries)
    (fold_left (fun acc els => Content.collect els acc) queries acc).
Proof.
  assert (Hgen : forall src qs a,
            (forall q, In q qs -> forall el, In el q -> In el src) ->
            GoodLinks src a ->
            GoodLinks src
              (fold_left (fun acc els => Content.collect els acc) qs a)).
  { intros src qs. induction qs as [| q qs IH]; intros a Hsrc Ha;
      [exact Ha |].
    cbn [fold_left]. apply IH.
    - intros q' Hq'. apply Hsrc. now right.
    - apply collect_good; [apply Hsrc; now left | exact Ha]. }
  apply Hgen. intros q Hq el Hel. apply in_concat. eauto.
Qed.

Lemma collectAll_complete queries acc :
  (forall a, In a acc ->
     In a (fold_left (fun acc els => Content.collect els acc) queries acc))
  /\ (forall q el, In q queries -> In el q ->
        Content.isVideoLink el = true ->
        In (Content.href el)
           (map Content.href
              (fold_left (fun acc els => Content.collect els acc)
                         queries acc))).
Proof.
  revert acc. induction queries as [| q qs IH]; intros acc.
  - split; [auto | intros q el []].
  - cbn [fold_left].
    destruct (IH (Content.collect q acc)) as [Hkeep Hnew].
    destruct (collect_complete q acc) as [Hk1 Hn1]. split.
    + intros a Ha. apply Hkeep, Hk1, Ha.
    + intros q' el [<- | Hq'] Hel Hv; [| eapply Hnew; eassumption].
      specialize (Hn1 el Hel Hv).
      apply in_map_iff in Hn1 as (a & Ha & Hina).
      rewrite <- Ha. apply in_map, Hkeep, Hina.
Qed.

(** X21. Whatever order the shuffle puts them in, the links
    [getAllVideosFromResults] returns are at most ten, have pairwise
    different addresses, and are visible video links ([/watch?v=] or
    [/shorts/], positive width and height) found by one of the queries;
    and when the page has at most ten different ones, the address of
    every visible video link on it is among them. *)
Theorem getAllVideosFromResults_sound
    (shuffle : list Content.Element -> list Content.Element)
    (queries : list (list Content.Element))
    (Hshuffle : forall l, Permutation (shuffle l) l) :
  let links := Content.getAllVideosFromResults shuffle queries in
  (length links <= 10)%nat
  /\ List.NoDup (map Content.href links)
  /\ (forall el, In el links ->
        Content.isVideoLink el = true
        /\ exists q, In q queries /\ In el q)
  /\ ((length (collectAll queries) <= 10)%nat ->
      forall q el, In q queries -> In el q ->
        Content.isVideoLink el = true ->
        In (Content.href el) (map Content.href links)).
Proof.
  cbn zeta. unfold Content.getAllVideosFromResults, JS.take.
  fold (collectAll queries).
  assert (Hgood : GoodLinks (concat queries) (collectAll queries)).
  { apply collectAll_good. split; [constructor | intros el []]. }
  destruct Hgood as [Hnd Hall].
  split; [apply firstn_le_length |]. split; [| split].
  - rewrite <- firstn_map. apply NoDup_firstn.
    eapply Permutation_NoDup; [| exact Hnd].
    apply Permutation_map. symmetry. apply Hshuffle.
  - intros el Hin. apply in_firstn in Hin.
    apply (Permutation_in _ (Hshuffle _)) in Hin.
    destruct (Hall el Hin) as [Hv Hsrc]. split; [exact Hv |].
    apply in_concat in Hsrc as (q & Hq & Hel). eauto.
  - intros Hfew q el Hq Hel Hv.
    rewrite firstn_all2
      by (rewrite (Permutation_length (Hshuffle _)); exact Hfew).
    destruct (collectAll_complete queries []) as [_ Hnew].
    specialize (Hnew q el Hq Hel Hv). fold (collectAll queries) in Hnew.
    eapply Permutation_in; [| exact Hnew].
    apply Permutation_map. symmetry. apply Hshuffle.
Qed.

Lemma rev_shuffles {A} (l : list A) : Permutation (rev l) l.
Proof. symmetry. apply Permutation_rev. Qed.

Lemma getAllVideosFromResults_sound_witness :
  (length (Content.getAllVideosFromResults (@rev _) sampleQueries) <= 10)%nat
  /\ List.NoDup
       (map Content.href
          (Content.getAllVideosFromResults (@rev _) sampleQueries)).
Proof.
  pose proof (getAllVideosFromResults_sound (@rev _) sampleQueries
                (@rev_shuffles _)) as H.
  cbn zeta in H. split; [exact (proj1 H) | exact (proj1 (proj2 H))].
Defined.

(** ** Content script: the session as a whole *)

Section Session.

Variable shuffle : list Content.Element -> list Content.Element.
Variable page : Content.Page.
Variable rWatch : nat -> Q.
Hypothesis rWatch_unit : UnitInterval rWatch.

Lemma watchAll_total m n i links total :
  (15 <= m)%Q -> (n <= length links)%nat ->
  (total + inject_Z (Z.of_nat n) * 0
   <= Content.watchAll page (Some m) rWatch n i links total
   /\ Content.watchAll page (Some m) rWatch n i links total
      <= total + inject_Z (Z.of_nat n) * m
   /\ ((0 < n)%nat ->
       total < Content.watchAll page (Some m) rWatch n i links total))%Q.
Proof.
  intros Hm. revert i links total.
  induction n as [| n IH]; intros i links total Hlen.
  - cbn [Content.watchAll]. change (inject_Z (Z.of_nat 0)) with 0%Q.
    repeat split; first [lra | intros Hc; lia].
  - destruct links as [| link rest]; [cbn in Hlen; lia |].
    cbn [Content.watchAll].
    assert (Hw : (0 < Content.watchCurrentVideo
                         (Content.videoOf page link) (Some m) (rWatch i)
                  /\ Content.watchCurrentVideo
                       (Content.videoOf page link) (Some m) (rWatch i) <= m)%Q).
    { pose proof (watchCurrentVideo_range (Content.videoOf page link) m
                    (rWatch i) (rWatch_unit i) ltac:(lra)) as H.
      cbn zeta in H. destruct (Content.videoOf page link) as [dur |].
      - destruct H as (H1 & H2 & _). split; assumption.
      - rewrite H. split; [reflexivity | exact Hm]. }
    destruct Hw as [Hw0 Hwm].
    destruct (IH (S i) rest
                (total + Content.watchCurrentVideo
                           (Content.videoOf page link) (Some m) (rWatch i))%Q
                ltac:(cbn in Hlen; lia)) as (Hlo & Hhi & _).
    rewrite Nat2Z.inj_succ. unfold Z.succ. rewrite inject_Z_plus.
    change (inject_Z 1) with 1%Q.
    repeat split; first [lra | intros _; lra].
Qed.

End Session.

(** X22. What [runSession] reports, for draws in [[0, 1)] and a cap of
    at least 15 s, the count of videos being computed in doubles. A
    failure carries the keyword it was given and a non-empty error text,
    and no counts. A success carries the varied keyword, a number of
    videos watched between 1 and 6 ([randInt(3, 5)] can return 6) that
    does not exceed the links found, and a total watch time that is
    positive and at most that number times the cap. *)
Theorem runSession_report (fl : Q -> Q)
    (shuffle : list Content.Element -> list Content.Element)
    (kw : string) (m : Q) (page : Content.Page)
    (rVary rCount : Q) (rWatch : nat -> Q)
    (Hfl : Rounding fl)
    (HrVary : (0 <= rVary /\ rVary < 1)%Q)
    (HrCount : (0 <= rCount /\ rCount < 1)%Q)
    (HrWatch : UnitInterval rWatch)
    (Hm : (15 <= m)%Q) :
  let res := Content.runSession fl shuffle kw (Some m) page
                                rVary rCount rWatch in
  if success res then
    Content.varyKeyword rVary kw = keyword res
    /\ error res = None
    /\ exists n t,
         videosWatched res = Some n /\ 1 <= n <= 6
         /\ n <= Z.of_nat (length (Content.getAllVideosFromResults shuffle
                                     (Content.queries page)))
         /\ watchSeconds res = Some t
         /\ (0 < t /\ t <= inject_Z n * m)%Q
  else
    keyword res = Some kw
    /\ videosWatched res = None /\ watchSeconds res = None
    /\ exists e, error res = Some e /\ e <> "".
Proof.
  cbn zeta. unfold Content.runSession.
  destruct (varyKeyword_cases rVary kw HrVary) as (v & Hv & _).
  rewrite Hv.
  destruct (Content.searchInput page); cbn [negb].
  2:{ cbn. repeat split. eexists. split; [reflexivity | discriminate]. }
  destruct (Content.getAllVideosFromResults shuffle (Content.queries page))
    as [| link rest] eqn:Hlinks.
  { cbn. repeat split. eexists. split; [reflexivity | discriminate]. }
  cbn [success keyword error videosWatched watchSeconds].
  pose proof (double_randInt_bounds fl Hfl rCount 3 5 HrCount ltac:(lia)
                ltac:(unfold maxSafe; lia)) as Hc.
  set (n := Z.min (Z.of_nat (length (link :: rest)))
                  (Double.randInt fl rCount 3 5)).
  assert (Hn : 1 <= n <= 6 /\ n <= Z.of_nat (length (link :: rest))).
  { subst n. cbn [length]. lia. }
  split; [reflexivity |]. split; [reflexivity |].
  exists n. eexists. split; [reflexivity |]. split; [lia |].
  split; [lia |]. split; [reflexivity |].
  destruct (watchAll_total page rWatch HrWatch m (Z.to_nat n) 0
              (link :: rest) 0%Q Hm ltac:(lia)) as (_ & Hhi & Hpos).
  rewrite Z2Nat.id in Hhi by lia.
  split; [apply Hpos; lia | lra].
Qed.

Lemma runSession_report_witness :
  let res := Content.runSession exact (@rev _) "cats" (Some 900%Q) samplePage
                                (1 # 2) (1 # 2) randomHalf in
  if success res then
    Content.varyKeyword (1 # 2) "cats" = keyword res
    /\ error res = None
    /\ exists n t,
         videosWatched res = Some n /\ 1 <= n <= 6
         /\ n <= Z.of_nat (length (Content.getAllVideosFromResults (@rev _)
                                     (Content.queries samplePage)))
         /\ watchSeconds res = Some t
         /\ (0 < t /\ t <= inject_Z n * 900)%Q
  else
    keyword res = Some "cats"
    /\ videosWatched res = None /\ watchSeconds res = None
    /\ exists e, error res = Some e /\ e <> "".
Proof.
  exact (runSession_report exact (@rev _) "cats" 900%Q samplePage
           (1 # 2) (1 # 2) randomHalf Rounding_exact
           ltac:(split; [discriminate | reflexivity])
           ltac:(split; [discriminate | reflexivity])
           randomHalf_unit ltac:(discriminate)).
Defined.

(** ** Keyword lists from text *)

Lemma existsb_eqb_In (x : string) (l : list string) :
  existsb (String.eqb x) l = true <-> In x l.
Proof.
  rewrite existsb_exists. split.
  - intros (y & Hy & Heq). apply String.eqb_eq in Heq. now subst.
  - intros Hin. exists x. split; [exact Hin | apply String.eqb_refl].
Qed.

Lemma uniqueFrom_spec (seen items : list string) :
  List.NoDup (Text.uniqueFrom seen items)
  /\ forall x, In x (Text.uniqueFrom seen items) ->
       In x items /\ ~ In x seen.
Proof.
  revert seen. induction items as [| y rest IH]; intros seen.
  - split; [constructor | intros x []].
  - cbn [Text.uniqueFrom].
    destruct (existsb (String.eqb y) seen) eqn:Hex.
    + destruct (IH seen) as [Hnd Hin]. split; [exact Hnd |].
      intros x Hx. destruct (Hin x Hx). split; [now right | assumption].
    + destruct (IH (y :: seen)) as [Hnd Hin]. split.
      * constructor; [| exact Hnd].
        intros Hy. destruct (Hin y Hy) as [_ Hno]. apply Hno. now left.
      * intros x [<- | Hx].
        -- split; [now left |]. intros Hs.
           apply existsb_eqb_In in Hs. congruence.
        -- destruct (Hin x Hx) as [H1 H2]. split; [now right |].
           intros Hs. apply H2. now right.
Qed.

Section TrimFacts.

Variable isSpace : ascii -> bool.

Lemma trimStart_head (s : string) :
  Text.trimStart isSpace s = ""
  \/ exists c t, Text.trimStart isSpace s = String c t /\ isSpace c = false.
Proof.
  induction s as [| c s IH]; [now left |].
  cbn [Text.trimStart]. destruct (isSpace c) eqn:Hc; [exact IH |].
  right. eauto.
Qed.

Lemma trimEnd_idem (s : string) :
  Text.trimEnd isSpace (Text.trimEnd isSpace s) = Text.trimEnd isSpace s.
Proof.
  induction s as [| c s IH]; [reflexivity |].
  cbn [Text.trimEnd].
  destruct (isSpace c && String.eqb (Text.trimEnd isSpace s) "") eqn:Hd;
    [reflexivity |].
  cbn [Text.trimEnd]. rewrite IH, Hd. reflexivity.
Qed.

Lemma trim_idem (s : string) :
  Text.trim isSpace (Text.trim isSpace s) = Text.trim isSpace s.
Proof.
  unfold Text.trim.
  destruct (trimStart_head s) as [-> | (c & t & -> & Hc)]; [reflexivity |].
  cbn [Text.trimEnd]. rewrite Hc. cbn [andb Text.trimStart]. rewrite Hc.
  cbn [Text.trimEnd]. rewrite Hc. cbn [andb]. now rewrite trimEnd_idem.
Qed.

Lemma anyChar_trimStart p (s : string) :
  anyChar p s = false -> anyChar p (Text.trimStart isSpace s) = false.
Proof.
  induction s as [| c s IH]; [reflexivity |].
  cbn [anyChar Text.trimStart]. intros H.
  apply orb_false_iff in H as [Hc Hs].
  destruct (isSpace c); [now apply IH |].
  cbn [anyChar]. now rewrite Hc, Hs.
Qed.

Lemma anyChar_trimEnd p (s : string) :
  anyChar p s = false -> anyChar p (Text.trimEnd isSpace s) = false.
Proof.
  induction s as [| c s IH]; [reflexivity |].
  cbn [anyChar Text.trimEnd]. intros H.
  apply orb_false_iff in H as [Hc Hs].
  destruct (isSpace c && String.eqb (Text.trimEnd isSpace s) "");
    [reflexivity |].
  cbn [anyChar]. rewrite Hc. now apply IH.
Qed.

Lemma anyChar_trim p (s : string) :
  anyChar p s = false -> anyChar p (Text.trim isSpace s) = false.
Proof.
  intros H. unfold Text.trim. now apply anyChar_trimEnd, anyChar_trimStart.
Qed.

End TrimFacts.

Lemma splitRuns_no_sep (isSep : ascii -> bool) (s : string) (inSep : bool)
    (t : string) :
  In t (Text.splitRuns isSep inSep s) -> anyChar isSep t = false.
Proof.
  revert inSep t. induction s as [| c s IH]; intros inSep t Hin.
  - destruct Hin as [<- | []]. reflexivity.
  - cbn [Text.splitRuns] in Hin. destruct (isSep c) eqn:Hc.
    + destruct inSep; [now apply (IH true) |].
      destruct Hin as [<- | Hin]; [reflexivity | now apply (IH true)].
    + destruct (Text.splitRuns isSep false s) as [| h tl] eqn:Hs.
      * destruct Hin as [<- | []]. cbn [anyChar]. now rewrite Hc.
      * destruct Hin as [<- | Hin].
        -- cbn [anyChar]. rewrite Hc. apply (IH false). rewrite Hs. now left.
        -- apply (IH false). rewrite Hs. now right.
Qed.

Lemma nonEmpty_true (s : string) : Text.nonEmpty s = true <-> s <> "".
Proof.
  unfold Text.nonEmpty. destruct (String.eqb_spec s ""); cbn;
    split; congruence.
Qed.

(** X23. Whatever text the keyword service returns, the keywords read
    out of it are at most twelve, pairwise different and none empty;
    each is trimmed and holds neither a comma nor a line break. *)
Theorem parseKeywords_clean (isSpace : ascii -> bool) (text : string) :
  let ks := parseKeywords isSpace text in
  (length ks <= 12)%nat
  /\ List.NoDup ks
  /\ forall k, In k ks ->
       k <> "" /\ Text.trim isSpace k = k /\ anyChar isKeywordSep k = false.
Proof.
  cbn zeta. unfold parseKeywords, JS.take, Text.unique.
  set (items := List.filter Text.nonEmpty _).
  destruct (uniqueFrom_spec [] items) as [Hnd Hin].
  split; [apply firstn_le_length |]. split; [now apply NoDup_firstn |].
  intros k Hk. apply in_firstn in Hk. destruct (Hin k Hk) as [Hitem _].
  subst items. apply filter_In in Hitem as [Hmap Hne].
  apply in_map_iff in Hmap as (t & <- & Ht).
  split; [now apply nonEmpty_true |]. split; [apply trim_idem |].
  apply anyChar_trim. eapply splitRuns_no_sep. exact Ht.
Qed.

(** ** Popup: the start button *)

Lemma startKeywords_nonEmpty (isSpace : ascii -> bool) (value k : string) :
  In k (Popup.startKeywords isSpace value) -> k <> "".
Proof.
  unfold Popup.startKeywords.
  destruct (Text.nonEmpty (Text.trim isSpace value)).
  - intros Hin. apply in_firstn, filter_In in Hin as [_ Hne].
    now apply nonEmpty_true.
  - intros [<- | [<- | [<- | []]]]; discriminate.
Qed.

Lemma chooseKeywords_ok (l : list string) :
  (forall k, In k l -> k <> "") ->
  chooseKeywords (Some l) <> []
  /\ (length (chooseKeywords (Some l)) <= 20)%nat
  /\ (forall k, In k (chooseKeywords (Some l)) -> k <> "")
  /\ (l <> [] -> chooseKeywords (Some l) = firstn 20 l).
Proof.
  intros Hl. destruct l as [| k ks].
  - repeat split; try discriminate; [cbn; lia | | congruence].
    intros k [<- | [<- | [<- | []]]]; discriminate.
  - cbn [chooseKeywords]. unfold JS.take. repeat split.
    + discriminate.
    + apply firstn_le_length.
    + intros x Hx. apply Hl. eapply in_firstn. exact Hx.
Qed.

(** X24. A click on the start button while no run is active, whatever
    the text area holds: the run is started, and the keywords stored
    for it - in the store and in [currentRun] - are a non-empty list of
    at most twenty non-empty strings: the first twenty typed, or the
    three built-in ones when nothing usable was typed. *)
Theorem clickStart_keywords (random : nat -> Q) (numberToString : Q -> string)
    (injects : Z -> option string) (isSpace : ascii -> bool)
    (value : string) (w : World)
    (Hidle : JS.truthyBool (isRunning (store w)) = false) :
  let typed := Popup.startKeywords isSpace value in
  let w' := run random numberToString injects
                (Popup.clickStart isSpace value) w in
  exists l,
    keywords (store w') = Some l
    /\ (exists cr, currentRun (store w') = Some cr /\ runKeywords cr = l)
    /\ isRunning (store w') = Some true
    /\ l <> [] /\ (length l <= 20)%nat
    /\ (forall k, In k l -> k <> "")
    /\ (typed <> [] -> l = firstn 20 typed)
    /\ (typed = [] -> l = defaultKeywords CONFIG).
Proof.
  cbn zeta. unfold Popup.clickStart, run. cbn [fold_left step].
  set (typed := Popup.startKeywords isSpace value).
  set (w1 := withStore _ w).
  assert (Hidle1 : JS.truthyBool (isRunning (store w1)) = false) by exact Hidle.
  rewrite onMessage_net. cbn [firstReply onControl onSessionResult].
  rewrite (startBoost_idle_world random numberToString (Some typed) w1 Hidle1).
  rewrite scheduleAlarmsForRun_world.
  cbn [store respond notify createAlarm withAlarms withStore withRngIx
       storeWithCurrentRun keywords currentRun isRunning].
  destruct (chooseKeywords_ok typed (startKeywords_nonEmpty isSpace value))
    as (Hne & Hlen & Hall & Htyped).
  exists (chooseKeywords (Some typed)).
  split; [reflexivity |]. split; [eexists; split; reflexivity |].
  split; [reflexivity |]. split; [exact Hne |]. split; [exact Hlen |].
  split; [exact Hall |]. split; [exact Htyped |].
  intros ->. reflexivity.
Qed.

Lemma clickStart_keywords_witness :
  exists l,
    keywords (store (run randomHalf showNumber injectsOk
                       (Popup.clickStart Text.asciiSpace " cats , , dogs ")
                       (emptyWorld 1000)))
    = Some l /\ l = ["cats"; "dogs"].
Proof.
  destruct (clickStart_keywords randomHalf showNumber injectsOk
              Text.asciiSpace " cats , , dogs " (emptyWorld 1000)
              ltac:(reflexivity))
    as (l & Hk & _ & _ & _ & _ & _ & Htyped & _).
  exists l. split; [exact Hk |].
  rewrite Htyped by (vm_compute; discriminate).
  vm_compute. reflexivity.
Defined.

(** ** Scheduled mode: one dispatch per alarm *)

Section ScheduledMode.

Variable random : nat -> Q.
Variable numberToString : Q -> string.
Variable injects : Z -> option string.

Lemma scheduled_startBoost kws w :
  let w' := startBoost random numberToString kws w in
  timeouts w' = timeouts w /\ awaiting w' = awaiting w /\ sent w' = sent w
  /\ immediateMode (store w') = immediateMode (store w).
Proof.
  cbn zeta. destruct (JS.truthyBool (isRunning (store w))) eqn:Hrun.
  - unfold startBoost. rewrite Hrun. repeat split; reflexivity.
  - rewrite startBoost_idle_world by exact Hrun.
    rewrite scheduleAlarmsForRun_world. repeat split; reflexivity.
Qed.

Lemma scheduled_stopBoost w :
  let w' := stopBoost w in
  timeouts w' = timeouts w /\ awaiting w' = awaiting w /\ sent w' = sent w
  /\ immediateMode (store w') = Some false.
Proof.
  cbn zeta. unfold stopBoost.
  destruct (stopRunId (store w)) as [r |];
    [destruct (JS.truthyStr (Some r)) |]; repeat split; reflexivity.
Qed.

Lemma awaiting_onSessionResult m tab w :
  awaiting (onSessionResult random m tab w) = awaiting w.
Proof.
  destruct m as [r | | |]; try reflexivity.
  unfold onSessionResult, draw.
  destruct tab as [t |]; [destruct (truthyTab (Some t)) |];
    cbn [store appendLog withStore removeTab withTabs keywords immediateMode
         isRunning];
    (destruct (keywords (appendLogStore CONFIG _ (store w))) as [k |];
     [destruct (_ && _) |]); reflexivity.
Qed.

Lemma scheduled_onSessionResult m tab w :
  ScheduledOnly w ->
  ScheduledOnly (onSessionResult random m tab w)
  /\ sent (onSessionResult random m tab w) = sent w.
Proof.
  intros (Ht & Ha & Him).
  destruct m as [r | | |]; try (split; [repeat split; assumption | reflexivity]).
  destruct (onSessionResult_effect random r tab w) as (Hs & Htime & Hsent).
  cbn zeta in Hs, Htime, Hsent. split; [| exact Hsent].
  split; [| split].
  - rewrite Htime. unfold timeoutsAfterResult. rewrite Him. cbn [andb].
    now destruct (keywords (store w)).
  - now rewrite awaiting_onSessionResult.
  - rewrite Hs. exact Him.
Qed.

Lemma scheduled_triggerSession name w :
  ScheduledOnly w ->
  ScheduledOnly (triggerSession random injects name w)
  /\ (length (sent (triggerSession random injects name w))
      <= length (sent w) + 1)%nat.
Proof.
  intros (Ht & Ha & Him). unfold triggerSession, draw, createTab.
  destruct (injects _) as [err |].
  - split; [repeat split; assumption | cbn; lia].
  - split; [repeat split; assumption |].
    cbn [sent sendStart withSent withTabs withRngIx].
    rewrite length_app. cbn. lia.
Qed.

Lemma scheduled_step e w :
  isStartImmediate e = false -> ScheduledOnly w ->
  ScheduledOnly (step random numberToString injects e w)
  /\ (length (sent (step random numberToString injects e w))
      <= length (sent w) + (if isAlarm e then 1 else 0))%nat.
Proof.
  intros He Hw. destruct e as [m tab | name | i | i | t | kws |];
    cbn [step isAlarm].
  - rewrite onMessage_net.
    assert (H1 : ScheduledOnly (firstReply m w)
                 /\ sent (firstReply m w) = sent w).
    { destruct m as [[r |] | | |]; (split; [exact Hw | reflexivity]). }
    destruct H1 as [H1 Hs1].
    assert (H2 : ScheduledOnly (onControl random numberToString injects m
                                  (firstReply m w))
                 /\ sent (onControl random numberToString injects m
                            (firstReply m w)) = sent w).
    { destruct H1 as (Ht & Ha & Him).
      destruct m as [r | kws | kws |]; cbn [onControl].
      - split; [repeat split; assumption | exact Hs1].
      - destruct (scheduled_startBoost kws (firstReply (MsgStart kws) w))
          as (E1 & E2 & E3 & E4).
        cbn zeta in E1, E2, E3, E4.
        split; [| cbn [sent respond]; congruence].
        split; [cbn [timeouts respond]; congruence |].
        split; [cbn [awaiting respond]; congruence |].
        cbn [store respond]. now rewrite E4.
      - discriminate.
      - destruct (scheduled_stopBoost (firstReply MsgStop w))
          as (E1 & E2 & E3 & E4).
        cbn zeta in E1, E2, E3, E4.
        split; [| cbn [sent respond]; congruence].
        split; [cbn [timeouts respond]; congruence |].
        split; [cbn [awaiting respond]; congruence |].
        cbn [store respond]. now rewrite E4. }
    destruct H2 as [H2 Hs2].
    destruct (scheduled_onSessionResult m tab _ H2) as [H3 Hs3].
    split; [exact H3 |]. rewrite Hs3, Hs2. lia.
  - destruct (alarms w !! name); [| split; [exact Hw | lia]].
    assert (Hw' : ScheduledOnly (withAlarms (delete name (alarms w)) w))
      by exact Hw.
    unfold onAlarm. destruct (JS.startsWith name "session-").
    + destruct (_ || _); [split; [exact Hw' | cbn; lia] |].
      apply (scheduled_triggerSession name _ Hw').
    + destruct (JS.startsWith name "end-");
        [| split; [exact Hw' | cbn; lia]].
      destruct Hw as (Ht & Ha & Him).
      split; [repeat split; assumption | cbn; lia].
  - destruct Hw as (Ht & Ha & Him). rewrite Ht.
    destruct i; cbn [nth_error]; (split; [repeat split; assumption | lia]).
  - destruct Hw as (Ht & Ha & Him). rewrite Ha.
    destruct i; cbn [nth_error]; (split; [repeat split; assumption | lia]).
  - split; [exact Hw | cbn; lia].
  - destruct Hw as (Ht & Ha & Him).
    split; [repeat split; assumption | cbn; lia].
  - destruct Hw as (Ht & Ha & Him).
    split; [repeat split; assumption | cbn; lia].
Qed.

End ScheduledMode.

(** X25. Scheduled mode fires each slot at most once. From an empty
    store and without a [startImmediate] message, whatever else
    arrives: no timer is ever armed, no response awaited, and the
    [startSession] messages sent are at most as many as the alarms
    that fired. *)
Theorem scheduled_one_dispatch_per_alarm (random : nat -> Q)
    (numberToString : Q -> string) (injects : Z -> option string)
    (es : list Event) (t0 : Z)
    (Hsched : forallb (fun e => negb (isStartImmediate e)) es = true) :
  let w := run random numberToString injects es (emptyWorld t0) in
  timeouts w = [] /\ awaiting w = []
  /\ (length (sent w) <= length (List.filter isAlarm es))%nat.
Proof.
  cbn zeta.
  assert (Hgen : forall es w,
            forallb (fun e => negb (isStartImmediate e)) es = true ->
            ScheduledOnly w ->
            ScheduledOnly (run random numberToString injects es w)
            /\ (length (sent (run random numberToString injects es w))
                <= length (sent w) + length (List.filter isAlarm es))%nat).
  { clear es Hsched. intros es. induction es as [| e es IH]; intros w Hes Hw.
    - split; [exact Hw | cbn; lia].
    - cbn [forallb] in Hes. apply andb_prop in Hes as [He Hes].
      apply negb_true_iff in He.
      destruct (scheduled_step random numberToString injects e w He Hw)
        as [Hw1 Hlen1].
      unfold run. cbn [fold_left].
      destruct (IH _ Hes Hw1) as [Hw2 Hlen2]. split; [exact Hw2 |].
      unfold run in Hlen2. cbn [List.filter].
      destruct (isAlarm e); cbn [length]; lia. }
  destruct (Hgen es (emptyWorld t0) Hsched) as [(Ht & Ha & _) Hlen].
  { repeat split; reflexivity. }
  repeat split; [exact Ht | exact Ha | exact Hlen].
Qed.

Lemma scheduled_one_dispatch_per_alarm_witness :
  let w := run randomHalf showNumber injectsOk
               [EvMessage (MsgStart None) None;
                EvAlarm "session-run-1000-10801000";
                EvAlarm "session-run-1000-10801000"]
               (emptyWorld 1000) in
  timeouts w = [] /\ awaiting w = []
  /\ (length (sent w)
      <= length (List.filter isAlarm
                   [EvMessage (MsgStart None) None;
                    EvAlarm "session-run-1000-10801000";
                    EvAlarm "session-run-1000-10801000"]))%nat.
Proof.
  exact (scheduled_one_dispatch_per_alarm randomHalf showNumber injectsOk
           [EvMessage (MsgStart None) None;
            EvAlarm "session-run-1000-10801000";
            EvAlarm "session-run-1000-10801000"]
           1000 ltac:(reflexivity)).
Defined.
